(** * dataExtraction_figma: the scene-tree-to-React compilers

    A shallow embedding of the JavaScript/TypeScript sources of the
    repository:

    - module [Legacy]: [server/index.js], the compiler [generateElement]
      without node identifiers, and its endpoint [/api/generate];
    - module [Server]: the server whose compiler [generateNodeComponent]
      numbers the nodes, and its endpoint [/generate-component];
    - module [Mui]: the classifier [detectComponentType] of the server that
      emits MUI widgets;
    - module [MuiServer]: the compiler [generateNodeComponent] of that
      server, with its three widget branches;
    - modules [Plugin] and [PluginBasic]: the font weight computed by the
      two versions of the Figma plugin;
    - modules [PluginBytes] and [Extraction]: the byte conversions of the
      plugin and its extraction [extractNodeData] of the scene tree;
    - module [Typography]: the typography block of [getCommonStyles] in
      [server/index.js], one function per statement.

    Conventions of the embedding.
    - A JS string is a [string] of 8-bit characters, a text standing for its
      UTF-8 bytes; every character the sources test for or insert is ASCII.
      Case folding ([toLowerCase]) and white space ([trim], the class [\s])
      are those of the ASCII range: a name with a letter or a space outside
      that range is folded and trimmed on its ASCII part only.
    - Lengths and coordinates ([x], [y], [width], offsets, radii, font
      sizes) are integers [Z]; quantities of the unit interval (opacity,
      colour channels) and the results of [parseFloat] are finite decimals
      [Dec].  Binary floating-point rounding is outside the model: the
      definitions transcribe the arithmetic of the sources, which is exact
      on integer coordinates.
    - [undefined] is [None]; an object used as an ordered dictionary (the
      [styles] object) is an association list in insertion order.
    - The file system of module [Host] never refuses an operation
      ([fs.mkdir] and [fs.writeFile] always succeed): a statement about an
      endpoint says what a request does on a machine whose file system
      works. *)

From Stdlib Require Import String Ascii ZArith NArith List Bool Lia DecimalString.
From stdpp Require Import base tactics option list strings gmap.

Local Open Scope Z_scope.

(** ** Primitives of the host language *)
Module JS.

(** [String.prototype.toLowerCase], on the ASCII range. *)
Definition lowerChar (c : ascii) : ascii :=
  let n := nat_of_ascii c in
  if ((65 <=? n)%nat && (n <=? 90)%nat)%bool then ascii_of_nat (n + 32) else c.

Fixpoint toLowerCase (s : string) : string :=
  match s with
  | EmptyString => EmptyString
  | String c s' => String (lowerChar c) (toLowerCase s')
  end.

(** [s.startsWith(p)] *)
Definition startsWith (s p : string) : bool := String.prefix p s.

(** [s.includes(sub)] *)
Fixpoint includes (s sub : string) : bool :=
  String.prefix sub s ||
  match s with
  | EmptyString => false
  | String _ s' => includes s' sub
  end.

(** [s.replace(/c/g, r)] for a single character [c]. *)
Fixpoint replaceChar (c : ascii) (r : string) (s : string) : string :=
  match s with
  | EmptyString => EmptyString
  | String a s' =>
      if Ascii.eqb a c then r +:+ replaceChar c r s'
      else String a (replaceChar c r s')
  end.

(** [s.replace(/[^a-zA-Z0-9]/g, '')] *)
Definition isAlnum (c : ascii) : bool :=
  let n := nat_of_ascii c in
  ((48 <=? n)%nat && (n <=? 57)%nat) ||
  ((65 <=? n)%nat && (n <=? 90)%nat) ||
  ((97 <=? n)%nat && (n <=? 122)%nat).

Fixpoint filterChars (p : ascii -> bool) (s : string) : string :=
  match s with
  | EmptyString => EmptyString
  | String a s' => if p a then String a (filterChars p s') else filterChars p s'
  end.

(** The regular expression class [\s], on the ASCII range. *)
Definition isSpace (c : ascii) : bool :=
  let n := nat_of_ascii c in
  ((9 <=? n)%nat && (n <=? 13)%nat) || (n =? 32)%nat.

Fixpoint dropWhile (p : ascii -> bool) (s : string) : string :=
  match s with
  | EmptyString => EmptyString
  | String a s' => if p a then dropWhile p s' else s
  end.

Fixpoint rev_string (s acc : string) : string :=
  match s with
  | EmptyString => acc
  | String a s' => rev_string s' (String a acc)
  end.

Definition dropWhileEnd (p : ascii -> bool) (s : string) : string :=
  rev_string (dropWhile p (rev_string s "")) "".

(** [s.trim()] *)
Definition trim (s : string) : string := dropWhileEnd isSpace (dropWhile isSpace s).

(** [s.split(c)[0]]: the part before the first [c]. *)
Fixpoint beforeChar (c : ascii) (s : string) : string :=
  match s with
  | EmptyString => EmptyString
  | String a s' => if Ascii.eqb a c then EmptyString else String a (beforeChar c s')
  end.

(** [arr.join(sep)] *)
Fixpoint join (sep : string) (l : list string) : string :=
  match l with
  | [] => ""
  | [s] => s
  | s :: rest => s +:+ sep +:+ join sep rest
  end.

(** [s.repeat(n)] *)
Fixpoint repeat (s : string) (n : nat) : string :=
  match n with
  | O => ""
  | S n' => s +:+ repeat s n'
  end.

(** [s.replace(/\s+/g, r)]; [inRun] holds inside a run of white space. *)
Fixpoint replaceRunsFrom (r : string) (inRun : bool) (s : string) : string :=
  match s with
  | EmptyString => EmptyString
  | String a s' =>
      if isSpace a
      then (if inRun then replaceRunsFrom r true s' else r +:+ replaceRunsFrom r true s')
      else String a (replaceRunsFrom r false s')
  end.

Definition replaceSpaceRuns (r : string) (s : string) : string :=
  replaceRunsFrom r false s.

(** [s.split(c)] *)
Fixpoint splitChar (c : ascii) (s : string) : list string :=
  match s with
  | EmptyString => [EmptyString]
  | String a s' =>
      if Ascii.eqb a c then EmptyString :: splitChar c s'
      else match splitChar c s' with
           | h :: t => String a h :: t
           | [] => [String a EmptyString]
           end
  end.

(** Template interpolation of an integer. *)
Definition showZ (z : Z) : string := NilZero.string_of_int (Z.to_int z).

(** *** Numbers with a fractional part

    [mkDec m e] is the number [m / 10^e]. *)
Record Dec := mkDec { dmant : Z; dscale : nat }.

Definition ofZ (z : Z) : Dec := mkDec z 0.

Definition pow10 (e : nat) : Z := 10 ^ Z.of_nat e.

(** Strip trailing zeros of the fractional part. *)
Fixpoint normAux (m : Z) (e : nat) : Dec :=
  match e with
  | O => mkDec m 0
  | S e' => if (m mod 10 =? 0) then normAux (m / 10) e' else mkDec m e
  end.

Definition norm (d : Dec) : Dec := normAux (dmant d) (dscale d).

Definition Dltb (a b : Dec) : bool :=
  dmant a * pow10 (dscale b) <? dmant b * pow10 (dscale a).

Definition DisZero (a : Dec) : bool := dmant a =? 0.

(** [Math.round(a * k)]: round half up. *)
Definition roundMul (a : Dec) (k : Z) : Z :=
  (2 * (dmant a * k) + pow10 (dscale a)) / (2 * pow10 (dscale a)).

Fixpoint padZeros (width : nat) (s : string) : string :=
  match width with
  | O => s
  | S w => if (String.length s <? width)%nat then padZeros w (String "0" s) else s
  end.

(** Template interpolation of a number (plain decimal notation). *)
Definition showDec (d : Dec) : string :=
  let n := norm d in
  match dscale n with
  | O => showZ (dmant n)
  | e =>
      let a := Z.abs (dmant n) in
      (if dmant n <? 0 then "-" else "") +:+
      showZ (a / pow10 e) +:+ "." +:+ padZeros e (showZ (a mod pow10 e))
  end.

(** A JS number: the results of [parseFloat] include [NaN] and the
    infinities. *)
Inductive Number :=
| NaN
| Infinity (negative : bool)
| Fin (d : Dec).

Definition isNaN (n : Number) : bool :=
  match n with NaN => true | _ => false end.

(** [n || d] *)
Definition orDefault (n : Number) (d : Z) : Number :=
  match n with
  | NaN => Fin (ofZ d)
  | Fin x => if DisZero x then Fin (ofZ d) else n
  | Infinity _ => n
  end.

Definition showNumber (n : Number) : string :=
  match n with
  | NaN => "NaN"
  | Infinity false => "Infinity"
  | Infinity true => "-Infinity"
  | Fin d => showDec d
  end.

(** *** parseFloat

    [parseFloat] skips leading white space and reads the longest prefix that
    is a decimal literal: an optional sign, then [Infinity] or digits with an
    optional fraction and an optional exponent. *)
Definition isDigit (c : ascii) : bool :=
  let n := nat_of_ascii c in ((48 <=? n)%nat && (n <=? 57)%nat).

Definition digitVal (c : ascii) : Z := Z.of_nat (nat_of_ascii c) - 48.

(** Reads a run of digits: accumulated value, number of digits, rest. *)
Fixpoint readDigits (s : string) (acc : Z) (n : nat) : Z * nat * string :=
  match s with
  | String c s' =>
      if isDigit c then readDigits s' (acc * 10 + digitVal c) (S n)
      else (acc, n, s)
  | EmptyString => (acc, n, s)
  end.

(** The exponent part [e[+-]digits], when well formed. *)
Definition readExponent (s : string) : Z :=
  match s with
  | String c s' =>
      if (Ascii.eqb c "e" || Ascii.eqb c "E")%bool then
        let '(neg, s'') :=
          match s' with
          | String "-" t => (true, t)
          | String "+" t => (false, t)
          | _ => (false, s')
          end in
        let '(v, n, _) := readDigits s'' 0 0 in
        match n with
        | O => 0
        | _ => if neg then - v else v
        end
      else 0
  | EmptyString => 0
  end.

Definition scaleBy (m : Z) (frac : nat) (ex : Z) : Dec :=
  let e := Z.of_nat frac - ex in
  if e <? 0 then mkDec (m * 10 ^ (- e)) 0 else norm (mkDec m (Z.to_nat e)).

Definition parseFloat (str : string) : Number :=
  let s := dropWhile isSpace str in
  let '(neg, s) :=
    match s with
    | String "-" t => (true, t)
    | String "+" t => (false, t)
    | _ => (false, s)
    end in
  if String.prefix "Infinity" s then Infinity neg else
  let '(ip, n1, s1) := readDigits s 0 0 in
  let '(m, n2, s2) :=
    match s1 with
    | String "." t => readDigits t ip 0
    | _ => (ip, O, s1)
    end in
  match (n1 + n2)%nat with
  | O => NaN
  | _ => Fin (scaleBy (if neg then - m else m) n2 (readExponent s2))
  end.

(** *** String literals

    The value denoted by the body of a single-quoted string literal: a
    backslash introduces an escape, and a bare quote or line terminator
    cannot occur.  The single-character escapes are read; a body with any
    other escape is not read ([None]). *)
Definition escapeValue (e : ascii) : option ascii :=
  if Ascii.eqb e "092" then Some "092"%char
  else if Ascii.eqb e "'" then Some "'"%char
  else if Ascii.eqb e "034" then Some "034"%char
  else if Ascii.eqb e "n" then Some "010"%char
  else if Ascii.eqb e "r" then Some "013"%char
  else if Ascii.eqb e "t" then Some "009"%char
  else if Ascii.eqb e "b" then Some "008"%char
  else if Ascii.eqb e "f" then Some "012"%char
  else if Ascii.eqb e "v" then Some "011"%char
  else None.

Fixpoint readLiteral (body : string) : option string :=
  match body with
  | EmptyString => Some EmptyString
  | String c t =>
      if Ascii.eqb c "092" then
        match t with
        | String e t' =>
            match escapeValue e, readLiteral t' with
            | Some v, Some rest => Some (String v rest)
            | _, _ => None
            end
        | EmptyString => None
        end
      else if Ascii.eqb c "'" || Ascii.eqb c "010" || Ascii.eqb c "013" then None
      else match readLiteral t with
           | Some rest => Some (String c rest)
           | None => None
           end
  end.

End JS.

(** ** The extracted scene tree (the [ExtractedData] payload) *)
Module Model.
Import JS.

(** A colour.  The alpha channel that the colour of an effect carries in
    the document is left out: neither server reads it. *)
Record RGB := mkRGB { r : Dec; g : Dec; b : Dec }.

(** An entry of [fills] or [strokes]; [weight] is set on strokes only. *)
Record Paint := mkPaint {
  paintType : string;
  color : option RGB;
  paintOpacity : option Dec;
  weight : option Z
}.

Record Vector := mkVector { vx : Z; vy : Z }.

Record Effect := mkEffect {
  effectType : string;
  effectVisible : bool;
  effectColor : option RGB;
  offset : option Vector;
  radius : option Z
}.

(** [fontWeight] is a number or, in older payloads, a string. *)
Inductive FontWeight :=
| FWNum (n : Z)
| FWStr (s : string).

(** [lineHeight] and [letterSpacing]: a bare number or [{ value, unit }]. *)
Inductive Spacing :=
| SpNum (n : Z)
| SpObj (value : option Z) (unit : option string).

Record NodeAttrs := mkAttrs {
  name : string;
  type : string;
  x : option Z;
  y : option Z;
  width : Z;
  height : Z;
  rotation : option Z;
  cornerRadius : option Z;
  fills : option (list Paint);
  strokes : option (list Paint);
  effects : option (list Effect);
  opacity : option Dec;
  visible : option bool;
  layoutMode : option string;
  gap : option Z;
  paddingLeft : option Z;
  paddingRight : option Z;
  paddingTop : option Z;
  paddingBottom : option Z;
  textContent : option string;
  fontSize : option Z;
  fontFamily : option string;
  fontWeight : option FontWeight;
  textAlign : option string;
  textAlignHorizontal : option string;
  lineHeight : option Spacing;
  letterSpacing : option Spacing;
  svg : option string;
  svgBase64 : option string;
  image : option string
}.

(** A node owns the ordered sequence of its children. *)
#[local] Unset Elimination Schemes.
Inductive Node := mkNode {
  attrs : NodeAttrs;
  children : option (list Node)
}.

#[local] Set Elimination Schemes.

(** Truthiness of optional fields ([if (node.f)]). *)
Definition truthyZ (o : option Z) : bool :=
  match o with Some n => negb (n =? 0) | None => false end.

Definition truthyStr (o : option string) : bool :=
  match o with Some s => negb (String.eqb s "") | None => false end.

(** [o || d] for a field holding a number. *)
Definition orZ (o : option Z) (d : Z) : Z :=
  match o with Some n => if n =? 0 then d else n | None => d end.

(** Induction over trees, children included. *)
Section NodeInd.
Variable P : Node -> Prop.
Hypothesis Hleaf : forall a, P (mkNode a None).
Hypothesis Hnode : forall a cs, Forall P cs -> P (mkNode a (Some cs)).

Fixpoint Node_ind' (n : Node) : P n :=
  match n with
  | mkNode a None => Hleaf a
  | mkNode a (Some cs) =>
      Hnode a cs
        ((fix go (l : list Node) : Forall P l :=
            match l with
            | [] => List.Forall_nil P
            | c :: l' => @List.Forall_cons _ P c l' (Node_ind' c) (go l')
            end) cs)
  end.
End NodeInd.

End Model.

(** ** The Figma plugin: the version with [convertFontWeight] *)
Module Plugin.
Import JS.

(** [convertFontWeight(style)] *)
Definition convertFontWeight (style : string) : Number :=
  if String.eqb style "" then Fin (ofZ 400) else
  let styleLower := toLowerCase style in
  let numeric := parseFloat style in
  if negb (isNaN numeric) then numeric else
  if includes styleLower "thin" || includes styleLower "100" then Fin (ofZ 100) else
  if includes styleLower "extralight" || includes styleLower "ultralight"
     || includes styleLower "200" then Fin (ofZ 200) else
  if includes styleLower "light" || includes styleLower "300" then Fin (ofZ 300) else
  if includes styleLower "regular" || includes styleLower "normal"
     || includes styleLower "400" then Fin (ofZ 400) else
  if includes styleLower "medium" || includes styleLower "500" then Fin (ofZ 500) else
  if includes styleLower "semibold" || includes styleLower "demi"
     || includes styleLower "600" then Fin (ofZ 600) else
  if includes styleLower "bold" || includes styleLower "700" then Fin (ofZ 700) else
  if includes styleLower "extrabold" || includes styleLower "ultrabold"
     || includes styleLower "800" then Fin (ofZ 800) else
  if includes styleLower "black" || includes styleLower "heavy"
     || includes styleLower "900" then Fin (ofZ 900) else
  Fin (ofZ 400).

(** [node.fontName]: [figma.mixed] is [None]; the style may fail to be a
    string. *)
Record FontName := mkFontName { family : string; style : option string }.

(** The [fontWeight] computed by [extractTextProperties]. *)
Definition extractTextProperties_fontWeight (fontName : option FontName)
  : option Number :=
  match fontName with
  | None => None
  | Some fn =>
      match style fn with
      | Some s => Some (convertFontWeight s)
      | None => Some (Fin (ofZ 400))
      end
  end.

End Plugin.

(** ** The Figma plugin: the version without the weight vocabulary *)
Module PluginBasic.
Import JS.

(** The [fontWeight] entry of [extractTextProperties]:
    [parseFloat(style) || 400]. *)
Definition extractTextProperties_fontWeight (fontName : option Plugin.FontName)
  : option Number :=
  match fontName with
  | None => None
  | Some fn =>
      match Plugin.style fn with
      | Some s => Some (orDefault (parseFloat s) 400)
      | None => Some (Fin (ofZ 400))
      end
  end.

End PluginBasic.

(** ** The MUI server: semantic classification *)
Module Mui.
Import JS Model.

Inductive ComponentType := Button | TextField | Checkbox | Typography.

(** [detectComponentType(node)]; [null] is [None]. *)
Definition detectComponentType (node : Node) : option ComponentType :=
  let a := attrs node in
  let name := toLowerCase (name a) in
  if (includes name "button" || includes name "btn") &&
     (String.eqb (type a) "FRAME" || String.eqb (type a) "INSTANCE"
      || String.eqb (type a) "GROUP" || String.eqb (type a) "COMPONENT")
  then Some Button
  else if includes name "input" || includes name "field" || includes name "search"
  then Some TextField
  else if includes name "checkbox" || includes name "tick"
  then Some Checkbox
  else if String.eqb (type a) "TEXT"
  then Some Typography
  else None.

End Mui.

(** ** Style objects and markup fragments shared by the servers *)
Module Markup.
Import JS Model.

Definition nl : string := String "010"%char "".
Definition dq : string := String "034"%char "".
Definition bslash : string := String "092"%char "".
Definition backtick : string := String "096"%char "".

(** A value of a style object: a string or a number. *)
Inductive StyleVal :=
| VStr (s : string)
| VNum (n : Number).

(** [String(value)] *)
Definition valToString (v : StyleVal) : string :=
  match v with
  | VStr s => s
  | VNum n => showNumber n
  end.

(** A style object: its own properties in insertion order. *)
Definition Styles : Type := list (string * StyleVal).

(** [styles[k] = v]: an existing key keeps its place. *)
Fixpoint setKey (k : string) (v : StyleVal) (st : Styles) : Styles :=
  match st with
  | [] => [(k, v)]
  | (k', v') :: rest =>
      if String.eqb k' k then (k', v) :: rest else (k', v') :: setKey k v rest
  end.

(** [delete styles[k]] *)
Fixpoint delKey (k : string) (st : Styles) : Styles :=
  match st with
  | [] => []
  | (k', v') :: rest =>
      if String.eqb k' k then rest else (k', v') :: delKey k rest
  end.

(** [styles[k]] *)
Fixpoint getKey (k : string) (st : Styles) : option StyleVal :=
  match st with
  | [] => None
  | (k', v') :: rest => if String.eqb k' k then Some v' else getKey k rest
  end.

(** [Object.keys(styles)] *)
Definition keys (st : Styles) : list string := List.map fst st.

(** Object spread [{ ...st, ...extra }]. *)
Definition spread (st extra : Styles) : Styles :=
  fold_left (fun acc kv => setKey (fst kv) (snd kv) acc) extra st.

(** [setKey] under a condition ([if (c) styles[k] = v]). *)
Definition setIf (c : bool) (k : string) (v : StyleVal) (st : Styles) : Styles :=
  if c then setKey k v st else st.

Definition px (z : Z) : StyleVal := VStr (showZ z +:+ "px").

End Markup.

(** ** The host: file system, external tools, and the effects of a handler *)
Module Host.

(** What a handler can observe and change.  [scaffoldWorks] is the outcome
    of the external project scaffolding commands, [scaffold] the files they
    leave, [fontLookup] the stylesheet text the font service returns for a
    family (with at least one font URL in it), if any. *)
Record World := mkWorld {
  dirs : gset string;
  files : gmap string string;
  scaffoldWorks : bool;
  scaffold : gmap string string;
  fontLookup : string -> option string
}.

(** A computation that may throw: its result and the world it leaves. *)
Inductive Result (A : Type) :=
| Ok (a : A)
| Throw (message : string).
Arguments Ok {A} a.
Arguments Throw {A} message.

Definition Eff (A : Type) : Type := World -> Result A * World.

Definition ret {A} (a : A) : Eff A := fun w => (Ok a, w).

Definition throw {A} (message : string) : Eff A := fun w => (Throw message, w).

Definition bind {A B} (m : Eff A) (k : A -> Eff B) : Eff B :=
  fun w =>
    match m w with
    | (Ok a, w') => k a w'
    | (Throw e, w') => (Throw e, w')
    end.

(** [try { m } catch (e) { h(e.message) }] *)
Definition tryCatch {A} (m : Eff A) (h : string -> Eff A) : Eff A :=
  fun w =>
    match m w with
    | (Ok a, w') => (Ok a, w')
    | (Throw e, w') => h e w'
    end.

(** A handler: [try { m } catch (e) { res.json(h(e.message)) }], where [m]
    ends by sending its own answer. *)
Definition respond {R} (m : Eff R) (h : string -> R) : World -> R * World :=
  fun w =>
    match m w with
    | (Ok r, w') => (r, w')
    | (Throw e, w') => (h e, w')
    end.

(** Lifting of a pure computation that may throw. *)
Definition lift {A} (r : Result A) : Eff A := fun w => (r, w).

Declare Scope eff_scope.
Delimit Scope eff_scope with eff.
Notation "'let!' x ':=' m 'in' k" := (bind m (fun x => k))
  (at level 10, x pattern, m at level 100, k at level 200) : eff_scope.

(** The path names a directory or a file. *)
Definition hasPath (w : World) (path : string) : bool :=
  bool_decide (path ∈ dirs w) || bool_decide (is_Some (files w !! path)).

Definition addDir (path : string) (w : World) : World :=
  mkWorld ({[path]} ∪ dirs w) (files w) (scaffoldWorks w) (scaffold w) (fontLookup w).

Definition putFile (path text : string) (w : World) : World :=
  mkWorld (dirs w) (<[path := text]> (files w)) (scaffoldWorks w) (scaffold w)
    (fontLookup w).

(** [fs.access(path)] succeeds. *)
Definition pathExists (path : string) : Eff bool :=
  fun w => (Ok (hasPath w path), w).

(** [fs.mkdir(path, { recursive: true })] *)
Definition mkdir (path : string) : Eff unit :=
  fun w => (Ok tt, addDir path w).

(** [fs.writeFile(path, text)] *)
Definition writeFile (path text : string) : Eff unit :=
  fun w => (Ok tt, putFile path text w).

(** [fs.readFile(path, 'utf-8')] *)
Definition readFile (path : string) : Eff string :=
  fun w =>
    match files w !! path with
    | Some text => (Ok text, w)
    | None => (Throw "ENOENT: no such file or directory", w)
    end.

(** [ensureDirectory(dirPath)] *)
Definition ensureDirectory (dirPath : string) : Eff unit :=
  (let! ex := pathExists dirPath in
   if ex then ret tt else mkdir dirPath)%eff.

(** [list.map(f)] where [f] may throw. *)
Section MapResult.
Context {A B : Type} (f : A -> Result B).

Fixpoint mapResult (l : list A) : Result (list B) :=
  match l with
  | [] => Ok []
  | a :: rest =>
      match f a with
      | Throw e => Throw e
      | Ok b =>
          match mapResult rest with
          | Throw e => Throw e
          | Ok bs => Ok (b :: bs)
          end
      end
  end.
End MapResult.

End Host.

(** ** The plain server: the compiler with node identifiers *)
Module Server.
Import JS Model Markup.

Definition DEFAULT_COMPONENT_NAME : string := "FigmaComponent".

Definition isLowerAlpha (c : ascii) : bool :=
  let n := nat_of_ascii c in ((97 <=? n)%nat && (n <=? 122)%nat).

Definition upperChar (c : ascii) : ascii :=
  if isLowerAlpha c then ascii_of_nat (nat_of_ascii c - 32) else c.

(** [toCamelCase(str)]: [str.replace(/-([a-z])/g, g => g[1].toUpperCase())] *)
Fixpoint toCamelCase (str : string) : string :=
  match str with
  | EmptyString => EmptyString
  | String a t =>
      match t with
      | String c t' =>
          if Ascii.eqb a "-" && isLowerAlpha c
          then String (upperChar c) (toCamelCase t')
          else String a (toCamelCase t)
      | EmptyString => String a EmptyString
      end
  end.

(** [rgbToColor(rgb, opacity = 1)] *)
Definition rgbToColor (rgb : option RGB) (opacity : option Dec) : string :=
  match rgb with
  | None => "transparent"
  | Some c =>
      let r := showZ (roundMul (r c) 255) in
      let g := showZ (roundMul (g c) 255) in
      let b := showZ (roundMul (b c) 255) in
      let a := match opacity with Some o => o | None => ofZ 1 end in
      if Dltb a (ofZ 1)
      then "rgba(" +:+ r +:+ ", " +:+ g +:+ ", " +:+ b +:+ ", " +:+ showDec a +:+ ")"
      else "rgb(" +:+ r +:+ ", " +:+ g +:+ ", " +:+ b +:+ ")"
  end.

(** [getBackgroundStyle(fills)] *)
Definition getBackgroundStyle (fills : option (list Paint)) : Styles :=
  match fills with
  | None | Some [] => []
  | Some (fill :: _) =>
      if String.eqb (paintType fill) "SOLID" && bool_decide (is_Some (color fill))
      then [("backgroundColor", VStr (rgbToColor (color fill) (paintOpacity fill)))]
      else []
  end.

(** [getBorderStyle(strokes, node)] *)
Definition getBorderStyle (strokes : option (list Paint)) : Styles :=
  match strokes with
  | None | Some [] => []
  | Some (stroke :: _) =>
      if String.eqb (paintType stroke) "SOLID" && bool_decide (is_Some (color stroke))
      then [("borderWidth", px (orZ (weight stroke) 1));
            ("borderStyle", VStr "solid");
            ("borderColor", VStr (rgbToColor (color stroke) (paintOpacity stroke)))]
      else []
  end.

(** The text of one drop shadow. *)
Definition shadowText (e : Effect) : string :=
  let offsetX := orZ (vx <$> offset e) 0 in
  let offsetY := orZ (vy <$> offset e) 0 in
  let blur := orZ (radius e) 0 in
  let color :=
    match effectColor e with
    | Some c => rgbToColor (Some c) (Some (ofZ 1))
    | None => "rgba(0, 0, 0, 0.25)"
    end in
  showZ offsetX +:+ "px " +:+ showZ offsetY +:+ "px " +:+ showZ blur +:+ "px " +:+ color.

Definition isVisibleDropShadow (e : Effect) : bool :=
  String.eqb (effectType e) "DROP_SHADOW" && effectVisible e.

(** [getEffectStyles(effects)] *)
Definition getEffectStyles (effects : option (list Effect)) : Styles :=
  match effects with
  | None | Some [] => []
  | Some es =>
      let shadows := List.map shadowText (List.filter isVisibleDropShadow es) in
      match shadows with
      | [] => []
      | _ => [("boxShadow", VStr (join ", " shadows))]
      end
  end.

(** *** Decoding of a base64 data URI

    [Buffer.from(text, 'base64')]: the decoder accepts the standard and the
    URL-safe alphabet, ignores other characters, stops at the padding and
    never raises. *)
Definition sextet (c : ascii) : option N :=
  let n := N_of_ascii c in
  (if (65 <=? n) && (n <=? 90) then Some (n - 65)
   else if (97 <=? n) && (n <=? 122) then Some (n - 71)
   else if (48 <=? n) && (n <=? 57) then Some (n + 4)
   else if (n =? 43) || (n =? 45) then Some 62
   else if (n =? 47) || (n =? 95) then Some 63
   else None)%N.

Fixpoint sextets (s : string) : list N :=
  match s with
  | EmptyString => []
  | String c s' =>
      if Ascii.eqb c "=" then []
      else match sextet c with
           | Some v => v :: sextets s'
           | None => sextets s'
           end
  end.

Fixpoint bytesOfSextets (l : list N) : string :=
  match l with
  | a :: b :: c :: d :: rest =>
      let w := (a * 262144 + b * 4096 + c * 64 + d)%N in
      String (ascii_of_N (w / 65536))
        (String (ascii_of_N ((w / 256) mod 256))
           (String (ascii_of_N (w mod 256)) (bytesOfSextets rest)))
  | [a; b; c] =>
      let w := (a * 4096 + b * 64 + c)%N in
      String (ascii_of_N (w / 1024)) (String (ascii_of_N ((w / 4) mod 256)) "")
  | [a; b] => String (ascii_of_N ((a * 64 + b) / 16)) ""
  | _ => ""
  end.

Definition base64Decode (s : string) : string := bytesOfSextets (sextets s).

(** U+FFFD, in UTF-8. *)
Definition REPLACEMENT : string :=
  String "239"%char (String "191"%char (String "189"%char "")).

Definition inRange (lo hi : N) (c : ascii) : bool :=
  let n := N_of_ascii c in ((lo <=? n) && (n <=? hi))%N.

(** [buffer.toString('utf-8')]: a well-formed sequence stands for itself,
    and every maximal ill-formed part of the input (a byte that cannot start
    a sequence, or a sequence cut short by a byte that cannot continue it or
    by the end of the input) is replaced by U+FFFD.  The lead bytes C0, C1
    and F5 to FF, overlong forms, surrogates and code points past U+10FFFF
    are ill-formed. *)
Fixpoint utf8ToString (bytes : string) : string :=
  match bytes with
  | EmptyString => EmptyString
  | String b0 rest =>
      let n := N_of_ascii b0 in
      if (n <? 128)%N then String b0 (utf8ToString rest)
      else if inRange 194 223 b0 then
        match rest with
        | String b1 rest1 =>
            if inRange 128 191 b1
            then String b0 (String b1 (utf8ToString rest1))
            else REPLACEMENT +:+ utf8ToString rest
        | EmptyString => REPLACEMENT
        end
      else if inRange 224 239 b0 then
        match rest with
        | String b1 rest1 =>
            if inRange (if (n =? 224)%N then 160 else 128)
                 (if (n =? 237)%N then 159 else 191) b1
            then
              match rest1 with
              | String b2 rest2 =>
                  if inRange 128 191 b2
                  then String b0 (String b1 (String b2 (utf8ToString rest2)))
                  else REPLACEMENT +:+ utf8ToString rest1
              | EmptyString => REPLACEMENT
              end
            else REPLACEMENT +:+ utf8ToString rest
        | EmptyString => REPLACEMENT
        end
      else if inRange 240 244 b0 then
        match rest with
        | String b1 rest1 =>
            if inRange (if (n =? 240)%N then 144 else 128)
                 (if (n =? 244)%N then 143 else 191) b1
            then
              match rest1 with
              | String b2 rest2 =>
                  if inRange 128 191 b2 then
                    match rest2 with
                    | String b3 rest3 =>
                        if inRange 128 191 b3
                        then String b0 (String b1 (String b2 (String b3
                               (utf8ToString rest3))))
                        else REPLACEMENT +:+ utf8ToString rest2
                    | EmptyString => REPLACEMENT
                    end
                  else REPLACEMENT +:+ utf8ToString rest1
              | EmptyString => REPLACEMENT
              end
            else REPLACEMENT +:+ utf8ToString rest
        | EmptyString => REPLACEMENT
        end
      else REPLACEMENT +:+ utf8ToString rest
  end.

Definition SVG_DATA_PREFIX : string := "data:image/svg+xml;base64,".

(** [s.replace(/\s+/g, ' ')] *)
Definition collapseSpaces (s : string) : string := replaceSpaceRuns " " s.

(** *** generateNodeComponent, piece by piece *)

Definition isRoot (depth : nat) : bool := Nat.eqb depth 0.

Definition indentOf (depth : nat) : string := repeat "      " depth.

(** [`node_${nodeCounter}`] *)
Definition nodeId (counter : nat) : string := "node_" +:+ showZ (Z.of_nat counter).

Definition relativeX (node : Node) (depth : nat) (parentX : Z) : Z :=
  if isRoot depth then 0
  else match x (attrs node) with Some v => v - parentX | None => 0 end.

Definition relativeY (node : Node) (depth : nat) (parentY : Z) : Z :=
  if isRoot depth then 0
  else match y (attrs node) with Some v => v - parentY | None => 0 end.

Definition isTextNode (node : Node) : bool := String.eqb (type (attrs node)) "TEXT".

Definition hasSVG (node : Node) : bool :=
  truthyStr (svg (attrs node)) || truthyStr (svgBase64 (attrs node)).

Definition shouldUseSVG (node : Node) : bool := hasSVG node && negb (isTextNode node).

(** [node.layoutMode === 'HORIZONTAL' || node.layoutMode === 'VERTICAL'] *)
Definition isAutoLayout (node : Node) : bool :=
  match layoutMode (attrs node) with
  | Some m => String.eqb m "HORIZONTAL" || String.eqb m "VERTICAL"
  | None => false
  end.

(** [node.visible !== false] *)
Definition notHidden (node : Node) : bool :=
  match visible (attrs node) with Some false => false | _ => true end.

(** [if (o) styles[k] = `${o}px`] *)
Definition setPx (o : option Z) (k : string) (st : Styles) : Styles :=
  match o with
  | Some n => if n =? 0 then st else setKey k (px n) st
  | None => st
  end.

(** The object literal that starts [styles]. *)
Definition initialStyles (node : Node) (depth : nat) : Styles :=
  let a := attrs node in
  spread (spread (spread
    [("width", px (width a));
     ("height", px (height a));
     ("position", VStr (if isRoot depth then "relative" else "absolute"));
     ("opacity", VNum (Fin (default (ofZ 1) (opacity a))));
     ("display", VStr (if notHidden node then "block" else "none"))]
    (if (hasSVG node && shouldUseSVG node) || isTextNode node
     then [] else getBackgroundStyle (fills a)))
    (getBorderStyle (strokes a)))
    (getEffectStyles (effects a)).

(** The auto-layout override of [styles]. *)
Definition autoLayoutStyles (a : NodeAttrs) (st : Styles) : Styles :=
  let st := setKey "display" (VStr "flex") st in
  let st := setKey "position" (VStr "relative") st in
  let st := setKey "flexDirection"
              (VStr (if String.eqb (default "" (layoutMode a)) "HORIZONTAL"
                     then "row" else "column")) st in
  let st := setPx (gap a) "gap" st in
  let st := setPx (paddingLeft a) "paddingLeft" st in
  let st := setPx (paddingRight a) "paddingRight" st in
  let st := setPx (paddingTop a) "paddingTop" st in
  let st := setPx (paddingBottom a) "paddingBottom" st in
  delKey "top" (delKey "left" st).

(** The [styles] object of a node, after the auto-layout override. *)
Definition nodeStyles (node : Node) (depth : nat) (parentX parentY : Z) : Styles :=
  let a := attrs node in
  let st := initialStyles node depth in
  let st :=
    if isRoot depth then st
    else setKey "top" (px (relativeY node depth parentY))
           (setKey "left" (px (relativeX node depth parentX)) st) in
  let st := setPx (cornerRadius a) "borderRadius" st in
  if isAutoLayout node then autoLayoutStyles a st else st.

(** [value !== undefined && value !== null && value !== ''] *)
Definition keepValue (v : StyleVal) : bool :=
  match v with
  | VStr s => negb (String.eqb s "")
  | VNum _ => true
  end.

(** The loop that fills [normalizedStyles]. *)
Definition normalizeStyles (st : Styles) : Styles :=
  fold_left
    (fun acc kv =>
       if keepValue (snd kv) then setKey (toCamelCase (fst kv)) (snd kv) acc else acc)
    st [].

Definition escapeQuote (s : string) : string := replaceChar "'" (bslash +:+ "'") s.

(** One line per entry, joined by a comma and a newline. *)
Definition styleLines (pad : string) (st : Styles) : string :=
  join ("," +:+ nl)
    (List.map
       (fun kv => pad +:+ fst kv +:+ ": '" +:+ escapeQuote (valToString (snd kv)) +:+ "'")
       st).

Definition styleString (node : Node) (depth : nat) (parentX parentY : Z) : string :=
  styleLines (indentOf depth +:+ "        ")
    (normalizeStyles (nodeStyles node depth parentX parentY)).

(** The [textStyles] object of a text node. *)
Definition textStyles (node : Node) : Styles :=
  let a := attrs node in
  let st : Styles := [] in
  let st := setPx (fontSize a) "fontSize" st in
  let st := setIf (truthyStr (fontFamily a)) "fontFamily"
              (VStr (replaceChar "'" "" (default "" (fontFamily a)))) st in
  let st :=
    match fontWeight a with
    | Some (FWNum n) => if n =? 0 then st else setKey "fontWeight" (VNum (Fin (ofZ n))) st
    | Some (FWStr w) =>
        if String.eqb w "" then st else setKey "fontWeight" (VNum (Fin (ofZ 400))) st
    | None => st
    end in
  let st := setIf (truthyStr (textAlign a)) "textAlign"
              (VStr (toLowerCase (default "" (textAlign a)))) st in
  match fills a with
  | Some (fill :: _) =>
      match color fill with
      | Some c => setKey "color" (VStr (rgbToColor (Some c) (paintOpacity fill))) st
      | None => st
      end
  | _ => st
  end.

Definition imgTag (indent src alt : string) : string :=
  nl +:+ indent +:+ "        <img src=" +:+ dq +:+ src +:+ dq +:+ " alt=" +:+ dq +:+ alt
  +:+ dq +:+ " style={{ width: '100%', height: '100%', objectFit: 'contain' }} />".

(** The escaping of inline vector markup for a template literal. *)
Definition escapeSvg (svgContent : string) : string :=
  trim (collapseSpaces
    (replaceChar "010" " "
      (replaceChar "$" (bslash +:+ "$")
        (replaceChar "096" (bslash +:+ backtick)
          (replaceChar "092" (bslash +:+ bslash) svgContent))))).

(** [node.svg || node.svgBase64], decoded when it is a base64 data URI:
    [Buffer.from(base64Data, 'base64').toString('utf-8')]. *)
Definition svgContentOf (node : Node) : string :=
  let a := attrs node in
  let svgContent :=
    if truthyStr (svg a) then default "" (svg a) else default "" (svgBase64 a) in
  if startsWith svgContent SVG_DATA_PREFIX
  then utf8ToString
         (base64Decode
            (String.substring (String.length SVG_DATA_PREFIX)
               (String.length svgContent - String.length SVG_DATA_PREFIX) svgContent))
  else svgContent.

(** The [content] of a node: text, vector, raster or nothing. *)
Definition nodeContent (node : Node) (depth : nat) : string :=
  let a := attrs node in
  let indent := indentOf depth in
  if isTextNode node && truthyStr (textContent a) then
    let text := escapeQuote (default "" (textContent a)) in
    let textStyleStr :=
      styleLines (indent +:+ "          ") (normalizeStyles (textStyles node)) in
    if negb (String.eqb textStyleStr "") then
      nl +:+ indent +:+ "        <span style={{" +:+ nl +:+ textStyleStr +:+ nl
      +:+ indent +:+ "        }}>" +:+ nl +:+ indent +:+ "          " +:+ text +:+ nl
      +:+ indent +:+ "        </span>"
    else
      nl +:+ indent +:+ "        <span>" +:+ nl +:+ indent +:+ "          " +:+ text
      +:+ nl +:+ indent +:+ "        </span>"
  else if hasSVG node && shouldUseSVG node then
    let svgContent := svgContentOf node in
    if String.eqb svgContent "" then ""
    else if negb (startsWith svgContent "data:") then
      nl +:+ indent +:+ "        <div" +:+ nl
      +:+ indent +:+ "          style={{ width: '100%', height: '100%', display: 'flex', alignItems: 'center', justifyContent: 'center', overflow: 'hidden' }}"
      +:+ nl
      +:+ indent +:+ "          dangerouslySetInnerHTML={{ __html: " +:+ backtick
      +:+ escapeSvg svgContent +:+ backtick +:+ " }}" +:+ nl
      +:+ indent +:+ "        />"
    else imgTag indent svgContent (name a)
  else if truthyStr (image a) then imgTag indent (default "" (image a)) (name a)
  else "".

(** The reference origin handed to the children. *)
Definition childrenX (node : Node) (depth : nat) (parentX : Z) : Z :=
  let a := attrs node in
  if isRoot depth then
    let rootX := default 0 (x a) in
    if truthyStr (layoutMode a) then 0 else (if rootX <? 0 then Z.abs rootX else 0)
  else
    if truthyStr (layoutMode a) then 0 else default parentX (x a).

Definition childrenY (node : Node) (depth : nat) (parentY : Z) : Z :=
  let a := attrs node in
  if isRoot depth then
    let rootY := default 0 (y a) in
    if truthyStr (layoutMode a) then 0 else (if rootY <? 0 then Z.abs rootY else 0)
  else
    if truthyStr (layoutMode a) then 0 else default parentY (y a).

(** [node.children && node.children.length > 0] *)
Definition nodeHasChildren (node : Node) : bool :=
  match children node with
  | Some (_ :: _) => true
  | _ => false
  end.

(** The markup of a node around the markup of its children. *)
Definition assemble (node : Node) (depth : nat) (parentX parentY : Z)
    (counter : nat) (childrenContent : string) : string :=
  let indent := indentOf depth in
  let content := nodeContent node depth in
  let Tag := if isTextNode node then "span" else "div" in
  let isSelfClosing := negb (nodeHasChildren node) && String.eqb content "" in
  let styleStr := styleString node depth parentX parentY in
  let openingTag :=
    indent +:+ "    <" +:+ Tag +:+ nl +:+ indent +:+ "      key=" +:+ dq
    +:+ nodeId counter +:+ dq
    +:+ (if negb (String.eqb styleStr "")
         then nl +:+ indent +:+ "      style={{" +:+ nl +:+ styleStr +:+ nl
              +:+ indent +:+ "      }}"
         else "") in
  if isSelfClosing then openingTag +:+ nl +:+ "    />"
  else openingTag +:+ nl +:+ "    >" +:+ nl +:+ content +:+ childrenContent
       +:+ indent +:+ "    </" +:+ Tag +:+ ">".

(** [list.map(f).join] where [f] reads and advances the counter. *)
Section MapCounter.
Context {A : Type} (f : A -> nat -> string * nat).

Fixpoint mapCounter (l : list A) (c : nat) : list string * nat :=
  match l with
  | [] => ([], c)
  | a :: rest =>
      let '(s, c1) := f a c in
      let '(ss, c2) := mapCounter rest c1 in
      (s :: ss, c2)
  end.
End MapCounter.

(** [generateNodeComponent(node, depth, parentX, parentY)].  The closure
    variable [nodeCounter] is threaded: the function takes its value and
    returns the markup with the value it leaves behind. *)
Fixpoint generateNodeComponent (node : Node) (depth : nat) (parentX parentY : Z)
    (nodeCounter : nat) : string * nat :=
  let cx := childrenX node depth parentX in
  let cy := childrenY node depth parentY in
  let '(parts, final) :=
    match children node with
    | Some cs =>
        mapCounter (fun child c => generateNodeComponent child (S depth) cx cy c)
          cs (S nodeCounter)
    | None => ([], S nodeCounter)
    end in
  (assemble node depth parentX parentY nodeCounter (join nl parts), final).

(** The markup of the children of a node, in document order. *)
Definition childrenParts (node : Node) (depth : nat) (parentX parentY : Z)
    (nodeCounter : nat) : list string :=
  match children node with
  | Some cs =>
      fst (mapCounter
             (fun child c =>
                generateNodeComponent child (S depth)
                  (childrenX node depth parentX) (childrenY node depth parentY) c)
             cs (S nodeCounter))
  | None => []
  end.

(** The number of nodes of a tree. *)
Fixpoint nodeCount (node : Node) : nat :=
  match children node with
  | Some cs => S (list_sum (List.map nodeCount cs))
  | None => 1
  end.

(** The request payload: an array of roots, or a single root object. *)
Inductive Payload :=
| PArray (roots : list Node)
| PSingle (root : Node).

(** [Array.isArray(data) ? data : [data]] *)
Definition components (data : Payload) : list Node :=
  match data with
  | PArray roots => roots
  | PSingle root => [root]
  end.

(** The callback of [components.map] that compiles one root. *)
Definition generateRoot (comp : Node) (nodeCounter : nat) : string * nat :=
  let rootX := default 0 (x (attrs comp)) in
  let rootY := default 0 (y (attrs comp)) in
  let childrenOffsetX := if rootX <? 0 then Z.abs rootX else 0 in
  let childrenOffsetY := if rootY <? 0 then Z.abs rootY else 0 in
  generateNodeComponent comp 0 childrenOffsetX childrenOffsetY nodeCounter.

(** The text around the compiled roots. *)
Definition componentTemplate (componentName mainComponent : string) : string :=
  "import React from 'react';" +:+ nl
  +:+ "import './" +:+ componentName +:+ ".css';" +:+ nl
  +:+ nl
  +:+ "const " +:+ componentName +:+ " = () => {" +:+ nl
  +:+ "  return (" +:+ nl
  +:+ "    <div className=" +:+ dq +:+ toLowerCase componentName +:+ "-container" +:+ dq
  +:+ ">" +:+ nl
  +:+ mainComponent +:+ nl
  +:+ "    </div>" +:+ nl
  +:+ "  );" +:+ nl
  +:+ "};" +:+ nl
  +:+ nl
  +:+ "export default " +:+ componentName +:+ ";" +:+ nl.

(** [generateComponentCode(data, componentName)]: [let nodeCounter = 0]
    starts every call. *)
Definition generateComponentCode (data : Payload) (componentName : string) : string :=
  let nodeCounter := 0%nat in
  let '(parts, _) := mapCounter generateRoot (components data) nodeCounter in
  componentTemplate componentName (join nl parts).

(** [generateCSS(componentName)] *)
Definition generateCSS (componentName : string) : string :=
  "." +:+ toLowerCase componentName +:+ "-container {" +:+ nl
  +:+ "  position: relative;" +:+ nl
  +:+ "  width: 100%;" +:+ nl
  +:+ "  min-height: 100vh;" +:+ nl
  +:+ "  display: flex;" +:+ nl
  +:+ "  align-items: center;" +:+ nl
  +:+ "  justify-content: center;" +:+ nl
  +:+ "  background: #f5f5f5;" +:+ nl
  +:+ "  overflow: auto;" +:+ nl
  +:+ "  padding: 20px;" +:+ nl
  +:+ "  box-sizing: border-box;" +:+ nl
  +:+ "}" +:+ nl.

(** *** The project scaffold and the endpoint *)
Import Host.
Local Open Scope eff_scope.

Definition PROJECT_DIR : string := "react-app".
Definition SRC_DIR : string := PROJECT_DIR +:+ "/src".
Definition COMPONENTS_DIR : string := SRC_DIR +:+ "/components".

(** [JSON.stringify(TAILWIND_CONFIG, null, 2)] *)
Definition TAILWIND_CONFIG_JSON : string :=
  "{" +:+ nl
  +:+ "  " +:+ dq +:+ "content" +:+ dq +:+ ": [" +:+ nl
  +:+ "    " +:+ dq +:+ "./src/**/*.{js,jsx,ts,tsx}" +:+ dq +:+ nl
  +:+ "  ]," +:+ nl
  +:+ "  " +:+ dq +:+ "theme" +:+ dq +:+ ": {" +:+ nl
  +:+ "    " +:+ dq +:+ "extend" +:+ dq +:+ ": {}" +:+ nl
  +:+ "  }," +:+ nl
  +:+ "  " +:+ dq +:+ "plugins" +:+ dq +:+ ": []" +:+ nl
  +:+ "}".

Definition POSTCSS_CONFIG : string :=
  "module.exports = {" +:+ nl
  +:+ "  plugins: {" +:+ nl
  +:+ "    tailwindcss: {}," +:+ nl
  +:+ "    autoprefixer: {}," +:+ nl
  +:+ "  }," +:+ nl
  +:+ "};" +:+ nl.

Definition INDEX_CSS : string :=
  "@tailwind base;" +:+ nl +:+ "@tailwind components;" +:+ nl
  +:+ "@tailwind utilities;" +:+ nl.

Definition VIEWPORT_META : string := "<meta name=" +:+ dq +:+ "viewport" +:+ dq.

Definition CSP_META : string :=
  nl +:+ "    <meta" +:+ nl
  +:+ "      http-equiv=" +:+ dq +:+ "Content-Security-Policy" +:+ dq +:+ nl
  +:+ "      content=" +:+ dq
  +:+ "default-src * 'unsafe-inline' 'unsafe-eval' data: blob:; style-src * 'unsafe-inline' 'unsafe-eval'; script-src * 'unsafe-inline' 'unsafe-eval'; connect-src *; img-src * data: blob:; font-src * data:;"
  +:+ dq +:+ nl
  +:+ "    />".

(** The text up to and including the first [>], and the rest. *)
Fixpoint upToGt (s : string) : option (string * string) :=
  match s with
  | EmptyString => None
  | String c s' =>
      if Ascii.eqb c ">" then Some (String c "", s')
      else match upToGt s' with
           | Some (m, rest) => Some (String c m, rest)
           | None => None
           end
  end.

(** [html.replace(/<meta name=viewport[^>]*>/, '$&' + ins)], the attribute
    value being quoted. *)
Fixpoint insertAfterViewport (ins : string) (html : string) : string :=
  match html with
  | EmptyString => EmptyString
  | String c html' =>
      if String.prefix VIEWPORT_META html then
        match upToGt html with
        | Some (m, rest) => m +:+ ins +:+ rest
        | None => html
        end
      else String c (insertAfterViewport ins html')
  end.

(** The directories and files the scaffolding commands leave. *)
Definition scaffoldWorld (w : World) : World :=
  mkWorld ({[PROJECT_DIR; SRC_DIR; PROJECT_DIR +:+ "/public"]} ∪ dirs w)
    (scaffold w ∪ files w) (scaffoldWorks w) (scaffold w) (fontLookup w).

(** The external commands [npx create-react-app] and [npm install]. *)
Definition runScaffold : Eff unit :=
  fun w =>
    if scaffoldWorks w then (Ok tt, scaffoldWorld w)
    else (Throw "Command failed: npx create-react-app react-app", w).

(** [createReactApp()] *)
Definition createReactApp : Eff unit :=
  let! ex := pathExists PROJECT_DIR in
  if ex then ret tt else
  let! _ := runScaffold in
  let! _ := writeFile (PROJECT_DIR +:+ "/tailwind.config.js")
              ("module.exports = " +:+ TAILWIND_CONFIG_JSON +:+ ";") in
  let! _ := writeFile (PROJECT_DIR +:+ "/postcss.config.js") POSTCSS_CONFIG in
  let! _ := writeFile (SRC_DIR +:+ "/index.css") INDEX_CSS in
  let indexHtmlPath := PROJECT_DIR +:+ "/public/index.html" in
  tryCatch
    (let! indexHtml := readFile indexHtmlPath in
     if negb (includes indexHtml "Content-Security-Policy")
     then writeFile indexHtmlPath (insertAfterViewport CSP_META indexHtml)
     else ret tt)
    (fun _ => ret tt).

(** The world [createReactApp] leaves when it has to scaffold. *)
Definition scaffolded (w : World) : World :=
  let w1 :=
    putFile (SRC_DIR +:+ "/index.css") INDEX_CSS
      (putFile (PROJECT_DIR +:+ "/postcss.config.js") POSTCSS_CONFIG
         (putFile (PROJECT_DIR +:+ "/tailwind.config.js")
            ("module.exports = " +:+ TAILWIND_CONFIG_JSON +:+ ";")
            (scaffoldWorld w))) in
  match files w1 !! (PROJECT_DIR +:+ "/public/index.html") with
  | Some indexHtml =>
      if negb (includes indexHtml "Content-Security-Policy")
      then putFile (PROJECT_DIR +:+ "/public/index.html")
             (insertAfterViewport CSP_META indexHtml) w1
      else w1
  | None => w1
  end.

(** The JSON answer of the endpoint. *)
Record Response := mkResponse {
  status : nat;
  success : option bool;
  error : option string;
  message : option string;
  componentPath : option string
}.

(** [data[0]?.name?.replace(/[^a-zA-Z0-9]/g, '') || DEFAULT_COMPONENT_NAME] *)
Definition componentNameOf (data : Payload) : string :=
  match data with
  | PArray (first :: _) =>
      let n := filterChars isAlnum (name (attrs first)) in
      if String.eqb n "" then DEFAULT_COMPONENT_NAME else n
  | _ => DEFAULT_COMPONENT_NAME
  end.

Definition appCode (componentName : string) : string :=
  "import React from 'react';" +:+ nl
  +:+ "import " +:+ componentName +:+ " from './components/" +:+ componentName +:+ "';" +:+ nl
  +:+ "import './App.css';" +:+ nl
  +:+ nl
  +:+ "function App() {" +:+ nl
  +:+ "  return (" +:+ nl
  +:+ "    <div className=" +:+ dq +:+ "App" +:+ dq +:+ ">" +:+ nl
  +:+ "      <" +:+ componentName +:+ " />" +:+ nl
  +:+ "    </div>" +:+ nl
  +:+ "  );" +:+ nl
  +:+ "}" +:+ nl
  +:+ nl
  +:+ "export default App;" +:+ nl.

(** [path.join(COMPONENTS_DIR, `${componentName}.jsx`)] *)
Definition componentPathOf (componentName : string) : string :=
  COMPONENTS_DIR +:+ "/" +:+ componentName +:+ ".jsx".

(** The world the endpoint leaves once the scaffold is in place. *)
Definition written (data : Payload) (w1 : World) : World :=
  let componentName := componentNameOf data in
  let w2 := if hasPath w1 COMPONENTS_DIR then w1 else addDir COMPONENTS_DIR w1 in
  let w3 :=
    putFile (COMPONENTS_DIR +:+ "/" +:+ componentName +:+ ".css") (generateCSS componentName)
      (putFile (componentPathOf componentName)
         (generateComponentCode data componentName) w2) in
  if hasPath w3 (SRC_DIR +:+ "/App.js")
  then putFile (SRC_DIR +:+ "/App.js") (appCode componentName) w3
  else putFile (SRC_DIR +:+ "/App.jsx") (appCode componentName) w3.

(** The answer of a successful request. *)
Definition okResponse (data : Payload) : Response :=
  mkResponse 200 (Some true) None
    (Some ("Component " +:+ componentNameOf data
           +:+ " generated successfully! Run 'npm start' in the react-app directory."))
    (Some (componentPathOf (componentNameOf data))).

(** [app.post('/generate-component', ...)]: [body] is [req.body.data],
    [None] when it is missing (or any falsy value). *)
Definition postGenerateComponent (body : option Payload) : World -> Response * World :=
  respond
    (match body with
     | None => ret (mkResponse 400 None (Some "No data provided") None None)
     | Some data =>
         let! _ := createReactApp in
         let! _ := ensureDirectory COMPONENTS_DIR in
         let componentName := componentNameOf data in
         let componentCode := generateComponentCode data componentName in
         let cssCode := generateCSS componentName in
         let componentPath := componentPathOf componentName in
         let cssPath := COMPONENTS_DIR +:+ "/" +:+ componentName +:+ ".css" in
         let! _ := writeFile componentPath componentCode in
         let! _ := writeFile cssPath cssCode in
         let appJSPath := SRC_DIR +:+ "/App.js" in
         let appJSXPath := SRC_DIR +:+ "/App.jsx" in
         let! ex := pathExists appJSPath in
         let! _ := (if ex then writeFile appJSPath (appCode componentName)
                    else writeFile appJSXPath (appCode componentName)) in
         ret (mkResponse 200 (Some true) None
                (Some ("Component " +:+ componentName
                       +:+ " generated successfully! Run 'npm start' in the react-app directory."))
                (Some componentPath))
     end)
    (fun e => mkResponse 500 (Some false) (Some e) None None).

End Server.

(** ** server/index.js: the compiler without node identifiers *)
Module Legacy.
Import JS Model Markup Host.

Definition COMPONENT_DIR : string := "react-app/src/components".
Definition FONTS_DIR : string := "react-app/public/fonts".

(** *** Fonts *)

Definition systemFonts : list string :=
  [ "arial"; "helvetica"; "times"; "courier"; "verdana"; "georgia";
    "palatino"; "garamond"; "bookman"; "comic sans ms"; "trebuchet ms";
    "arial black"; "impact"; "system"; "monospace"; "serif"; "sans-serif";
    "cursive"; "fantasy"; "-apple-system"; "blinkmacsystemfont"; "segoe ui";
    "roboto"; "oxygen"; "ubuntu"; "cantarell"; "fira sans"; "droid sans";
    "helvetica neue" ].

(** [isSystemFont(fontName)] *)
Definition isSystemFont (fontName : string) : bool :=
  existsb (fun sysFont => includes (toLowerCase fontName) (toLowerCase sysFont))
    systemFonts.

Definition isQuote (c : ascii) : bool := Ascii.eqb c "'" || Ascii.eqb c "034".

(** The cleaning of [node.fontFamily]: outer quotes, all quotes, white
    space, and everything from the first comma on are removed. *)
Definition cleanFontFamily (fontFamily : string) : string :=
  trim (beforeChar ","
    (trim (replaceChar "034" ""
      (replaceChar "'" ""
        (dropWhileEnd isQuote (dropWhile isQuote fontFamily)))))).

(** [fonts.add(font)] on a [Set]: insertion order, no duplicates. *)
Definition setAdd (font : string) (fonts : list string) : list string :=
  if bool_decide (font ∈ fonts) then fonts else fonts ++ [font].

(** The first half of [traverse(node)]: the node's own font. *)
Definition ownFont (a : NodeAttrs) (fonts : list string) : list string :=
  match fontFamily a with
  | Some family =>
      if String.eqb family "" then fonts else
      let cleanFont := cleanFontFamily family in
      if negb (String.eqb cleanFont "") && negb (isSystemFont cleanFont)
      then setAdd cleanFont fonts else fonts
  | None => fonts
  end.

(** The inner function [traverse(node)] of [extractFontsFromData]; the set
    [fonts] of the enclosing call is threaded. *)
Fixpoint traverse (node : Node) (fonts : list string) : list string :=
  let fonts := ownFont (attrs node) fonts in
  match children node with
  | Some cs => fold_left (fun acc child => traverse child acc) cs fonts
  | None => fonts
  end.

(** No font of the set is a system font. *)
Definition userFonts (fonts : list string) : Prop :=
  Forall (fun font => isSystemFont font = false) fonts.

(** [extractFontsFromData(data)] *)
Definition extractFontsFromData (data : list Node) : list string :=
  fold_left (fun acc node => traverse node acc) data [].

Definition fontImport (fontName : string) : string :=
  "@import url('https://fonts.googleapis.com/css2?family="
  +:+ replaceSpaceRuns "+" fontName +:+ ":wght@400;500;600;700&display=swap');".

(** [downloadFontFromGoogle(fontName)]: the [css] of its result; it never
    rejects. *)
Definition downloadFontFromGoogle (fontName : string) : Eff string :=
  fun w =>
    match fontLookup w fontName with
    | Some css => (Ok css, w)
    | None => (Ok (fontImport fontName), w)
    end.

Local Open Scope eff_scope.

Fixpoint downloadAll (fonts : list string) : Eff (list string) :=
  match fonts with
  | [] => ret []
  | font :: rest =>
      let! css := downloadFontFromGoogle font in
      let! more := downloadAll rest in
      ret (css :: more)
  end.

(** [generateFontCSS(fonts)] *)
Definition generateFontCSS (fonts : list string) : Eff string :=
  let! _ := ensureDirectory FONTS_DIR in
  let! results := downloadAll fonts in
  ret (join (nl +:+ nl) results).

(** *** Styles *)

(** [rgbToColor(rgb, opacity = 1)] *)
Definition rgbToColor (rgb : option RGB) (opacity : option Dec) : string :=
  match rgb with
  | None => "transparent"
  | Some c =>
      let r := showZ (roundMul (r c) 255) in
      let g := showZ (roundMul (g c) 255) in
      let b := showZ (roundMul (b c) 255) in
      let opacity := default (ofZ 1) opacity in
      if Dltb opacity (ofZ 1)
      then "rgba(" +:+ r +:+ ", " +:+ g +:+ ", " +:+ b +:+ ", " +:+ showDec opacity +:+ ")"
      else "rgb(" +:+ r +:+ ", " +:+ g +:+ ", " +:+ b +:+ ")"
  end.

(** Interpolation of a field that may be [undefined]. *)
Definition showOptZ (o : option Z) : string :=
  match o with Some z => showZ z | None => "undefined" end.

(** [/\s{2,}/.test(s)] *)
Fixpoint hasSpaceRun (s : string) : bool :=
  match s with
  | EmptyString => false
  | String a t =>
      match t with
      | String b _ => (isSpace a && isSpace b) || hasSpaceRun t
      | EmptyString => false
      end
  end.

(** [e.type === 'DROP_SHADOW' && e.visible] *)
Definition isVisibleDropShadow (e : Effect) : bool :=
  String.eqb (effectType e) "DROP_SHADOW" && effectVisible e.

(** The box shadow of [getCommonStyles]: the first visible drop shadow. *)
Definition shadowStyle (a : NodeAttrs) (st : Styles) : Result Styles :=
  match effects a with
  | None | Some [] => Ok st
  | Some es =>
      match List.find isVisibleDropShadow es with
      | None => Ok st
      | Some shadow =>
          let color := rgbToColor (effectColor shadow) (Some (mkDec 5 1)) in
          match offset shadow with
          | None => Throw "Cannot read properties of undefined (reading 'x')"
          | Some o =>
              Ok (setKey "boxShadow"
                    (VStr (showZ (vx o) +:+ "px " +:+ showZ (vy o) +:+ "px "
                           +:+ showOptZ (radius shadow) +:+ "px " +:+ color)) st)
          end
      end
  end.

Definition isAsset (a : NodeAttrs) : bool :=
  truthyStr (image a) || truthyStr (svg a) || truthyStr (svgBase64 a).

(** The first part of [getCommonStyles]: box, rotation, fill, border. *)
Definition boxStyles (a : NodeAttrs) : Styles :=
  let st : Styles :=
    [("position", VStr "absolute");
     ("left", VStr (showOptZ (x a) +:+ "px"));
     ("top", VStr (showOptZ (y a) +:+ "px"));
     ("width", px (width a));
     ("height", px (height a))] in
  let st :=
    if truthyZ (rotation a)
    then setKey "transformOrigin" (VStr "0 0")
           (setKey "transform"
              (VStr ("rotate(" +:+ showOptZ (rotation a) +:+ "deg)")) st)
    else st in
  let st :=
    match fills a with
    | Some (fill :: _) =>
        if String.eqb (paintType fill) "SOLID" then
          let color := rgbToColor (color fill) (paintOpacity fill) in
          if String.eqb (type a) "TEXT" then setKey "color" (VStr color) st
          else if negb (isAsset a) then setKey "backgroundColor" (VStr color) st
          else st
        else st
    | _ => st
    end in
  match strokes a with
  | Some (stroke :: _) =>
      if String.eqb (paintType stroke) "SOLID"
      then setKey "border"
             (VStr (showZ (orZ (weight stroke) 1) +:+ "px solid "
                    +:+ rgbToColor (color stroke) (paintOpacity stroke))) st
      else st
  | _ => st
  end.

(** The typography block of [getCommonStyles] (text nodes only). *)
Definition typographyStyles (a : NodeAttrs) (st : Styles) : Styles :=
  let st := setIf (match textContent a with
                   | Some t => negb (String.eqb t "") && hasSpaceRun t
                   | None => false
                   end) "whiteSpace" (VStr "pre") st in
  let st :=
    if truthyZ (rotation a)
    then setKey "whiteSpace" (VStr "nowrap") (setKey "overflow" (VStr "visible") st)
    else setKey "textOverflow" (VStr "ellipsis") (setKey "overflow" (VStr "hidden") st) in
  let st :=
    if negb (truthyZ (rotation a)) && negb (height a =? 0) && truthyZ (fontSize a)
       && (3 * default 0 (fontSize a) <? 2 * height a)
    then setKey "justifyContent" (VStr "flex-start")
           (setKey "alignItems" (VStr "center") (setKey "display" (VStr "flex") st))
    else st in
  let st := setIf (truthyZ (fontSize a)) "fontSize" (px (default 0 (fontSize a))) st in
  let st :=
    setKey "fontWeight"
      (VNum match fontWeight a with
            | Some (FWStr w) =>
                if String.eqb w "" then Fin (ofZ 400) else orDefault (parseFloat w) 400
            | Some (FWNum n) => if n =? 0 then Fin (ofZ 400) else Fin (ofZ n)
            | None => Fin (ofZ 400)
            end) st in
  let st := setIf (truthyStr (fontFamily a)) "fontFamily"
              (VStr (cleanFontFamily (default "" (fontFamily a)))) st in
  let textAlign :=
    if truthyStr (textAlign a) then textAlign a else textAlignHorizontal a in
  let isFlex :=
    match getKey "display" st with
    | Some (VStr d) => String.eqb d "flex"
    | _ => false
    end in
  let st :=
    if truthyStr textAlign then
      let alignValue := toLowerCase (default "" textAlign) in
      let st := setKey "textAlign" (VStr alignValue) st in
      if isFlex then
        setKey "justifyContent"
          (VStr (if String.eqb alignValue "center" then "center"
                 else if String.eqb alignValue "right" then "flex-end"
                 else "flex-start")) st
      else st
    else
      let st := setKey "textAlign" (VStr "left") st in
      if isFlex then setKey "justifyContent" (VStr "flex-start") st else st in
  let st :=
    match lineHeight a with
    | Some (SpObj value unit) =>
        if String.eqb (default "" unit) "AUTO" then setKey "lineHeight" (VStr "normal") st
        else if String.eqb (default "" unit) "PIXELS"
        then setKey "lineHeight" (VStr (showOptZ value +:+ "px")) st
        else if String.eqb (default "" unit) "PERCENT"
        then setKey "lineHeight" (VStr (showOptZ value +:+ "%")) st
        else match value with
             | Some v => setKey "lineHeight" (VNum (Fin (ofZ v))) st
             | None => st
             end
    | Some (SpNum n) =>
        if n =? 0
        then setIf (truthyZ (fontSize a)) "lineHeight"
               (px (roundMul (mkDec 12 1) (default 0 (fontSize a)))) st
        else setKey "lineHeight" (px n) st
    | None =>
        setIf (truthyZ (fontSize a)) "lineHeight"
          (px (roundMul (mkDec 12 1) (default 0 (fontSize a)))) st
    end in
  match letterSpacing a with
  | Some (SpObj value unit) =>
      if String.eqb (default "" unit) "PIXELS"
      then setKey "letterSpacing" (VStr (showOptZ value +:+ "px")) st
      else if String.eqb (default "" unit) "PERCENT"
      then setKey "letterSpacing" (VStr (showOptZ value +:+ "%")) st
      else match value with
           | Some v => if v =? 0 then st
                       else setKey "letterSpacing" (VStr (showZ v +:+ "em")) st
           | None => st
           end
  | Some (SpNum n) => if n =? 0 then st else setKey "letterSpacing" (px n) st
  | None => st
  end.

(** [getCommonStyles(node)] *)
Definition getCommonStyles (node : Node) : Result Styles :=
  let a := attrs node in
  match shadowStyle a (boxStyles a) with
  | Throw e => Throw e
  | Ok st =>
      let st := if String.eqb (type a) "TEXT" then typographyStyles a st else st in
      Ok (setIf (truthyZ (cornerRadius a)) "borderRadius"
            (px (default 0 (cornerRadius a))) st)
  end.

(** *** Markup *)

(** [escapeJSXText(text)] *)
Definition escapeJSXText (text : option string) : string :=
  match text with
  | None => ""
  | Some t =>
      if String.eqb t "" then "" else
      replaceChar "009" (bslash +:+ "t")
        (replaceChar "013" (bslash +:+ "r")
          (replaceChar "010" (bslash +:+ "n")
            (replaceChar "'" (bslash +:+ "'")
              (replaceChar "092" (bslash +:+ bslash) t))))
  end.

Definition escapeQuote (s : string) : string := replaceChar "'" (bslash +:+ "'") s.

(** One entry of [styleObjectToString]. *)
Definition styleEntry (kv : string * StyleVal) : string :=
  match snd kv with
  | VStr v =>
      if String.eqb (fst kv) "fontFamily" then
        let cleaned :=
          join ", "
            (List.map (fun font => dropWhileEnd isQuote (dropWhile isQuote (trim font)))
               (splitChar "," v)) in
        fst kv +:+ ": '" +:+ escapeQuote cleaned +:+ "'"
      else fst kv +:+ ": '" +:+ escapeQuote v +:+ "'"
  | VNum n => fst kv +:+ ": " +:+ showNumber n
  end.

(** [styleObjectToString(styles)] *)
Definition styleObjectToString (styles : Styles) : string :=
  join ", " (List.map styleEntry styles).

(** The escaping of [node.svg] inside a quoted attribute. *)
Definition escapeSvg (svg : string) : string :=
  replaceChar "013" (bslash +:+ "r")
    (replaceChar "010" (bslash +:+ "n")
      (replaceChar "034" (bslash +:+ dq)
        (replaceChar "'" (bslash +:+ "'")
          (replaceChar "092" (bslash +:+ bslash) svg)))).

(** [!node.visible] *)
Definition isPruned (a : NodeAttrs) : bool :=
  match visible a with Some true => false | _ => true end.

Definition textAlignOf (styles : Styles) : string :=
  match getKey "textAlign" styles with
  | Some (VStr t) => if String.eqb t "" then "left" else t
  | _ => "left"
  end.

(** The text leaf of [generateElement]. *)
Definition textElement (a : NodeAttrs) (styles : Styles) : string :=
  let styleStr := styleObjectToString styles in
  let textJSX := "{'" +:+ escapeJSXText (textContent a) +:+ "'}" in
  if truthyZ (rotation a) then
    "<div style={{" +:+ styleStr
    +:+ "}}><span style={{display: 'inline-block', width: '100%', textAlign: '"
    +:+ textAlignOf styles +:+ "'}}>" +:+ textJSX +:+ "</span></div>"
  else if match getKey "display" styles with
          | Some (VStr d) => String.eqb d "flex"
          | _ => false
          end then
    "<div style={{" +:+ styleStr +:+ "}}><span style={{width: '100%', textAlign: '"
    +:+ textAlignOf styles +:+ "'}}>" +:+ textJSX +:+ "</span></div>"
  else "<div style={{" +:+ styleStr +:+ "}}>" +:+ textJSX +:+ "</div>".

(** The asset leaf of [generateElement]. *)
Definition assetElement (a : NodeAttrs) (styles : Styles) : string :=
  let styleStr := styleObjectToString styles in
  if truthyStr (svg a) then
    "<div style={{" +:+ styleStr +:+ "}} dangerouslySetInnerHTML={{__html: '"
    +:+ escapeSvg (default "" (svg a)) +:+ "'}} />"
  else
    let src := if truthyStr (svgBase64 a) then svgBase64 a else image a in
    "<img src=" +:+ dq +:+ default "" src +:+ dq +:+ " alt=" +:+ dq +:+ name a +:+ dq
    +:+ " style={{" +:+ styleStr +:+ ", objectFit: 'contain'}} />".

(** [generateElement(node)] *)
Fixpoint generateElement (node : Node) : Result string :=
  let a := attrs node in
  if isPruned a then Ok "" else
  match getCommonStyles node with
  | Throw e => Throw e
  | Ok styles =>
      if String.eqb (type a) "TEXT" then Ok (textElement a styles)
      else if isAsset a then Ok (assetElement a styles)
      else
        match
          match children node with
          | Some cs => mapResult generateElement cs
          | None => Ok []
          end
        with
        | Throw e => Throw e
        | Ok parts =>
            Ok ("<div style={{" +:+ styleObjectToString styles +:+ "}}>"
                +:+ join nl parts +:+ "</div>")
        end
  end.

(** [generateComponent(data, name, fontCSS)] *)
Definition generateComponent (data : list Node) (name fontCSS : string)
  : Result string :=
  match data with
  | [] => Throw "Cannot read properties of undefined (reading 'width')"
  | root :: _ =>
      let a := attrs root in
      let rootBg :=
        match fills a with
        | Some (fill :: _) =>
            if String.eqb (paintType fill) "SOLID"
            then rgbToColor (color fill) (paintOpacity fill) else "transparent"
        | _ => "transparent"
        end in
      match children root with
      | None => Throw "Cannot read properties of undefined (reading 'map')"
      | Some cs =>
          match mapResult generateElement cs with
          | Throw e => Throw e
          | Ok parts =>
              Ok ("import React from 'react';" +:+ nl
                  +:+ "import './" +:+ name +:+ ".css';" +:+ nl
                  +:+ nl
                  +:+ "const " +:+ name +:+ " = () => {" +:+ nl
                  +:+ "    return (" +:+ nl
                  +:+ "        <div style={{" +:+ nl
                  +:+ "            position: 'relative'," +:+ nl
                  +:+ "            width: '" +:+ showZ (width a) +:+ "px'," +:+ nl
                  +:+ "            height: '" +:+ showZ (height a) +:+ "px'," +:+ nl
                  +:+ "            backgroundColor: '" +:+ rootBg +:+ "'," +:+ nl
                  +:+ "            overflow: 'hidden'," +:+ nl
                  +:+ "            margin: '0 auto' // Center it" +:+ nl
                  +:+ "        }}>" +:+ nl
                  +:+ "            " +:+ join nl parts +:+ nl
                  +:+ "        </div>" +:+ nl
                  +:+ "    );" +:+ nl
                  +:+ "};" +:+ nl
                  +:+ nl
                  +:+ "export default " +:+ name +:+ ";" +:+ nl)
          end
      end
  end.

(** *** The endpoint *)

Record Response := mkResponse {
  status : nat;
  success : option bool;
  fonts : option (list string);
  error : option string
}.

Definition appjs (componentName : string) : string :=
  "import React from 'react';" +:+ nl
  +:+ "import " +:+ componentName +:+ " from './components/" +:+ componentName +:+ "';" +:+ nl
  +:+ nl
  +:+ "function App() {" +:+ nl
  +:+ "  return (" +:+ nl
  +:+ "    <div className=" +:+ dq +:+ "App" +:+ dq +:+ ">" +:+ nl
  +:+ "      <" +:+ componentName +:+ " />" +:+ nl
  +:+ "    </div>" +:+ nl
  +:+ "  );" +:+ nl
  +:+ "}" +:+ nl
  +:+ nl
  +:+ "export default App;".

(** The font stage of the endpoint: [fontCSS] stays empty when there is no
    font or when [generateFontCSS] throws. *)
Definition fontCSSOf (fonts : list string) : Eff string :=
  match fonts with
  | [] => ret ""
  | _ => tryCatch (generateFontCSS fonts) (fun _ => ret "")
  end.

(** [data[0].name.replace(/[^a-zA-Z0-9]/g, '') || 'Frame1'] *)
Definition componentNameOf (first : Node) : string :=
  let n := filterChars isAlnum (name (attrs first)) in
  if String.eqb n "" then "Frame1" else n.

(** [path.join(COMPONENT_DIR, `${componentName}.jsx`)] *)
Definition componentPathOf (componentName : string) : string :=
  COMPONENT_DIR +:+ "/" +:+ componentName +:+ ".jsx".

(** [app.post('/api/generate', ...)]: [body] is [req.body] when it is an
    array of nodes, [None] when the request carries no such payload. *)
Definition postApiGenerate (body : option (list Node)) : World -> Response * World :=
  respond
    (let! _ := ensureDirectory COMPONENT_DIR in
     match body with
     | None | Some [] => throw "Cannot read properties of undefined (reading 'name')"
     | Some ((first :: _) as data) =>
         let componentName := componentNameOf first in
         let fonts := extractFontsFromData data in
         let! fontCSS := fontCSSOf fonts in
         let! code := lift (generateComponent data componentName fontCSS) in
         let! _ := writeFile (componentPathOf componentName) code in
         let! _ := writeFile (COMPONENT_DIR +:+ "/" +:+ componentName +:+ ".css") fontCSS in
         let! _ := writeFile "react-app/src/App.js" (appjs componentName) in
         ret (mkResponse 200 (Some true) (Some fonts) None)
     end)
    (fun e => mkResponse 500 None None (Some e)).

End Legacy.

(** ** server/index.js: the typography block, statement by statement *)
Module Typography.
Import JS Model Markup Legacy.

(** The statements of the typography block of [getCommonStyles], one
    function per statement, in the order of the source. *)
Definition whiteSpaceOf (a : NodeAttrs) (st : Styles) : Styles :=
  setIf (match textContent a with
         | Some t => negb (String.eqb t "") && hasSpaceRun t
         | None => false
         end) "whiteSpace" (VStr "pre") st.

Definition overflowOf (a : NodeAttrs) (st : Styles) : Styles :=
  if truthyZ (rotation a)
  then setKey "whiteSpace" (VStr "nowrap") (setKey "overflow" (VStr "visible") st)
  else setKey "textOverflow" (VStr "ellipsis") (setKey "overflow" (VStr "hidden") st).

Definition centringOf (a : NodeAttrs) (st : Styles) : Styles :=
  if negb (truthyZ (rotation a)) && negb (height a =? 0) && truthyZ (fontSize a)
     && (3 * default 0 (fontSize a) <? 2 * height a)
  then setKey "justifyContent" (VStr "flex-start")
         (setKey "alignItems" (VStr "center") (setKey "display" (VStr "flex") st))
  else st.

Definition fontSizeOf (a : NodeAttrs) (st : Styles) : Styles :=
  setIf (truthyZ (fontSize a)) "fontSize" (px (default 0 (fontSize a))) st.

Definition fontWeightOf (a : NodeAttrs) (st : Styles) : Styles :=
  setKey "fontWeight"
    (VNum match fontWeight a with
          | Some (FWStr w) =>
              if String.eqb w "" then Fin (ofZ 400) else orDefault (parseFloat w) 400
          | Some (FWNum n) => if n =? 0 then Fin (ofZ 400) else Fin (ofZ n)
          | None => Fin (ofZ 400)
          end) st.

Definition fontFamilyOf (a : NodeAttrs) (st : Styles) : Styles :=
  setIf (truthyStr (fontFamily a)) "fontFamily"
    (VStr (cleanFontFamily (default "" (fontFamily a)))) st.

Definition alignmentOf (a : NodeAttrs) (st : Styles) : Styles :=
  let textAlign :=
    if truthyStr (textAlign a) then textAlign a else textAlignHorizontal a in
  let isFlex :=
    match getKey "display" st with
    | Some (VStr d) => String.eqb d "flex"
    | _ => false
    end in
  if truthyStr textAlign then
    let alignValue := toLowerCase (default "" textAlign) in
    let st := setKey "textAlign" (VStr alignValue) st in
    if isFlex then
      setKey "justifyContent"
        (VStr (if String.eqb alignValue "center" then "center"
               else if String.eqb alignValue "right" then "flex-end"
               else "flex-start")) st
    else st
  else
    let st := setKey "textAlign" (VStr "left") st in
    if isFlex then setKey "justifyContent" (VStr "flex-start") st else st.

Definition lineHeightOf (a : NodeAttrs) (st : Styles) : Styles :=
  match lineHeight a with
  | Some (SpObj value unit) =>
      if String.eqb (default "" unit) "AUTO" then setKey "lineHeight" (VStr "normal") st
      else if String.eqb (default "" unit) "PIXELS"
      then setKey "lineHeight" (VStr (showOptZ value +:+ "px")) st
      else if String.eqb (default "" unit) "PERCENT"
      then setKey "lineHeight" (VStr (showOptZ value +:+ "%")) st
      else match value with
           | Some v => setKey "lineHeight" (VNum (Fin (ofZ v))) st
           | None => st
           end
  | Some (SpNum n) =>
      if n =? 0
      then setIf (truthyZ (fontSize a)) "lineHeight"
             (px (roundMul (mkDec 12 1) (default 0 (fontSize a)))) st
      else setKey "lineHeight" (px n) st
  | None =>
      setIf (truthyZ (fontSize a)) "lineHeight"
        (px (roundMul (mkDec 12 1) (default 0 (fontSize a)))) st
  end.

Definition letterSpacingOf (a : NodeAttrs) (st : Styles) : Styles :=
  match letterSpacing a with
  | Some (SpObj value unit) =>
      if String.eqb (default "" unit) "PIXELS"
      then setKey "letterSpacing" (VStr (showOptZ value +:+ "px")) st
      else if String.eqb (default "" unit) "PERCENT"
      then setKey "letterSpacing" (VStr (showOptZ value +:+ "%")) st
      else match value with
           | Some v => if v =? 0 then st
                       else setKey "letterSpacing" (VStr (showZ v +:+ "em")) st
           | None => st
           end
  | Some (SpNum n) => if n =? 0 then st else setKey "letterSpacing" (px n) st
  | None => st
  end.

(** The keys the typography block assigns. *)
Definition typographyKeys : list string :=
  ["whiteSpace"; "overflow"; "textOverflow"; "display"; "alignItems"; "justifyContent";
   "fontSize"; "fontWeight"; "fontFamily"; "textAlign"; "lineHeight"; "letterSpacing"].

End Typography.

(** ** The MUI server: the compiler that emits widgets *)
Module MuiServer.
Import JS Model Markup Mui.

(** [componentType === 'Button'] *)
Definition isButton (node : Node) : bool :=
  match detectComponentType node with Some Button => true | _ => false end.

(** The object literal that starts [styles]: a Button gets no background
    either. *)
Definition initialStyles (node : Node) (depth : nat) : Styles :=
  let a := attrs node in
  spread (spread (spread
    [("width", px (width a));
     ("height", px (height a));
     ("position", VStr (if Server.isRoot depth then "relative" else "absolute"));
     ("opacity", VNum (Fin (default (ofZ 1) (opacity a))));
     ("display", VStr (if Server.notHidden node then "block" else "none"))]
    (if (Server.hasSVG node && Server.shouldUseSVG node) || Server.isTextNode node
        || isButton node
     then [] else Server.getBackgroundStyle (fills a)))
    (Server.getBorderStyle (strokes a)))
    (Server.getEffectStyles (effects a)).

Definition nodeStyles (node : Node) (depth : nat) (parentX parentY : Z) : Styles :=
  let a := attrs node in
  let st := initialStyles node depth in
  let st :=
    if Server.isRoot depth then st
    else setKey "top" (px (Server.relativeY node depth parentY))
           (setKey "left" (px (Server.relativeX node depth parentX)) st) in
  let st := Server.setPx (cornerRadius a) "borderRadius" st in
  if Server.isAutoLayout node then Server.autoLayoutStyles a st else st.

Definition styleString (node : Node) (depth : nat) (parentX parentY : Z) : string :=
  Server.styleLines (Server.indentOf depth +:+ "        ")
    (Server.normalizeStyles (nodeStyles node depth parentX parentY)).

(** [node.children.find(c => c.type === 'TEXT')] *)
Definition textChild (node : Node) : option Node :=
  match children node with
  | Some cs => List.find (fun c => String.eqb (type (attrs c)) "TEXT") cs
  | None => None
  end.

(** [node.fills && node.fills.length > 0 && node.fills[0].type === 'SOLID'] *)
Definition solidFill (a : NodeAttrs) : option Paint :=
  match fills a with
  | Some (fill :: _) => if String.eqb (paintType fill) "SOLID" then Some fill else None
  | _ => None
  end.

(** The Button branch. *)
Definition buttonMarkup (node : Node) (depth : nat) (parentX parentY : Z)
    (counter : nat) : string :=
  let a := attrs node in
  let indent := Server.indentOf depth in
  let label :=
    match textChild node with
    | Some c => if truthyStr (textContent (attrs c))
                then default "" (textContent (attrs c)) else "Button"
    | None => "Button"
    end in
  let bgColorProp :=
    match solidFill a with
    | Some fill =>
        "backgroundColor: '" +:+ Server.rgbToColor (color fill) (paintOpacity fill) +:+ "',"
    | None => ""
    end in
  indent +:+ "    <Button" +:+ nl
  +:+ indent +:+ "      variant=" +:+ dq +:+ "contained" +:+ dq +:+ nl
  +:+ indent +:+ "      key=" +:+ dq +:+ Server.nodeId counter +:+ dq +:+ nl
  +:+ indent +:+ "      sx={{" +:+ nl
  +:+ indent +:+ "        position: 'absolute'," +:+ nl
  +:+ indent +:+ "        left: '" +:+ showZ (Server.relativeX node depth parentX) +:+ "px'," +:+ nl
  +:+ indent +:+ "        top: '" +:+ showZ (Server.relativeY node depth parentY) +:+ "px'," +:+ nl
  +:+ indent +:+ "        width: '" +:+ showZ (width a) +:+ "px'," +:+ nl
  +:+ indent +:+ "        height: '" +:+ showZ (height a) +:+ "px'," +:+ nl
  +:+ indent +:+ "        " +:+ bgColorProp +:+ nl
  +:+ indent +:+ "        borderRadius: '" +:+ showZ (orZ (cornerRadius a) 4) +:+ "px'," +:+ nl
  +:+ indent +:+ "        textTransform: 'none'," +:+ nl
  +:+ indent +:+ "        zIndex: 10" +:+ nl
  +:+ indent +:+ "      }}" +:+ nl
  +:+ indent +:+ "    >" +:+ nl
  +:+ indent +:+ "      " +:+ label +:+ nl
  +:+ indent +:+ "    </Button>".

(** The TextField branch. *)
Definition textFieldMarkup (node : Node) (depth : nat) (parentX parentY : Z)
    (counter : nat) : string :=
  let a := attrs node in
  let indent := Server.indentOf depth in
  let labelled :=
    match textChild node with
    | Some c => if truthyStr (textContent (attrs c)) then Some c else None
    | None => None
    end in
  let placeholder :=
    match labelled with
    | Some c => default "" (textContent (attrs c))
    | None => name a
    end in
  let fontFamily :=
    match labelled with
    | Some c => if truthyStr (fontFamily (attrs c))
                then default "" (fontFamily (attrs c)) else ""
    | None => ""
    end in
  let bgColor :=
    match solidFill a with
    | Some fill => Server.rgbToColor (color fill) (paintOpacity fill)
    | None => "white"
    end in
  let borderRadius :=
    if truthyZ (cornerRadius a) then showZ (default 0 (cornerRadius a)) +:+ "px"
    else "4px" in
  let hasStroke :=
    match strokes a with Some (_ :: _) => true | _ => false end in
  let fontStyle :=
    if negb (String.eqb fontFamily "")
    then nl +:+ indent +:+ "          fontFamily: '" +:+ replaceChar "'" "" fontFamily +:+ "',"
    else "" in
  indent +:+ "    <TextField" +:+ nl
  +:+ indent +:+ "      variant=" +:+ dq +:+ "outlined" +:+ dq +:+ nl
  +:+ indent +:+ "      key=" +:+ dq +:+ Server.nodeId counter +:+ dq +:+ nl
  +:+ indent +:+ "      placeholder=" +:+ dq +:+ replaceChar "034" "&quot;" placeholder +:+ dq +:+ nl
  +:+ indent +:+ "      sx={{" +:+ nl
  +:+ indent +:+ "        position: 'absolute'," +:+ nl
  +:+ indent +:+ "        left: '" +:+ showZ (Server.relativeX node depth parentX) +:+ "px'," +:+ nl
  +:+ indent +:+ "        top: '" +:+ showZ (Server.relativeY node depth parentY) +:+ "px'," +:+ nl
  +:+ indent +:+ "        width: '" +:+ showZ (width a) +:+ "px'," +:+ nl
  +:+ indent +:+ "        height: '" +:+ showZ (height a) +:+ "px'," +:+ nl
  +:+ indent +:+ "        backgroundColor: '" +:+ bgColor +:+ "'," +:+ nl
  +:+ indent +:+ "        borderRadius: '" +:+ borderRadius +:+ "'," +:+ nl
  +:+ indent +:+ "        zIndex: 10," +:+ nl
  +:+ indent +:+ "        '& .MuiOutlinedInput-root': {" +:+ nl
  +:+ indent +:+ "          height: '100%'," +:+ nl
  +:+ indent +:+ "          borderRadius: '" +:+ borderRadius +:+ "'," +:+ nl
  +:+ indent +:+ nl
  +:+ indent +:+ "          "
  +:+ (if negb hasStroke then "'& fieldset': { border: 'none' }," else "") +:+ nl
  +:+ indent +:+ "        }," +:+ nl
  +:+ indent +:+ "        '& .MuiInputBase-input': {" +:+ fontStyle +:+ nl
  +:+ indent +:+ "        }" +:+ nl
  +:+ indent +:+ "      }}" +:+ nl
  +:+ indent +:+ "    />".

(** The Checkbox branch. *)
Definition checkboxMarkup (node : Node) (depth : nat) (parentX parentY : Z)
    (counter : nat) : string :=
  let indent := Server.indentOf depth in
  indent +:+ "    <Checkbox" +:+ nl
  +:+ indent +:+ "      defaultChecked" +:+ nl
  +:+ indent +:+ "      key=" +:+ dq +:+ Server.nodeId counter +:+ dq +:+ nl
  +:+ indent +:+ "      sx={{" +:+ nl
  +:+ indent +:+ "        position: 'absolute'," +:+ nl
  +:+ indent +:+ "        left: '" +:+ showZ (Server.relativeX node depth parentX) +:+ "px'," +:+ nl
  +:+ indent +:+ "        top: '" +:+ showZ (Server.relativeY node depth parentY) +:+ "px'," +:+ nl
  +:+ indent +:+ "        zIndex: 10" +:+ nl
  +:+ indent +:+ "      }}" +:+ nl
  +:+ indent +:+ "    />".

(** The markup of a standard element around the markup of its children. *)
Definition assemble (node : Node) (depth : nat) (parentX parentY : Z)
    (counter : nat) (childrenContent : string) : string :=
  let indent := Server.indentOf depth in
  let content := Server.nodeContent node depth in
  let Tag := if Server.isTextNode node then "span" else "div" in
  let isSelfClosing := negb (Server.nodeHasChildren node) && String.eqb content "" in
  let styleStr := styleString node depth parentX parentY in
  let openingTag :=
    indent +:+ "    <" +:+ Tag +:+ nl +:+ indent +:+ "      key=" +:+ dq
    +:+ Server.nodeId counter +:+ dq
    +:+ (if negb (String.eqb styleStr "")
         then nl +:+ indent +:+ "      style={{" +:+ nl +:+ styleStr +:+ nl
              +:+ indent +:+ "      }}"
         else "") in
  if isSelfClosing then openingTag +:+ nl +:+ "    />"
  else openingTag +:+ nl +:+ "    >" +:+ nl +:+ content +:+ childrenContent
       +:+ indent +:+ "    </" +:+ Tag +:+ ">".

(** [generateNodeComponent(node, depth, parentX, parentY)] of the MUI
    server, the counter threaded as in the plain server.  A widget returns
    before its children are visited. *)
Fixpoint generateNodeComponent (node : Node) (depth : nat) (parentX parentY : Z)
    (nodeCounter : nat) : string * nat :=
  match detectComponentType node with
  | Some Button => (buttonMarkup node depth parentX parentY nodeCounter, S nodeCounter)
  | Some TextField => (textFieldMarkup node depth parentX parentY nodeCounter, S nodeCounter)
  | Some Checkbox => (checkboxMarkup node depth parentX parentY nodeCounter, S nodeCounter)
  | _ =>
      let cx := Server.childrenX node depth parentX in
      let cy := Server.childrenY node depth parentY in
      let '(parts, final) :=
        match children node with
        | Some cs =>
            Server.mapCounter
              (fun child c => generateNodeComponent child (S depth) cx cy c)
              cs (S nodeCounter)
        | None => ([], S nodeCounter)
        end in
      (assemble node depth parentX parentY nodeCounter (join nl parts), final)
  end.

Definition generateRoot (comp : Node) (nodeCounter : nat) : string * nat :=
  let rootX := default 0 (x (attrs comp)) in
  let rootY := default 0 (y (attrs comp)) in
  let childrenOffsetX := if rootX <? 0 then Z.abs rootX else 0 in
  let childrenOffsetY := if rootY <? 0 then Z.abs rootY else 0 in
  generateNodeComponent comp 0 childrenOffsetX childrenOffsetY nodeCounter.

Definition componentTemplate (componentName mainComponent : string) : string :=
  "import React from 'react';" +:+ nl
  +:+ "import { Button, TextField, Checkbox } from '@mui/material';" +:+ nl
  +:+ "import './" +:+ componentName +:+ ".css';" +:+ nl
  +:+ nl
  +:+ "const " +:+ componentName +:+ " = () => {" +:+ nl
  +:+ "  return (" +:+ nl
  +:+ "    <div className=" +:+ dq +:+ toLowerCase componentName +:+ "-container" +:+ dq
  +:+ ">" +:+ nl
  +:+ mainComponent +:+ nl
  +:+ "    </div>" +:+ nl
  +:+ "  );" +:+ nl
  +:+ "};" +:+ nl
  +:+ nl
  +:+ "export default " +:+ componentName +:+ ";" +:+ nl.

(** [generateComponentCode(data, componentName)] of the MUI server. *)
Definition generateComponentCode (data : Server.Payload) (componentName : string)
  : string :=
  let nodeCounter := 0%nat in
  let '(parts, _) := Server.mapCounter generateRoot (Server.components data) nodeCounter in
  componentTemplate componentName (join nl parts).

End MuiServer.

(** ** The Figma plugin: helpers on exported bytes *)
Module PluginBytes.
Import JS.

Definition BASE64_PREFIX_SVG : string := "data:image/svg+xml;base64,".
Definition BASE64_PREFIX_PNG : string := "data:image/png;base64,".

(** The alphabet of the fallback encoder. *)
Definition chars : string :=
  "ABCDEFGHIJKLMNOPQRSTUVWXYZabcdefghijklmnopqrstuvwxyz0123456789+/=".

(** [s.charAt(i)] *)
Definition charAt (s : string) (i : N) : string :=
  match String.get (N.to_nat i) s with
  | Some c => String c ""
  | None => ""
  end.

(** [i < binary.length ? binary.charCodeAt(i) : 0] *)
Definition codeOr0 (b : option ascii) : N :=
  match b with Some c => N_of_ascii c | None => 0%N end.

(** One round of the fallback loop, on the bytes at [i], [i + 1] and
    [i + 2]; the last two may lie past the end. *)
Definition encodeBlock (b0 : ascii) (b1 b2 : option ascii) : string :=
  let block :=
    N.lor (N.lor (N.shiftl (N_of_ascii b0) 16) (N.shiftl (codeOr0 b1) 8)) (codeOr0 b2) in
  charAt chars (N.land (N.shiftr block 18) 63)
  +:+ charAt chars (N.land (N.shiftr block 12) 63)
  +:+ (match b1 with
       | Some _ => charAt chars (N.land (N.shiftr block 6) 63)
       | None => "="
       end)
  +:+ (match b2 with
       | Some _ => charAt chars (N.land block 63)
       | None => "="
       end).

(** The loop [for (let i = 0; i < binary.length; i += 3)]. *)
Fixpoint base64Fallback (binary : string) : string :=
  match binary with
  | EmptyString => ""
  | String b0 EmptyString => encodeBlock b0 None None
  | String b0 (String b1 EmptyString) => encodeBlock b0 (Some b1) None
  | String b0 (String b1 (String b2 rest)) =>
      encodeBlock b0 (Some b1) (Some b2) +:+ base64Fallback rest
  end.

(** [arrayBufferToBase64(buffer)]: [btoa] is the host's encoder when it has
    one; the binary string has one character per byte. *)
Definition arrayBufferToBase64 (btoa : option (string -> string)) (buffer : string)
  : string :=
  let binary := buffer in
  match btoa with
  | Some encode => encode binary
  | None => base64Fallback binary
  end.

(** [bytesToString(bytes)]: the UTF-16 code units of the result.  A byte
    read past the end is [undefined], which the masks turn into 0. *)
Fixpoint bytesToString (bytes : string) : list N :=
  match bytes with
  | EmptyString => []
  | String c0 rest =>
      let c := N_of_ascii c0 in
      let k := N.shiftr c 4 in
      if (k <=? 7)%N then c :: bytesToString rest
      else if ((k =? 12) || (k =? 13))%N then
        match rest with
        | String b1 rest' =>
            N.lor (N.shiftl (N.land c 31) 6) (N.land (N_of_ascii b1) 63)
            :: bytesToString rest'
        | EmptyString => [N.lor (N.shiftl (N.land c 31) 6) 0]
        end
      else if (k =? 14)%N then
        match rest with
        | String b1 (String b2 rest') =>
            N.lor (N.lor (N.shiftl (N.land c 15) 12)
                         (N.shiftl (N.land (N_of_ascii b1) 63) 6))
              (N.shiftl (N.land (N_of_ascii b2) 63) 0)
            :: bytesToString rest'
        | String b1 EmptyString =>
            [N.lor (N.lor (N.shiftl (N.land c 15) 12)
                          (N.shiftl (N.land (N_of_ascii b1) 63) 6))
               (N.shiftl 0 0)]
        | EmptyString =>
            [N.lor (N.lor (N.shiftl (N.land c 15) 12) (N.shiftl 0 6)) (N.shiftl 0 0)]
        end
      else bytesToString rest
  end.

End PluginBytes.

(** ** The Figma plugin: extraction of the scene tree *)
Module Extraction.
Import JS Model PluginBytes.

(** A property that may hold [figma.mixed]. *)
Inductive Mixed (A : Type) :=
| mixed
| single (a : A).
Arguments mixed {A}.
Arguments single {A} a.

Record GradientStop := mkGradientStop { position : Dec; stopColor : RGB }.

(** A paint of the document, as far as the plugin reads it; a field that
    the paint does not have is [None]. *)
Record FigmaPaint := mkFigmaPaint {
  fpType : string;
  fpColor : option RGB;
  fpOpacity : option Dec;
  fpGradientStops : option (list GradientStop)
}.

Record Rect := mkRect { rx : Z; ry : Z; rwidth : Z; rheight : Z }.

(** [node.lineHeight] and [node.letterSpacing]: an object with optional
    [value] and [unit], a bare number, or something else. *)
Inductive FigmaSpacing :=
| FSObject (value : option Z) (unit : option string)
| FSNumber (n : Z)
| FSOther.

(** The properties of a scene node the plugin reads; a property the node
    does not have is [None]. *)
Record SceneAttrs := mkSceneAttrs {
  sName : string;
  sType : string;
  sVisible : bool;
  sX : option Z;
  sY : option Z;
  sWidth : option Z;
  sHeight : option Z;
  sAbsoluteBoundingBox : option Rect;
  sFills : option (Mixed (list FigmaPaint));
  sStrokes : option (list FigmaPaint);
  sStrokeWeight : option (Mixed Z);
  sEffects : option (list Effect);
  sOpacity : option Dec;
  sLayoutMode : option string;
  sPrimaryAxisAlignItems : option string;
  sCounterAxisAlignItems : option string;
  sPaddingLeft : option Z;
  sPaddingRight : option Z;
  sPaddingTop : option Z;
  sPaddingBottom : option Z;
  sItemSpacing : option Z;
  sCornerRadius : option (Mixed Z);
  sRotation : option Z;
  sCharacters : string;
  sFontSize : Mixed Z;
  sFontName : option Plugin.FontName;
  sLineHeight : Mixed FigmaSpacing;
  sLetterSpacing : Mixed FigmaSpacing;
  sTextAlignHorizontal : option (Mixed string);
  sExportSVG : option string;
  sExportPNG : option string
}.

(** A scene node with its children, when it has a [children] array. *)
#[local] Unset Elimination Schemes.
Inductive SceneNode := mkSceneNode {
  sattrs : SceneAttrs;
  schildren : option (list SceneNode)
}.
#[local] Set Elimination Schemes.

Section SceneInd.
Variable P : SceneNode -> Prop.
Hypothesis Hleaf : forall a, P (mkSceneNode a None).
Hypothesis Hnode : forall a cs, Forall P cs -> P (mkSceneNode a (Some cs)).

Fixpoint SceneNode_ind' (n : SceneNode) : P n :=
  match n with
  | mkSceneNode a None => Hleaf a
  | mkSceneNode a (Some cs) =>
      Hnode a cs
        ((fix go (l : list SceneNode) : Forall P l :=
            match l with
            | [] => List.Forall_nil P
            | c :: l' => @List.Forall_cons _ P c l' (SceneNode_ind' c) (go l')
            end) cs)
  end.
End SceneInd.

(** *** The payload types *)

Record FillData := mkFillData {
  fdType : string;
  fdColor : option RGB;
  fdOpacity : option Dec;
  fdGradientStops : option (list GradientStop)
}.

Record StrokeData := mkStrokeData {
  sdType : string;
  sdWeight : Z;
  sdColor : option RGB;
  sdOpacity : option Dec
}.

Record SpacingData := mkSpacingData { spValue : Z; spUnit : string }.

Record FontNameData := mkFontNameData { fnFamily : string; fnStyle : string }.

Record ExtractedAttrs := mkExtractedAttrs {
  eName : string;
  eType : string;
  eWidth : Z;
  eHeight : Z;
  eX : Z;
  eY : Z;
  eAbsoluteBoundingBox : option Rect;
  eFills : list FillData;
  eStrokes : list StrokeData;
  eEffects : list Effect;
  eOpacity : Dec;
  eVisible : bool;
  eSvg : option (list N);
  eSvgBase64 : option string;
  eImage : option string;
  eTextContent : option string;
  eFontSize : option Z;
  eFontFamily : option string;
  eFontName : option FontNameData;
  eFontWeight : option Number;
  eLetterSpacing : option SpacingData;
  eLineHeight : option SpacingData;
  eTextAlign : option string;
  eCornerRadius : option Z;
  eLayoutMode : option string;
  ePrimaryAxisAlignItems : option string;
  eCounterAxisAlignItems : option string;
  ePaddingLeft : option Z;
  ePaddingRight : option Z;
  ePaddingTop : option Z;
  ePaddingBottom : option Z;
  eGap : option Z;
  eRotation : option Z
}.

#[local] Unset Elimination Schemes.
Inductive ExtractedData := mkExtracted {
  eattrs : ExtractedAttrs;
  echildren : option (list ExtractedData)
}.
#[local] Set Elimination Schemes.

(** *** The extractors *)

(** [extractFills(node)] *)
Definition extractFills (a : SceneAttrs) : list FillData :=
  match sFills a with
  | Some (single fills) =>
      List.map
        (fun fill =>
           let solid :=
             String.eqb (fpType fill) "SOLID" && bool_decide (is_Some (fpColor fill)) in
           mkFillData (fpType fill)
             (if solid then fpColor fill else None)
             (if solid then Some (default (ofZ 1) (fpOpacity fill)) else None)
             (if String.eqb (fpType fill) "GRADIENT_LINEAR"
              then fpGradientStops fill else None))
        fills
  | _ => []
  end.

(** [extractStrokes(node)] *)
Definition extractStrokes (a : SceneAttrs) : list StrokeData :=
  match sStrokes a with
  | Some strokes =>
      List.map
        (fun stroke =>
           let strokeWeight :=
             match sStrokeWeight a with Some (single w) => w | _ => 1 end in
           let solid :=
             String.eqb (fpType stroke) "SOLID" && bool_decide (is_Some (fpColor stroke)) in
           mkStrokeData (fpType stroke) strokeWeight
             (if solid then fpColor stroke else None)
             (if solid then Some (default (ofZ 1) (fpOpacity stroke)) else None))
        strokes
  | None => []
  end.

(** [extractEffects(node)] *)
Definition extractEffects (a : SceneAttrs) : list Effect :=
  match sEffects a with
  | Some effects =>
      List.map
        (fun effect =>
           if String.eqb (effectType effect) "DROP_SHADOW"
              && bool_decide (is_Some (effectColor effect))
           then mkEffect (effectType effect) (effectVisible effect)
                  (effectColor effect) (offset effect) (radius effect)
           else mkEffect (effectType effect) (effectVisible effect) None None None)
        effects
  | None => []
  end.

(** The part of the payload [extractTextProperties(node)] returns. *)
Record TextData := mkTextData {
  tTextContent : string;
  tFontSize : option Z;
  tFontFamily : option string;
  tFontName : option FontNameData;
  tFontWeight : option Number;
  tLetterSpacing : option SpacingData;
  tLineHeight : option SpacingData;
  tTextAlign : option string
}.

(** [extractTextProperties(node)] *)
Definition extractTextProperties (a : SceneAttrs) : TextData :=
  let fontWeight := Plugin.extractTextProperties_fontWeight (sFontName a) in
  let lineHeight :=
    match sLineHeight a with
    | mixed => None
    | single (FSObject value unit) =>
        if match unit with Some u => String.eqb u "AUTO" | None => false end
        then Some (mkSpacingData 0 "AUTO")
        else match value with
             | Some v => Some (mkSpacingData v (default "PIXELS" unit))
             | None => None
             end
    | single (FSNumber n) => Some (mkSpacingData n "PIXELS")
    | single FSOther => None
    end in
  let textAlign :=
    match sTextAlignHorizontal a with
    | Some (single t) => if String.eqb t "" then None else Some t
    | _ => None
    end in
  let fontName :=
    match sFontName a with
    | Some fn =>
        Some (mkFontNameData (Plugin.family fn) (default "Regular" (Plugin.style fn)))
    | None => None
    end in
  mkTextData
    (sCharacters a)
    (match sFontSize a with single s => Some s | mixed => None end)
    (Plugin.family <$> sFontName a)
    fontName
    fontWeight
    (match sLetterSpacing a with
     | mixed => None
     | single ls =>
         Some (mkSpacingData
                 (match ls with
                  | FSObject (Some v) _ => v
                  | FSNumber n => n
                  | _ => 0
                  end)
                 (match ls with
                  | FSObject _ (Some u) => u
                  | _ => "PIXELS"
                  end))
     end)
    lineHeight
    textAlign.

(** The part of the payload [extractLayoutProperties(node)] returns. *)
Record LayoutData := mkLayoutData {
  lLayoutMode : option string;
  lPrimaryAxisAlignItems : option string;
  lCounterAxisAlignItems : option string;
  lPaddingLeft : option Z;
  lPaddingRight : option Z;
  lPaddingTop : option Z;
  lPaddingBottom : option Z;
  lGap : option Z;
  lCornerRadius : option Z;
  lRotation : option Z
}.

(** [extractLayoutProperties(node)] *)
Definition extractLayoutProperties (a : SceneAttrs) : LayoutData :=
  let hasPadding := bool_decide (is_Some (sPaddingLeft a)) in
  mkLayoutData
    (sLayoutMode a)
    (sPrimaryAxisAlignItems a)
    (sCounterAxisAlignItems a)
    (sPaddingLeft a)
    (if hasPadding then sPaddingRight a else None)
    (if hasPadding then sPaddingTop a else None)
    (if hasPadding then sPaddingBottom a else None)
    (sItemSpacing a)
    (match sCornerRadius a with Some (single n) => Some n | _ => None end)
    (sRotation a).

(** [hasTextDescendant(node)] *)
Fixpoint hasTextDescendant (node : SceneNode) : bool :=
  if String.eqb (sType (sattrs node)) "TEXT" then true
  else match schildren node with
       | Some cs => existsb hasTextDescendant cs
       | None => false
       end.

Definition vectorTypes : list string :=
  ["VECTOR"; "ELLIPSE"; "RECTANGLE"; "POLYGON"; "STAR"; "LINE"; "BOOLEAN_OPERATION"].

(** [vectorTypes.includes(node.type)] *)
Definition isVectorType (type : string) : bool :=
  existsb (String.eqb type) vectorTypes.

Definition isContainerType (type : string) : bool :=
  String.eqb type "FRAME" || String.eqb type "COMPONENT"
  || String.eqb type "INSTANCE" || String.eqb type "GROUP".

(** The decision [shouldExportSVG] of [extractNodeData]. *)
Definition shouldExportSVG (node : SceneNode) : bool :=
  let type := sType (sattrs node) in
  if isVectorType type then true
  else if isContainerType type then negb (hasTextDescendant node)
  else false.

(** The [svg], [svgBase64] and [image] entries of a node: the vector export
    and its raster fallbacks. *)
Definition exportsOf (btoa : option (string -> string)) (node : SceneNode)
  : option (list N) * option string * option string :=
  let a := sattrs node in
  let png :=
    (fun pngBytes => BASE64_PREFIX_PNG +:+ arrayBufferToBase64 btoa pngBytes)
      <$> sExportPNG a in
  let '(svg, svgBase64, image) :=
    if shouldExportSVG node then
      match sExportSVG a with
      | Some svgBytes =>
          (Some (bytesToString svgBytes),
           Some (BASE64_PREFIX_SVG +:+ arrayBufferToBase64 btoa svgBytes),
           None)
      | None => (None, None, if isVectorType (sType a) then png else None)
      end
    else (None, None, None) in
  let image :=
    if (String.eqb (sType a) "RECTANGLE" || String.eqb (sType a) "ELLIPSE")
       && match svg with Some (_ :: _) => false | _ => true end
    then match png with Some p => Some p | None => image end
    else image in
  (svg, svgBase64, image).

(** [extractNodeData(node, parentX, parentY)]; [btoa] is the host's base64
    encoder, if it has one. *)
Fixpoint extractNodeData (btoa : option (string -> string)) (node : SceneNode)
    (parentX parentY : Z) : ExtractedData :=
  let a := sattrs node in
  let nodeX := default 0 (sX a) in
  let nodeY := default 0 (sY a) in
  let layout := extractLayoutProperties a in
  let text :=
    if String.eqb (sType a) "TEXT" then Some (extractTextProperties a) else None in
  let '(svg, svgBase64, image) := exportsOf btoa node in
  mkExtracted
    (mkExtractedAttrs
       (sName a) (sType a) (default 0 (sWidth a)) (default 0 (sHeight a)) nodeX nodeY
       (sAbsoluteBoundingBox a)
       (extractFills a) (extractStrokes a) (extractEffects a)
       (default (ofZ 1) (sOpacity a)) (sVisible a)
       svg svgBase64 image
       (tTextContent <$> text)
       (text ≫= tFontSize) (text ≫= tFontFamily) (text ≫= tFontName)
       (text ≫= tFontWeight) (text ≫= tLetterSpacing) (text ≫= tLineHeight)
       (text ≫= tTextAlign)
       (lCornerRadius layout) (lLayoutMode layout)
       (lPrimaryAxisAlignItems layout) (lCounterAxisAlignItems layout)
       (lPaddingLeft layout) (lPaddingRight layout) (lPaddingTop layout)
       (lPaddingBottom layout) (lGap layout) (lRotation layout))
    (if shouldExportSVG node then None
     else match schildren node with
          | Some cs => Some (List.map (fun child => extractNodeData btoa child nodeX nodeY) cs)
          | None => None
          end).

(** The handler of [extract-data]: an empty selection is refused. *)
Definition extractSelection (btoa : option (string -> string))
    (selection : list SceneNode) : Host.Result (list ExtractedData) :=
  match selection with
  | [] => Host.Throw "Please select a component"
  | _ => Host.Ok (List.map (fun node => extractNodeData btoa node 0 0) selection)
  end.

End Extraction.


(** ** The rules as the specification words them *)
Module SpecRules.
Import JS Model.

(** First match wins. *)
Definition firstMatch {A B : Type} (rules : list ((A -> bool) * B)) (a : A) : option B :=
  match List.find (fun rule => fst rule a) rules with
  | Some rule => Some (snd rule)
  | None => None
  end.

Definition nameHas (words : list string) (node : Node) : bool :=
  existsb (includes (toLowerCase (name (attrs node)))) words.

Definition typeIn (kinds : list string) (node : Node) : bool :=
  existsb (String.eqb (type (attrs node))) kinds.

(** The classifier of the specification: four ordered rules. *)
Definition classify : Node -> option Mui.ComponentType :=
  firstMatch
    [ (fun n => nameHas ["button"; "btn"] n
                && typeIn ["FRAME"; "INSTANCE"; "GROUP"; "COMPONENT"] n, Mui.Button);
      (nameHas ["input"; "field"; "search"], Mui.TextField);
      (nameHas ["checkbox"; "tick"], Mui.Checkbox);
      (typeIn ["TEXT"], Mui.Typography) ].

(** Escaping of literal text, character by character: backslash, quote,
    newline, carriage return and tab are escaped, nothing else. *)
Definition escapeChar (c : ascii) : string :=
  if Ascii.eqb c "092" then String "092" (String "092" "")
  else if Ascii.eqb c "'" then String "092" (String "'" "")
  else if Ascii.eqb c "010" then String "092" (String "n" "")
  else if Ascii.eqb c "013" then String "092" (String "r" "")
  else if Ascii.eqb c "009" then String "092" (String "t" "")
  else String c "".

Fixpoint escape (text : string) : string :=
  match text with
  | EmptyString => EmptyString
  | String c rest => escapeChar c +:+ escape rest
  end.

(** The weight vocabulary, in the order it is consulted. *)
Definition weightVocabulary : list ((string -> bool) * Z) :=
  List.map (fun rule => (fun lowered => existsb (includes lowered) (fst rule), snd rule))
    [ (["thin"; "100"], 100);
      (["extralight"; "ultralight"; "200"], 200);
      (["light"; "300"], 300);
      (["regular"; "normal"; "400"], 400);
      (["medium"; "500"], 500);
      (["semibold"; "demi"; "600"], 600);
      (["bold"; "700"], 700);
      (["extrabold"; "ultrabold"; "800"], 800);
      (["black"; "heavy"; "900"], 900) ].

(** A numeric prefix wins; then the vocabulary; then 400. *)
Definition weightOf (style : string) : Number :=
  if String.eqb style "" then Fin (ofZ 400) else
  match parseFloat style with
  | NaN => Fin (ofZ (default 400 (firstMatch weightVocabulary (toLowerCase style))))
  | numeric => numeric
  end.

End SpecRules.

(** ** Concrete inputs *)
Module Inputs.
Import JS Model Host.

(** A visible node with the given identity and box, everything else absent. *)
Definition box (name type : string) (x y : option Z) (width height : Z) : NodeAttrs :=
  mkAttrs name type x y width height None None None None None None
    (Some true) None None None None None None None None None None None None None None
    None None None.

(** A text node. *)
Definition text (name : string) (x y : Z) (content : string)
    (family : option string) (weight : option FontWeight) : NodeAttrs :=
  mkAttrs name "TEXT" (Some x) (Some y) 40 20 None None None None None None
    (Some true) None None None None None None (Some content) (Some 14) family weight
    None None None None None None None.

(** A frame with a visibility flag, vector markup and effects. *)
Definition frame (name : string) (x y : Z) (visible : bool) (svg : option string)
    (effects : option (list Effect)) : NodeAttrs :=
  mkAttrs name "FRAME" (Some x) (Some y) 300 120 None None None None effects None
    (Some visible) None None None None None None None None None None None None None None
    svg None None.

Definition searchButton : Node :=
  mkNode (box "search button" "FRAME" (Some 0) (Some 0) 120 40) None.

Definition label : Node :=
  mkNode (text "Label" 10 10 "Hi!" (Some "'Roboto Slab', serif") (Some (FWNum 700))) None.

(** The card of the specification: a root at (-50, -10), a label at (10, 10). *)
Definition card : Node :=
  mkNode (frame "Card" (-50) (-10) true None None) (Some [label]).

(** A root at the origin whose child has a negative coordinate. *)
Definition cardWithOutlier : Node :=
  mkNode (frame "Card" 0 0 true None None)
    (Some [mkNode (text "Label" (-5) 7 "Hi!" None None) None]).



(** A frame that carries vector markup and still has a child. *)
Definition iconWithChild : Node :=
  mkNode (frame "Icon" 5 5 true (Some "<svg><path/></svg>") None)
    (Some [mkNode (text "Caption" 1 2 "Inner label" None None) None]).

Definition colourless (dx dy blur : Z) : Effect :=
  mkEffect "DROP_SHADOW" true None (Some (mkVector dx dy)) (Some blur).

Definition red : RGB := mkRGB (ofZ 1) (ofZ 0) (ofZ 0).

(** A frame with two visible drop shadows, the first without a colour. *)
Definition shadowed : Node :=
  mkNode (frame "Panel" 0 0 true None
            (Some [colourless 0 4 8;
                   mkEffect "DROP_SHADOW" true (Some red) (Some (mkVector 1 1)) (Some 2)]))
    None.

(** A machine without the project, on which the scaffolding commands work
    and the font service knows no family. *)
Definition freshWorld : World := mkWorld ∅ ∅ true ∅ (fun _ => None).

End Inputs.

(** ** Views of trees *)
Module Views.
Import Model Extraction.

(** The nodes of a payload tree in document order (parents first). *)
Fixpoint nodesOf (node : Node) : list Node :=
  node :: match children node with
          | Some cs => flat_map nodesOf cs
          | None => []
          end.

(** The nodes of a scene in document order. *)
Fixpoint sceneNodes (node : SceneNode) : list SceneNode :=
  node :: match schildren node with
          | Some cs => flat_map sceneNodes cs
          | None => []
          end.

(** The nodes of an extracted payload in document order. *)
Fixpoint payloadNodes (e : ExtractedData) : list ExtractedData :=
  e :: match echildren e with
       | Some cs => flat_map payloadNodes cs
       | None => []
       end.

(** The texts of an extracted payload in document order. *)
Fixpoint payloadTexts (e : ExtractedData) : list string :=
  match eTextContent (eattrs e) with Some t => [t] | None => [] end
  ++ match echildren e with
     | Some cs => flat_map payloadTexts cs
     | None => []
     end.

(** The texts of a scene in document order, those below a node of a
    vector type left out. *)
Fixpoint keptTexts (node : SceneNode) : list string :=
  (if String.eqb (sType (sattrs node)) "TEXT" then [sCharacters (sattrs node)] else [])
  ++ (if isVectorType (sType (sattrs node)) then []
      else match schildren node with
           | Some cs => flat_map keptTexts cs
           | None => []
           end).

End Views.

(** ** Conditions used in the statements *)
Module Criteria.
Import JS Model Markup.

(** The node sets a font family that [traverse] adds to the set. *)
Definition contributes (node : Node) (font : string) : Prop :=
  exists family,
    fontFamily (attrs node) = Some family /\ family <> "" /\
    Legacy.cleanFontFamily family = font /\ font <> "" /\
    Legacy.isSystemFont font = false.

(** Every visible drop shadow of the node carries its offset. *)
Definition shadowsComplete (a : NodeAttrs) : bool :=
  forallb
    (fun e => negb (Legacy.isVisibleDropShadow e) || bool_decide (is_Some (offset e)))
    (default [] (effects a)).

(** No hyphen of the string is followed by a lower-case letter. *)
Fixpoint kebabFree (s : string) : bool :=
  match s with
  | EmptyString => true
  | String a t =>
      match t with
      | String c _ => negb (Ascii.eqb a "-" && Server.isLowerAlpha c) && kebabFree t
      | EmptyString => true
      end
  end.

(** An entry the normalisation loop of the plain server copies as it is. *)
Definition settled (kv : string * StyleVal) : bool :=
  Server.keepValue (snd kv) && kebabFree (fst kv).

(** The node is compiled to an MUI widget. *)
Definition isWidget (node : Node) : bool :=
  match Mui.detectComponentType node with
  | Some Mui.Button | Some Mui.TextField | Some Mui.Checkbox => true
  | _ => false
  end.

(** A character that a quote-escaped value may hold without changing what
    the literal denotes. *)
Definition plainChar (c : ascii) : Prop :=
  c <> "092"%char /\ c <> "010"%char /\ c <> "013"%char.

End Criteria.

(** ** Literals of the host language, continued *)
Module Literals.
Import JS Markup.

(** The escaping of [node.svg] in server/index.js, on one character. *)
Definition svgEscapeChar (a : ascii) : string :=
  if Ascii.eqb a "092" then bslash +:+ bslash
  else if Ascii.eqb a "'" then bslash +:+ "'"
  else if Ascii.eqb a "034" then bslash +:+ dq
  else if Ascii.eqb a "010" then bslash +:+ "n"
  else if Ascii.eqb a "013" then bslash +:+ "r"
  else String a "".

(** The value denoted by the body of a template literal without
    substitutions: a backslash introduces an escape, a bare backtick ends
    the literal and a dollar sign before a brace starts a substitution.  The
    escapes of a backslash, a backtick and a dollar sign are read; a body
    with another escape, a bare backtick, a substitution or a carriage
    return (which the language normalises) is not read ([None]). *)
Fixpoint readTemplate (body : string) : option string :=
  match body with
  | EmptyString => Some EmptyString
  | String c t =>
      if Ascii.eqb c "092" then
        match t with
        | String e t' =>
            if Ascii.eqb e "092" || Ascii.eqb e "096" || Ascii.eqb e "$" then
              match readTemplate t' with
              | Some rest => Some (String e rest)
              | None => None
              end
            else None
        | EmptyString => None
        end
      else if Ascii.eqb c "096" || Ascii.eqb c "013" then None
      else if Ascii.eqb c "$" && String.prefix "{" t then None
      else match readTemplate t with
           | Some rest => Some (String c rest)
           | None => None
           end
  end.

(** The three escapes of the plain server's inline vector markup, on one
    character and on a string. *)
Definition templateEscapeChar (a : ascii) : string :=
  if Ascii.eqb a "092" then bslash +:+ bslash
  else if Ascii.eqb a "096" then bslash +:+ backtick
  else if Ascii.eqb a "$" then bslash +:+ "$"
  else String a "".

Fixpoint templateEscape (s : string) : string :=
  match s with
  | EmptyString => EmptyString
  | String a s' => templateEscapeChar a +:+ templateEscape s'
  end.

(** [dropWhileEnd], computed from the front. *)
Fixpoint stripEnd (p : ascii -> bool) (s : string) : string :=
  match s with
  | EmptyString => EmptyString
  | String a s' =>
      match stripEnd p s' with
      | EmptyString => if p a then EmptyString else String a EmptyString
      | r => String a r
      end
  end.

End Literals.

(** ** UTF-8 *)
Module Utf8.
Local Open Scope N_scope.

(** The UTF-8 encoding of a code point (RFC 3629). *)
Definition utf8 (cp : N) : list N :=
  if cp <? 128 then [cp]
  else if cp <? 2048 then [192 + cp / 64; 128 + cp mod 64]
  else if cp <? 65536 then [224 + cp / 4096; 128 + (cp / 64) mod 64; 128 + cp mod 64]
  else [240 + cp / 262144; 128 + (cp / 4096) mod 64; 128 + (cp / 64) mod 64;
        128 + cp mod 64].

(** A byte array from the values of its bytes. *)
Definition bytesOf (l : list N) : string :=
  string_of_list_ascii (List.map ascii_of_N l).

Definition utf8Encode (cps : list N) : string := bytesOf (flat_map utf8 cps).

(** A Unicode scalar value: a code point up to U+10FFFF that is not a
    surrogate.  The texts are the sequences of scalar values. *)
Definition scalar (cp : N) : bool :=
  (cp <? 55296) || ((57343 <? cp) && (cp <? 1114112)).

End Utf8.

(** ** More concrete inputs *)
Module Samples.
Import JS Model Markup Host.

(** A title in a family that is not a system font, on a poster. *)
Definition title : Node :=
  mkNode (Inputs.text "Title" 10 10 "Hello" (Some "'Playfair Display', serif") None) None.

Definition poster : Node :=
  mkNode (Inputs.frame "Poster" 0 0 true None None) (Some [title]).

(** The style object of the title. *)
Definition titleStyles : Styles :=
  match Legacy.getCommonStyles title with
  | Ok st => st
  | Throw _ => []
  end.

(** A machine on which the project is in place. *)
Definition readyWorld : World :=
  mkWorld {[Server.PROJECT_DIR]} ∅ true ∅ (fun _ => None).

(** The children of a button: an icon and a caption. *)
Definition buttonParts : list Node :=
  [mkNode (Inputs.box "Glyph" "VECTOR" (Some 4) (Some 4) 16 16) None;
   mkNode (Inputs.text "Caption" 24 4 "Go" None None) None].

(** The letter H, e with acute accent, the euro sign and an emoji. *)
Definition greeting : list N := [72%N; 233%N; 8364%N; 128512%N].

(** A visible drop shadow as the document holds it. *)
Definition softShadow : Effect :=
  mkEffect "DROP_SHADOW" true (Some Inputs.red) (Some (mkVector 0 2)) (Some 6).

(** A layer blur: an effect without colour and offset. *)
Definition blur : Effect := mkEffect "LAYER_BLUR" true None None (Some 4).

(** The attributes of a rectangle of the document with the two effects. *)
Definition plate : Extraction.SceneAttrs :=
  Extraction.mkSceneAttrs "Plate" "RECTANGLE" true (Some 0) (Some 0) (Some 80) (Some 40)
    None None None None (Some [blur; softShadow]) None None None None None None None
    None None None None "" Extraction.mixed None Extraction.mixed Extraction.mixed None
    None None.

(** The payload attributes the plugin sends for the plate, as far as the
    servers read them. *)
Definition platePayload : NodeAttrs :=
  mkAttrs "Plate" "RECTANGLE" (Some 0) (Some 0) 80 40 None None None None
    (Some (Extraction.extractEffects plate)) None (Some true) None None None None None
    None None None None None None None None None None None None.

End Samples.

(** * Properties *)

(** ** Strings *)
Section StringFacts.
Import JS.

Lemma append_cons (c : ascii) (a b : string) :
  String c a +:+ b = String c (a +:+ b).
Proof. reflexivity. Qed.

Lemma append_nil_l (b : string) : "" +:+ b = b.
Proof. reflexivity. Qed.

Lemma append_assoc (a b c : string) : (a +:+ b) +:+ c = a +:+ (b +:+ c).
Proof.
  induction a as [|ch a IH]; [reflexivity|].
  now rewrite !append_cons, IH.
Qed.

Lemma append_nil_r (a : string) : a +:+ "" = a.
Proof.
  induction a as [|ch a IH]; [reflexivity|].
  now rewrite append_cons, IH.
Qed.

Lemma prefix_spec (p s : string) :
  String.prefix p s = true <-> exists post, s = p +:+ post.
Proof.
  revert s; induction p as [|c p IH]; intros s.
  - split; [intros _; now exists s | intros _; now destruct s].
  - destruct s as [|d s].
    + split; [discriminate | intros [post H]; discriminate].
    + simpl. destruct (ascii_dec c d) as [->|Hne].
      * rewrite IH. split; intros [post H]; exists post.
        -- now rewrite H.
        -- rewrite append_cons in H. now injection H.
      * split; [discriminate|].
        intros [post H]. rewrite append_cons in H. injection H. congruence.
Qed.

Lemma includes_nil (sub : string) :
  includes "" sub = String.prefix sub "" || false.
Proof. reflexivity. Qed.

Lemma includes_cons (c : ascii) (s sub : string) :
  includes (String c s) sub = String.prefix sub (String c s) || includes s sub.
Proof. reflexivity. Qed.

(** [includes] finds exactly the substrings. *)
Lemma includes_spec (s sub : string) :
  includes s sub = true <-> exists pre post, s = pre +:+ sub +:+ post.
Proof.
  induction s as [|c s IH]; [rewrite includes_nil | rewrite includes_cons].
  - rewrite orb_false_r, prefix_spec. split.
    + intros [post H]. now exists "", post.
    + intros [pre [post H]]. destruct pre; [now exists post | discriminate].
  - rewrite orb_true_iff, prefix_spec, IH. split.
    + intros [[post H] | [pre [post H]]].
      * now exists "", post.
      * exists (String c pre), post. now rewrite append_cons, H.
    + intros [pre [post H]]. destruct pre as [|d pre].
      * left. now exists post.
      * right. rewrite append_cons in H. injection H as _ H. now exists pre, post.
Qed.

Lemma includes_refl (s : string) : includes s s = true.
Proof. apply includes_spec. exists "", "". now rewrite append_nil_l, append_nil_r. Qed.

Lemma includes_app_r (a b sub : string) :
  includes b sub = true -> includes (a +:+ b) sub = true.
Proof.
  rewrite !includes_spec. intros [pre [post ->]].
  exists (a +:+ pre), post. now rewrite append_assoc.
Qed.

Lemma includes_app_l (a b sub : string) :
  includes a sub = true -> includes (a +:+ b) sub = true.
Proof.
  rewrite !includes_spec. intros [pre [post ->]].
  exists pre, (post +:+ b). now rewrite !append_assoc.
Qed.

Lemma includes_trans (s t u : string) :
  includes s t = true -> includes t u = true -> includes s u = true.
Proof.
  rewrite !includes_spec. intros [pre [post ->]] [pre' [post' ->]].
  exists (pre +:+ pre'), (post' +:+ post). now rewrite !append_assoc.
Qed.

Lemma includes_join (sep : string) (parts : list string) (part : string) :
  part ∈ parts -> includes (join sep parts) part = true.
Proof.
  induction parts as [|p rest IH]; intros Hin; [now apply elem_of_nil in Hin|].
  apply elem_of_cons in Hin as [->|Hin].
  - destruct rest as [|q rest]; [apply includes_refl|].
    change (join sep (p :: q :: rest)) with (p +:+ sep +:+ join sep (q :: rest)).
    apply includes_app_l, includes_refl.
  - destruct rest as [|q rest]; [now apply elem_of_nil in Hin|].
    change (join sep (p :: q :: rest)) with (p +:+ sep +:+ join sep (q :: rest)).
    do 2 apply includes_app_r. now apply IH.
Qed.

Lemma replaceChar_app (c : ascii) (r a b : string) :
  replaceChar c r (a +:+ b) = replaceChar c r a +:+ replaceChar c r b.
Proof.
  induction a as [|d a IH]; [reflexivity|].
  rewrite append_cons. simpl.
  destruct (Ascii.eqb d c); rewrite IH; [now rewrite append_assoc | reflexivity].
Qed.

Lemma replaceChar_cons (c : ascii) (r : string) (a : ascii) (s : string) :
  replaceChar c r (String a s) = replaceChar c r (String a "") +:+ replaceChar c r s.
Proof.
  change (String a s) with (String a "" +:+ s). apply replaceChar_app.
Qed.
End StringFacts.

(** ** Semantic classification *)
Section Classifier.
Import JS Model Mui.

Lemma detectComponentType_refines (node : Node) :
  detectComponentType node = SpecRules.classify node.
Proof.
  unfold detectComponentType, SpecRules.classify, SpecRules.firstMatch,
    SpecRules.nameHas, SpecRules.typeIn.
  cbn [List.find existsb fst snd].
  rewrite !orb_false_r.
  set (n := toLowerCase (name (attrs node))).
  set (t := type (attrs node)).
  destruct (includes n "button"); destruct (includes n "btn");
    destruct (String.eqb t "FRAME"); destruct (String.eqb t "INSTANCE");
    destruct (String.eqb t "GROUP"); destruct (String.eqb t "COMPONENT");
    cbn [orb andb];
    destruct (includes n "input"); destruct (includes n "field");
    destruct (includes n "search"); cbn [orb andb]; try reflexivity;
    destruct (includes n "checkbox"); destruct (includes n "tick");
    cbn [orb andb]; try reflexivity;
    destruct (String.eqb t "TEXT"); reflexivity.
Qed.

(** C3. Classification is decided by the first matching rule in the fixed
    order: button or btn in the name together with a container type gives
    Button; otherwise input, field or search in the name gives TextField;
    otherwise checkbox or tick gives Checkbox; otherwise the TEXT type gives
    Typography; otherwise nothing.  A container named search button is a
    Button, not a TextField. *)
Theorem classification_first_match :
  (forall node : Node, detectComponentType node = SpecRules.classify node) /\
  detectComponentType Inputs.searchButton = Some Button.
Proof. split; [exact detectComponentType_refines | reflexivity]. Qed.
End Classifier.

(** ** Escaping of literal text *)
Section Escaping.
Import JS Legacy.

(** The five replacements in a row act character by character. *)
Lemma escapeJSXText_escape (s : string) :
  escapeJSXText (Some s) = SpecRules.escape s.
Proof.
  unfold escapeJSXText. destruct s as [|a0 s0]; [reflexivity|].
  change (String.eqb (String a0 s0) "") with false. cbv iota.
  generalize (String a0 s0) as s. clear. intros s.
  induction s as [|a s IH]; [reflexivity|].
  rewrite (replaceChar_cons "092"), !replaceChar_app, IH.
  change (SpecRules.escape (String a s))
    with (SpecRules.escapeChar a +:+ SpecRules.escape s).
  f_equal. clear.
  destruct a as [[] [] [] [] [] [] [] []]; reflexivity.
Qed.

Lemma readLiteral_escapeChar (a : ascii) (rest : string) :
  readLiteral (SpecRules.escapeChar a +:+ rest) =
  match readLiteral rest with Some r => Some (String a r) | None => None end.
Proof. destruct a as [[] [] [] [] [] [] [] []]; reflexivity. Qed.

Lemma readLiteral_escape (s : string) : readLiteral (SpecRules.escape s) = Some s.
Proof.
  induction s as [|a s IH]; [reflexivity|].
  change (SpecRules.escape (String a s))
    with (SpecRules.escapeChar a +:+ SpecRules.escape s).
  now rewrite readLiteral_escapeChar, IH.
Qed.

(** C6. Escaping a literal text with [escapeJSXText] and reading the result
    back by the rules of a single-quoted string literal gives the text
    again, whatever quotes, backslashes, newlines, carriage returns and tabs
    it holds; hence the escaping is injective. *)
Theorem escapeJSXText_roundtrip :
  (forall text : string, readLiteral (escapeJSXText (Some text)) = Some text) /\
  (forall t1 t2 : string,
      escapeJSXText (Some t1) = escapeJSXText (Some t2) -> t1 = t2).
Proof.
  assert (R : forall text, readLiteral (escapeJSXText (Some text)) = Some text).
  { intros text. rewrite escapeJSXText_escape. apply readLiteral_escape. }
  split; [exact R|].
  intros t1 t2 E. pose proof (R t1) as H1. rewrite E, R in H1. congruence.
Qed.
End Escaping.

(** ** System fonts *)
Section Fonts.
Import JS Model Legacy.

Lemma systemFonts_lower :
  Forall (fun sysFont => toLowerCase sysFont = sysFont) systemFonts.
Proof. repeat constructor. Qed.

Lemma isSystemFont_substring (fontName sysFont : string) :
  In sysFont systemFonts ->
  includes (toLowerCase fontName) sysFont = true ->
  isSystemFont fontName = true.
Proof.
  intros Hin Hinc. unfold isSystemFont. apply existsb_exists.
  exists sysFont. split; [exact Hin|].
  pose proof systemFonts_lower as L. rewrite Forall_forall in L.
  rewrite (L sysFont); [exact Hinc | now apply list_elem_of_In].
Qed.

Lemma setAdd_userFonts (font : string) (fonts : list string) :
  isSystemFont font = false -> userFonts fonts -> userFonts (setAdd font fonts).
Proof.
  intros Hf Hfs. unfold setAdd. case_bool_decide; [exact Hfs|].
  apply Forall_app. split; [exact Hfs | now constructor].
Qed.

Lemma traverse_eq (a : NodeAttrs) (cs : option (list Node)) (fonts : list string) :
  traverse (mkNode a cs) fonts =
  match cs with
  | Some cs => fold_left (fun acc child => traverse child acc) cs (ownFont a fonts)
  | None => ownFont a fonts
  end.
Proof. reflexivity. Qed.

Lemma ownFont_userFonts (a : NodeAttrs) (fonts : list string) :
  userFonts fonts -> userFonts (ownFont a fonts).
Proof.
  intros H. unfold ownFont. destruct (fontFamily a) as [family|]; [|exact H].
  destruct (String.eqb family ""); [exact H|]. cbv zeta.
  destruct (String.eqb (cleanFontFamily family) ""); [exact H|].
  destruct (isSystemFont (cleanFontFamily family)) eqn:E; [exact H|].
  now apply setAdd_userFonts.
Qed.

Lemma fold_userFonts (cs : list Node) :
  Forall (fun c => forall fonts, userFonts fonts -> userFonts (traverse c fonts)) cs ->
  forall fonts, userFonts fonts ->
    userFonts (fold_left (fun acc child => traverse child acc) cs fonts).
Proof.
  induction 1 as [|c cs Hc _ IH]; intros fonts Hf; [exact Hf|].
  simpl. apply IH, Hc, Hf.
Qed.

Lemma traverse_userFonts (node : Node) :
  forall fonts, userFonts fonts -> userFonts (traverse node fonts).
Proof.
  induction node as [a | a cs IH] using Node_ind'; intros fonts Hf;
    rewrite traverse_eq.
  - now apply ownFont_userFonts.
  - apply fold_userFonts; [exact IH | now apply ownFont_userFonts].
Qed.

Lemma extractFontsFromData_userFonts (data : list Node) :
  userFonts (extractFontsFromData data).
Proof.
  unfold extractFontsFromData. apply fold_userFonts; [|constructor].
  apply Forall_forall. intros c _. apply traverse_userFonts.
Qed.

(** C10. The denylist is matched by case-insensitive containment, not by
    equality: a font family name that contains a denylisted name anywhere
    is a system font, and it is never among the fonts requested from the
    font service. *)
Theorem system_font_by_containment
    (fontName sysFont : string) (data : list Node) :
  In sysFont systemFonts ->
  includes (toLowerCase fontName) sysFont = true ->
  isSystemFont fontName = true /\ ~ In fontName (extractFontsFromData data).
Proof.
  intros Hin Hinc.
  pose proof (isSystemFont_substring _ _ Hin Hinc) as Hsys.
  split; [exact Hsys|]. intros Hmem.
  pose proof (extractFontsFromData_userFonts data) as U.
  unfold userFonts in U. rewrite Forall_forall in U.
  apply list_elem_of_In in Hmem. specialize (U _ Hmem). congruence.
Qed.

(** C10 at Roboto Slab, which contains roboto: the label of the card uses
    that family and no font is requested. *)
Lemma system_font_by_containment_witness :
  In "roboto" systemFonts /\
  includes (toLowerCase "Roboto Slab") "roboto" = true /\
  isSystemFont "Roboto Slab" = true /\
  ~ In "Roboto Slab" (extractFontsFromData [Inputs.card]).
Proof.
  assert (Hin : In "roboto" systemFonts).
  { unfold systemFonts. repeat (first [left; reflexivity | right]). }
  assert (Hinc : includes (toLowerCase "Roboto Slab") "roboto" = true)
    by reflexivity.
  exact (conj Hin (conj Hinc
           (system_font_by_containment "Roboto Slab" "roboto" [Inputs.card] Hin Hinc))).
Defined.
End Fonts.

(** ** Font weights *)
Section FontWeights.
Import JS Plugin.

Ltac split_on w :=
  match goal with
  | |- context [includes ?s w] =>
      destruct (includes s w); cbn [orb]; try reflexivity
  end.

Lemma convertFontWeight_refines (style : string) :
  convertFontWeight style = SpecRules.weightOf style.
Proof.
  unfold convertFontWeight, SpecRules.weightOf.
  destruct (String.eqb style ""); [reflexivity|]. cbv zeta.
  destruct (parseFloat style); try reflexivity.
  cbn [isNaN negb].
  unfold SpecRules.weightVocabulary, SpecRules.firstMatch.
  cbn [List.map List.find existsb fst snd].
  rewrite !orb_false_r.
  split_on "thin". split_on "100".
  split_on "extralight". split_on "ultralight". split_on "200".
  split_on "light". split_on "300".
  split_on "regular". split_on "normal". split_on "400".
  split_on "medium". split_on "500".
  split_on "semibold". split_on "demi". split_on "600".
  split_on "bold". split_on "700".
  split_on "extrabold". split_on "ultrabold". split_on "800".
  split_on "black". split_on "heavy". split_on "900".
Qed.

(** C4 (amended).  With [convertFontWeight] a style that starts with a
    number gives that number; otherwise the first matching entry of the
    ordered vocabulary decides (thin, extralight, light, regular, medium,
    semibold or demi, bold, extrabold, black), so SemiBold gives 600 and
    Bold gives 700 while DemiBold, which contains bold, gives 600; a style
    that matches nothing gives 400.  The earlier plugin only parses the
    style as a number, so every style that is not numeric gives 400. *)
Theorem font_weight_vocabulary :
  (forall style, convertFontWeight style = SpecRules.weightOf style) /\
  convertFontWeight "SemiBold" = Fin (ofZ 600) /\
  convertFontWeight "Bold" = Fin (ofZ 700) /\
  convertFontWeight "DemiBold" = Fin (ofZ 600) /\
  convertFontWeight "Oblique" = Fin (ofZ 400) /\
  (forall family style,
      parseFloat style = NaN ->
      PluginBasic.extractTextProperties_fontWeight
        (Some (mkFontName family (Some style))) = Some (Fin (ofZ 400))).
Proof.
  split; [exact convertFontWeight_refines|].
  repeat (split; [reflexivity|]).
  intros family style H. unfold PluginBasic.extractTextProperties_fontWeight.
  cbn [Plugin.style]. now rewrite H.
Qed.

(** C4 as stated fails: DemiBold contains bold, does not contain semibold
    and is not a number, yet its weight is 600, not 700; and with the
    earlier plugin the style Bold itself gives 400. *)
Lemma font_weight_counterexample :
  includes (toLowerCase "DemiBold") "bold" = true /\
  includes (toLowerCase "DemiBold") "semibold" = false /\
  parseFloat "DemiBold" = NaN /\
  convertFontWeight "DemiBold" = Fin (ofZ 600) /\
  PluginBasic.extractTextProperties_fontWeight
    (Some (mkFontName "Inter" (Some "Bold"))) = Some (Fin (ofZ 400)).
Proof. repeat split; reflexivity. Qed.
End FontWeights.

(** ** Style objects *)
Section StyleFacts.
Import JS Markup.

Lemma getKey_setKey_eq k v st : getKey k (setKey k v st) = Some v.
Proof.
  induction st as [|[k' v'] st IH]; simpl.
  - now rewrite String.eqb_refl.
  - destruct (String.eqb k' k) eqn:E; simpl; now rewrite E.
Qed.

Lemma getKey_setKey_ne k k' v st :
  k <> k' -> getKey k (setKey k' v st) = getKey k st.
Proof.
  intros Hne. induction st as [|[k0 v0] st IH]; simpl.
  - destruct (String.eqb_spec k' k); [congruence | reflexivity].
  - destruct (String.eqb_spec k0 k'); simpl.
    + subst k0. destruct (String.eqb_spec k' k); [congruence | reflexivity].
    + now rewrite IH.
Qed.

Lemma getKey_None_keys k st : getKey k st = None <-> k ∉ keys st.
Proof.
  induction st as [|[k0 v0] st IH]; simpl.
  - split; [intros _; apply not_elem_of_nil | reflexivity].
  - rewrite not_elem_of_cons. destruct (String.eqb_spec k0 k).
    + split; [discriminate | intros [H _]; congruence].
    + rewrite IH. split; [intros H; split; [congruence | exact H] | tauto].
Qed.

Lemma keys_setKey k v st :
  keys (setKey k v st) = if bool_decide (k ∈ keys st) then keys st else keys st ++ [k].
Proof.
  induction st as [|[k0 v0] st IH]; [reflexivity|].
  cbn [setKey keys List.map fst]. fold (keys st).
  destruct (String.eqb_spec k0 k); cbn [keys List.map fst]; fold (keys st).
  - subst. rewrite bool_decide_eq_true_2; [reflexivity | left].
  - fold (keys (setKey k v st)). rewrite IH.
    rewrite (bool_decide_ext (k ∈ k0 :: keys st) (k ∈ keys st)).
    + now destruct (bool_decide (k ∈ keys st)).
    + rewrite elem_of_cons. split; [intros [->|H]; [congruence | exact H] | tauto].
Qed.

(** Assignments keep the keys of an object distinct. *)
Lemma NoDup_setKey k v st : NoDup (keys st) -> NoDup (keys (setKey k v st)).
Proof.
  intros H. rewrite keys_setKey. case_bool_decide as Hk; [exact H|].
  apply NoDup_app. repeat split; [exact H | | apply NoDup_singleton].
  intros x Hx Hx'. apply list_elem_of_singleton in Hx'. now subst.
Qed.

Lemma getKey_delKey_eq k st : NoDup (keys st) -> getKey k (delKey k st) = None.
Proof.
  induction st as [|[k0 v0] st IH]; simpl; [reflexivity|].
  intros H. apply NoDup_cons in H as [Hk0 H].
  destruct (String.eqb_spec k0 k); simpl.
  - subst. now apply getKey_None_keys.
  - destruct (String.eqb_spec k0 k); [congruence | now apply IH].
Qed.

Lemma getKey_delKey_ne k k' st : k <> k' -> getKey k (delKey k' st) = getKey k st.
Proof.
  intros Hne. induction st as [|[k0 v0] st IH]; simpl; [reflexivity|].
  destruct (String.eqb_spec k0 k'); simpl.
  - subst. destruct (String.eqb_spec k' k); [congruence | reflexivity].
  - now rewrite IH.
Qed.

Lemma keys_delKey_subset k x st : x ∈ keys (delKey k st) -> x ∈ keys st.
Proof.
  induction st as [|[k1 v1] st IH]; simpl; [trivial|].
  destruct (String.eqb k1 k); [now right|].
  simpl. rewrite !elem_of_cons. intros [->|Hin]; [now left | right; auto].
Qed.

Lemma NoDup_delKey k st : NoDup (keys st) -> NoDup (keys (delKey k st)).
Proof.
  induction st as [|[k0 v0] st IH]; simpl; [trivial|].
  intros H. apply NoDup_cons in H as [Hk0 H].
  destruct (String.eqb k0 k); [exact H|].
  simpl. apply NoDup_cons. split; [|now apply IH].
  intros Hin. apply Hk0. eapply keys_delKey_subset, Hin.
Qed.

Lemma NoDup_spread st extra : NoDup (keys st) -> NoDup (keys (spread st extra)).
Proof.
  unfold spread. revert st. induction extra as [|[k v] extra IH]; intros st H; simpl.
  - exact H.
  - apply IH, NoDup_setKey, H.
Qed.

Lemma getKey_spread_ne k st extra :
  k ∉ keys extra -> getKey k (spread st extra) = getKey k st.
Proof.
  unfold spread. revert st. induction extra as [|[k0 v0] extra IH]; intros st H; simpl.
  - reflexivity.
  - simpl in H. apply not_elem_of_cons in H as [Hne H].
    rewrite IH by exact H. now apply getKey_setKey_ne.
Qed.
End StyleFacts.

(** ** Positions in the plain server *)
Section Positions.
Import JS Model Markup Server.

Lemma getKey_setPx_ne o k k' st : k <> k' -> getKey k (setPx o k' st) = getKey k st.
Proof.
  intros H. unfold setPx. destruct o as [n|]; [|reflexivity].
  destruct (n =? 0); [reflexivity | now apply getKey_setKey_ne].
Qed.

Lemma NoDup_setPx o k st : NoDup (keys st) -> NoDup (keys (setPx o k st)).
Proof.
  intros H. unfold setPx. destruct o as [n|]; [|exact H].
  destruct (n =? 0); [exact H | now apply NoDup_setKey].
Qed.

Lemma keys_background fills k :
  k ∈ keys (getBackgroundStyle fills) -> k = "backgroundColor".
Proof.
  unfold getBackgroundStyle.
  destruct fills as [[|fill ?]|]; try (intros H; now apply elem_of_nil in H).
  destruct (_ && _); simpl; [|intros H; now apply elem_of_nil in H].
  intros H. now apply list_elem_of_singleton in H.
Qed.

Lemma keys_border strokes k :
  k ∈ keys (getBorderStyle strokes) ->
  k = "borderWidth" \/ k = "borderStyle" \/ k = "borderColor".
Proof.
  unfold getBorderStyle.
  destruct strokes as [[|stroke ?]|]; try (intros H; now apply elem_of_nil in H).
  destruct (_ && _); simpl; [|intros H; now apply elem_of_nil in H].
  rewrite !elem_of_cons, elem_of_nil. tauto.
Qed.

Lemma keys_effects effects k :
  k ∈ keys (getEffectStyles effects) -> k = "boxShadow".
Proof.
  unfold getEffectStyles.
  destruct effects as [[|e ?]|]; try (intros H; now apply elem_of_nil in H).
  destruct (List.map _ _); simpl; [intros H; now apply elem_of_nil in H|].
  intros H. now apply list_elem_of_singleton in H.
Qed.

Lemma initialStyles_NoDup node depth : NoDup (keys (initialStyles node depth)).
Proof.
  unfold initialStyles. cbv zeta. do 3 apply NoDup_spread.
  apply (bool_decide_unpack _). by vm_compute.
Qed.

(** A concrete key is none of the listed ones. *)
Ltac not_listed :=
  let H := fresh in
  intros H;
  repeat (apply elem_of_cons in H as [H|H]; [discriminate H|]);
  now apply elem_of_nil in H.

Lemma initialStyles_other node depth k :
  k ∉ ["backgroundColor"; "borderWidth"; "borderStyle"; "borderColor"; "boxShadow"] ->
  getKey k (initialStyles node depth) =
  getKey k
    [("width", px (width (attrs node)));
     ("height", px (height (attrs node)));
     ("position", VStr (if isRoot depth then "relative" else "absolute"));
     ("opacity", VNum (Fin (default (ofZ 1) (opacity (attrs node)))));
     ("display", VStr (if notHidden node then "block" else "none"))].
Proof.
  intros Hk. unfold initialStyles. cbv zeta.
  rewrite !getKey_spread_ne; [reflexivity | | |].
  - destruct (_ || _); [apply not_elem_of_nil|].
    intros H. apply keys_background in H. subst k. apply Hk. repeat constructor.
  - intros H. apply keys_border in H. apply Hk.
    destruct H as [-> | [-> | ->]]; repeat constructor.
  - intros H. apply keys_effects in H. subst k. apply Hk. repeat constructor.
Qed.

Ltac skip_keys :=
  repeat first
    [ rewrite getKey_setKey_ne by discriminate
    | rewrite getKey_setPx_ne by discriminate
    | rewrite getKey_delKey_ne by discriminate ].

Lemma positioned_NoDup node depth parentX parentY :
  NoDup (keys
    (setPx (cornerRadius (attrs node)) "borderRadius"
      (if isRoot depth then initialStyles node depth
       else setKey "top" (px (relativeY node depth parentY))
              (setKey "left" (px (relativeX node depth parentX))
                 (initialStyles node depth))))).
Proof.
  apply NoDup_setPx. destruct (isRoot depth).
  - apply initialStyles_NoDup.
  - do 2 apply NoDup_setKey. apply initialStyles_NoDup.
Qed.

(** The emitted [left]: none for the root and under auto-layout. *)
Lemma nodeStyles_left node depth parentX parentY :
  getKey "left" (nodeStyles node depth parentX parentY) =
  if isRoot depth || isAutoLayout node then None
  else Some (px (relativeX node depth parentX)).
Proof.
  unfold nodeStyles. cbv zeta. destruct (isAutoLayout node).
  - rewrite orb_true_r. unfold autoLayoutStyles. cbv zeta.
    rewrite getKey_delKey_ne by discriminate.
    apply getKey_delKey_eq.
    do 5 apply NoDup_setPx. do 3 apply NoDup_setKey. apply positioned_NoDup.
  - rewrite orb_false_r. destruct (isRoot depth) eqn:R.
    + skip_keys. now rewrite initialStyles_other by not_listed.
    + skip_keys. apply getKey_setKey_eq.
Qed.

Lemma nodeStyles_top node depth parentX parentY :
  getKey "top" (nodeStyles node depth parentX parentY) =
  if isRoot depth || isAutoLayout node then None
  else Some (px (relativeY node depth parentY)).
Proof.
  unfold nodeStyles. cbv zeta. destruct (isAutoLayout node).
  - rewrite orb_true_r. unfold autoLayoutStyles. cbv zeta.
    apply getKey_delKey_eq, NoDup_delKey.
    do 5 apply NoDup_setPx. do 3 apply NoDup_setKey. apply positioned_NoDup.
  - rewrite orb_false_r. destruct (isRoot depth) eqn:R.
    + skip_keys. now rewrite initialStyles_other by not_listed.
    + skip_keys. apply getKey_setKey_eq.
Qed.


Lemma childrenX_root node parentX :
  childrenX node 0 parentX =
  if truthyStr (layoutMode (attrs node)) then 0
  else Z.max 0 (- default 0 (x (attrs node))).
Proof.
  unfold childrenX. simpl. destruct (truthyStr _); [reflexivity|].
  destruct (Z.ltb_spec (default 0 (x (attrs node))) 0); lia.
Qed.

Lemma childrenY_root node parentY :
  childrenY node 0 parentY =
  if truthyStr (layoutMode (attrs node)) then 0
  else Z.max 0 (- default 0 (y (attrs node))).
Proof.
  unfold childrenY. simpl. destruct (truthyStr _); [reflexivity|].
  destruct (Z.ltb_spec (default 0 (y (attrs node))) 0); lia.
Qed.

End Positions.

(** ** Emitted markup of the plain server *)
Section Emission.
Import JS Model Markup Server.

Lemma generateNodeComponent_eq node depth parentX parentY nodeCounter :
  generateNodeComponent node depth parentX parentY nodeCounter =
  let '(parts, final) :=
    match children node with
    | Some cs =>
        mapCounter
          (fun child c =>
             generateNodeComponent child (S depth)
               (childrenX node depth parentX) (childrenY node depth parentY) c)
          cs (S nodeCounter)
    | None => ([], S nodeCounter)
    end in
  (assemble node depth parentX parentY nodeCounter (join nl parts), final).
Proof. destruct node; reflexivity. Qed.

Lemma generateNodeComponent_markup node depth parentX parentY nodeCounter :
  fst (generateNodeComponent node depth parentX parentY nodeCounter) =
  assemble node depth parentX parentY nodeCounter
    (join nl (childrenParts node depth parentX parentY nodeCounter)).
Proof.
  rewrite generateNodeComponent_eq. unfold childrenParts.
  destruct (children node) as [cs|]; [|reflexivity].
  now destruct (mapCounter _ cs (S nodeCounter)).
Qed.

(** Every node is emitted with its own identifier. *)
Lemma assemble_key node depth parentX parentY nodeCounter childrenContent :
  includes (assemble node depth parentX parentY nodeCounter childrenContent)
    ("key=" +:+ dq +:+ nodeId nodeCounter +:+ dq) = true.
Proof.
  unfold assemble. cbv zeta.
  assert (K : forall a b c d e tail,
             includes (a +:+ b +:+ c +:+ d +:+ e +:+ "      key=" +:+ dq
                       +:+ nodeId nodeCounter +:+ dq +:+ tail)
               ("key=" +:+ dq +:+ nodeId nodeCounter +:+ dq) = true).
  { intros. do 5 apply includes_app_r.
    apply includes_spec. exists "      ", tail.
    now rewrite !append_assoc. }
  destruct (negb (nodeHasChildren node) && _); rewrite !append_assoc; apply K.
Qed.




Lemma mapCounter_count (f : Node -> nat -> string * nat) cs :
  Forall (fun child => forall c, snd (f child c) = (c + nodeCount child)%nat) cs ->
  forall c, snd (mapCounter f cs c) = (c + list_sum (List.map nodeCount cs))%nat.
Proof.
  induction 1 as [|child cs Hc _ IH]; intros c; simpl; [lia|].
  specialize (Hc c). destruct (f child c) as [s c1]. simpl in Hc. subst c1.
  specialize (IH (c + nodeCount child)%nat).
  destruct (mapCounter f cs _) as [ss c2]. simpl in *. lia.
Qed.

Lemma nodeCount_eq a cs :
  nodeCount (mkNode a cs) =
  match cs with Some cs => S (list_sum (List.map nodeCount cs)) | None => 1%nat end.
Proof. reflexivity. Qed.

(** Identifiers are consecutive in depth-first pre-order: a subtree uses
    as many as it has nodes. *)
Lemma generateNodeComponent_counter node :
  forall depth parentX parentY nodeCounter,
    snd (generateNodeComponent node depth parentX parentY nodeCounter) =
    (nodeCounter + nodeCount node)%nat.
Proof.
  induction node as [a | a cs IH] using Node_ind'; intros depth parentX parentY c;
    rewrite generateNodeComponent_eq, nodeCount_eq; cbn [children].
  - simpl. lia.
  - pose proof (mapCounter_count
      (fun child c0 => generateNodeComponent child (S depth)
         (childrenX (mkNode a (Some cs)) depth parentX)
         (childrenY (mkNode a (Some cs)) depth parentY) c0) cs) as M.
    rewrite (surjective_pairing (mapCounter _ cs (S c))). cbn [snd].
    rewrite M; [lia|].
    eapply Forall_impl; [exact IH|]. intros child Hc c0. apply Hc.
Qed.
End Emission.

(** ** Visibility and assets *)
Section Visibility.
Import JS Model Markup Host.

Lemma generateElement_eq a cs :
  Legacy.generateElement (mkNode a cs) =
  if Legacy.isPruned a then Ok "" else
  match Legacy.getCommonStyles (mkNode a cs) with
  | Throw e => Throw e
  | Ok styles =>
      if String.eqb (type a) "TEXT" then Ok (Legacy.textElement a styles)
      else if Legacy.isAsset a then Ok (Legacy.assetElement a styles)
      else
        match
          match cs with
          | Some cs => mapResult Legacy.generateElement cs
          | None => Ok []
          end
        with
        | Throw e => Throw e
        | Ok parts =>
            Ok ("<div style={{" +:+ Legacy.styleObjectToString styles +:+ "}}>"
                +:+ join nl parts +:+ "</div>")
        end
  end.
Proof. reflexivity. Qed.



(** The markup of a node that has children: the opening tag, the content
    of the node, the markup of the children, the closing tag. *)
Lemma assemble_with_children node depth parentX parentY nodeCounter childrenContent :
  Server.nodeHasChildren node = true ->
  Server.assemble node depth parentX parentY nodeCounter childrenContent =
  let indent := Server.indentOf depth in
  let Tag := if Server.isTextNode node then "span" else "div" in
  let styleStr := Server.styleString node depth parentX parentY in
  (indent +:+ "    <" +:+ Tag +:+ nl +:+ indent +:+ "      key=" +:+ dq
   +:+ Server.nodeId nodeCounter +:+ dq
   +:+ (if negb (String.eqb styleStr "")
        then nl +:+ indent +:+ "      style={{" +:+ nl +:+ styleStr +:+ nl
             +:+ indent +:+ "      }}"
        else ""))
  +:+ nl +:+ "    >" +:+ nl
  +:+ Server.nodeContent node depth
  +:+ childrenContent
  +:+ indent +:+ "    </" +:+ Tag +:+ ">".
Proof. intros H. unfold Server.assemble. cbv zeta. now rewrite H. Qed.

(** C5 (amended).  In server/index.js a visible node that is not a text
    node and carries a non-empty image, svg or svgBase64 yields one asset
    element computed from its own attributes, or the error of its own style
    computation; either way the result is the same for every children list,
    and no child is compiled.  In the plain server nothing is suppressed.
    The content of a node that is not a text node is, with svg or
    svgBase64, nothing when the decoded markup is empty, an img element
    when it still starts with data:, and the inline markup otherwise; with
    an image alone, an img element.  A node that has children is emitted as
    its opening tag, that content, the markup of all its children in
    document order, and its closing tag. *)
Theorem asset_leaf_and_children
    (node : Node) (depth : nat) (parentX parentY : Z) (nodeCounter : nat) :
  (forall cs,
      Legacy.isPruned (attrs node) = false ->
      String.eqb (type (attrs node)) "TEXT" = false ->
      Legacy.isAsset (attrs node) = true ->
      Legacy.generateElement (mkNode (attrs node) cs) =
      match Legacy.getCommonStyles (mkNode (attrs node) None) with
      | Ok styles => Ok (Legacy.assetElement (attrs node) styles)
      | Throw e => Throw e
      end) /\
  (Server.isTextNode node = false ->
   Server.nodeContent node depth =
   let indent := Server.indentOf depth in
   let svgContent := Server.svgContentOf node in
   if Server.hasSVG node then
     if String.eqb svgContent "" then ""
     else if startsWith svgContent "data:"
     then Server.imgTag indent svgContent (name (attrs node))
     else
       nl +:+ indent +:+ "        <div" +:+ nl
       +:+ indent +:+ "          style={{ width: '100%', height: '100%', display: 'flex', alignItems: 'center', justifyContent: 'center', overflow: 'hidden' }}"
       +:+ nl
       +:+ indent +:+ "          dangerouslySetInnerHTML={{ __html: " +:+ backtick
       +:+ Server.escapeSvg svgContent +:+ backtick +:+ " }}" +:+ nl
       +:+ indent +:+ "        />"
   else if truthyStr (image (attrs node))
   then Server.imgTag indent (default "" (image (attrs node))) (name (attrs node))
   else "") /\
  (Server.nodeHasChildren node = true ->
   fst (Server.generateNodeComponent node depth parentX parentY nodeCounter) =
   let indent := Server.indentOf depth in
   let Tag := if Server.isTextNode node then "span" else "div" in
   let styleStr := Server.styleString node depth parentX parentY in
   (indent +:+ "    <" +:+ Tag +:+ nl +:+ indent +:+ "      key=" +:+ dq
    +:+ Server.nodeId nodeCounter +:+ dq
    +:+ (if negb (String.eqb styleStr "")
         then nl +:+ indent +:+ "      style={{" +:+ nl +:+ styleStr +:+ nl
              +:+ indent +:+ "      }}"
         else ""))
   +:+ nl +:+ "    >" +:+ nl
   +:+ Server.nodeContent node depth
   +:+ join nl (Server.childrenParts node depth parentX parentY nodeCounter)
   +:+ indent +:+ "    </" +:+ Tag +:+ ">").
Proof.
  split; [|split].
  - intros cs Hv Ht Ha. rewrite generateElement_eq, Hv.
    change (Legacy.getCommonStyles (mkNode (attrs node) cs))
      with (Legacy.getCommonStyles (mkNode (attrs node) None)).
    destruct (Legacy.getCommonStyles _); [|reflexivity].
    now rewrite Ht, Ha.
  - intros Ht. unfold Server.nodeContent, Server.shouldUseSVG. cbv zeta.
    rewrite Ht. cbn [andb negb]. rewrite andb_true_r, andb_diag.
    destruct (Server.hasSVG node); [|reflexivity].
    destruct (String.eqb (Server.svgContentOf node) ""); [reflexivity|].
    now destruct (startsWith (Server.svgContentOf node) "data:").
  - intros Hc. rewrite generateNodeComponent_markup.
    now apply assemble_with_children.
Qed.

(** C5 as stated fails in the plain server: a frame that carries vector
    markup and has a child is emitted with the vector markup and with the
    text of the child; server/index.js emits the asset alone. *)
Lemma asset_children_emitted :
  Server.shouldUseSVG Inputs.iconWithChild = true /\
  Server.nodeHasChildren Inputs.iconWithChild = true /\
  includes (Server.generateComponentCode (Server.PArray [Inputs.iconWithChild]) "Icon")
    "<svg><path/></svg>" = true /\
  includes (Server.generateComponentCode (Server.PArray [Inputs.iconWithChild]) "Icon")
    "Inner label" = true /\
  Legacy.generateElement Inputs.iconWithChild =
    Ok "<div style={{position: 'absolute', left: '5px', top: '5px', width: '300px', height: '120px'}} dangerouslySetInnerHTML={{__html: '<svg><path/></svg>'}} />".
Proof. repeat split; vm_compute; reflexivity. Qed.
End Visibility.

(** ** Shadows *)
Section Shadows.
Import JS Model Markup Host.

Lemma find_first {A} (p : A -> bool) pre x post :
  Forall (fun e => p e = false) pre -> p x = true ->
  List.find p (pre ++ x :: post) = Some x.
Proof.
  induction 1 as [|e pre He _ IH]; intros Hx; simpl.
  - now rewrite Hx.
  - rewrite He. now apply IH.
Qed.

(** C7 (amended).  In server/index.js the box shadow comes from the first
    visible drop shadow only.  When that shadow has an offset, its colour is
    written from its red, green and blue channels at the fixed alpha 0.5,
    and as [transparent] when the shadow has no colour; when it has no
    offset, [getCommonStyles] raises a TypeError.  In the plain server
    every visible drop shadow contributes, joined by a comma; a missing
    offset or radius counts as 0; a shadow with a colour is written from
    its red, green and blue channels at full opacity, as rgb(r, g, b), and a
    shadow without a colour gets black at alpha 0.25. *)
Theorem box_shadow_rules :
  (forall a st pre shadow post o,
      effects a = Some (pre ++ shadow :: post) ->
      Forall (fun e => Legacy.isVisibleDropShadow e = false) pre ->
      Legacy.isVisibleDropShadow shadow = true ->
      offset shadow = Some o ->
      Legacy.shadowStyle a st =
      Ok (setKey "boxShadow"
            (VStr (showZ (vx o) +:+ "px " +:+ showZ (vy o) +:+ "px "
                   +:+ Legacy.showOptZ (radius shadow) +:+ "px "
                   +:+ match effectColor shadow with
                       | None => "transparent"
                       | Some c =>
                           "rgba(" +:+ showZ (roundMul (r c) 255) +:+ ", "
                           +:+ showZ (roundMul (g c) 255) +:+ ", "
                           +:+ showZ (roundMul (b c) 255) +:+ ", 0.5)"
                       end)) st)) /\
  (forall a cs st pre shadow post,
      effects a = Some (pre ++ shadow :: post) ->
      Forall (fun e => Legacy.isVisibleDropShadow e = false) pre ->
      Legacy.isVisibleDropShadow shadow = true ->
      offset shadow = None ->
      Legacy.shadowStyle a st =
        Throw "Cannot read properties of undefined (reading 'x')" /\
      Legacy.getCommonStyles (mkNode a cs) =
        Throw "Cannot read properties of undefined (reading 'x')") /\
  (forall es,
      getKey "boxShadow" (Server.getEffectStyles (Some es)) =
      match List.filter Server.isVisibleDropShadow es with
      | [] => None
      | shadows => Some (VStr (join ", " (List.map Server.shadowText shadows)))
      end) /\
  (forall e,
      effectColor e = None ->
      Server.shadowText e =
      showZ (orZ (vx <$> offset e) 0) +:+ "px " +:+ showZ (orZ (vy <$> offset e) 0)
      +:+ "px " +:+ showZ (orZ (radius e) 0) +:+ "px rgba(0, 0, 0, 0.25)") /\
  (forall e c,
      effectColor e = Some c ->
      Server.shadowText e =
      showZ (orZ (vx <$> offset e) 0) +:+ "px " +:+ showZ (orZ (vy <$> offset e) 0)
      +:+ "px " +:+ showZ (orZ (radius e) 0) +:+ "px "
      +:+ "rgb(" +:+ showZ (roundMul (r c) 255) +:+ ", "
      +:+ showZ (roundMul (g c) 255) +:+ ", "
      +:+ showZ (roundMul (b c) 255) +:+ ")").
Proof.
  assert (T : forall a st pre shadow post,
             effects a = Some (pre ++ shadow :: post) ->
             Forall (fun e => Legacy.isVisibleDropShadow e = false) pre ->
             Legacy.isVisibleDropShadow shadow = true ->
             offset shadow = None ->
             Legacy.shadowStyle a st =
               Throw "Cannot read properties of undefined (reading 'x')").
  { intros a st pre shadow post He Hpre Hs Ho.
    unfold Legacy.shadowStyle. rewrite He.
    rewrite (find_first _ _ _ _ Hpre Hs), Ho. now destruct pre. }
  split; [|split; [|split; [|split]]].
  - intros a st pre shadow post o He Hpre Hs Ho.
    unfold Legacy.shadowStyle. rewrite He.
    rewrite (find_first _ _ _ _ Hpre Hs), Ho.
    destruct pre; simpl; destruct (effectColor shadow); reflexivity.
  - intros a cs st pre shadow post He Hpre Hs Ho.
    split; [now apply (T a st pre shadow post)|].
    unfold Legacy.getCommonStyles. cbn [attrs].
    now rewrite (T a _ pre shadow post).
  - intros es. unfold Server.getEffectStyles.
    destruct es as [|e es]; [reflexivity|].
    destruct (List.filter _ (e :: es)); reflexivity.
  - intros e He. unfold Server.shadowText. now rewrite He.
  - intros e c He. unfold Server.shadowText. now rewrite He.
Qed.

(** C7 as stated fails: the first visible drop shadow of the panel has no
    colour; server/index.js emits it as transparent, and the plain server
    emits both shadows, the colourless one at alpha 0.25; neither emits
    black at alpha 0.5. *)
Lemma colourless_shadow_not_black :
  List.find Legacy.isVisibleDropShadow (default [] (effects (attrs Inputs.shadowed)))
    = Some (Inputs.colourless 0 4 8) /\
  effectColor (Inputs.colourless 0 4 8) = None /\
  Legacy.generateElement Inputs.shadowed =
    Ok "<div style={{position: 'absolute', left: '0px', top: '0px', width: '300px', height: '120px', boxShadow: '0px 4px 8px transparent'}}></div>" /\
  getKey "boxShadow" (Server.nodeStyles Inputs.shadowed 0 0 0) =
    Some (VStr "0px 4px 8px rgba(0, 0, 0, 0.25), 1px 1px 2px rgb(255, 0, 0)").
Proof. repeat split; vm_compute; reflexivity. Qed.
End Shadows.

(** ** The host *)
Section HostFacts.
Import Host.

Lemma hasPath_putFile w p q t : hasPath w p = true -> hasPath (putFile q t w) p = true.
Proof.
  unfold hasPath, putFile. cbn [dirs files].
  rewrite !orb_true_iff, !bool_decide_eq_true. intros [H|H]; [now left|right].
  destruct (decide (q = p)) as [->|Hne].
  - rewrite lookup_insert_eq. eauto.
  - now rewrite lookup_insert_ne.
Qed.

Lemma hasPath_addDir w p q : hasPath w p = true -> hasPath (addDir q w) p = true.
Proof.
  unfold hasPath, addDir. cbn [dirs files].
  rewrite !orb_true_iff, !bool_decide_eq_true. intros [H|H]; [left|now right].
  apply elem_of_union. now right.
Qed.

Lemma ensureDirectory_run p w :
  ensureDirectory p w = (Ok tt, if hasPath w p then w else addDir p w).
Proof.
  unfold ensureDirectory, bind, pathExists. now destruct (hasPath w p).
Qed.

Lemma files_putFile_eq p t w : files (putFile p t w) !! p = Some t.
Proof. unfold putFile. cbn [files]. apply lookup_insert_eq. Qed.

Lemma files_putFile_ne p q t w : q <> p -> files (putFile q t w) !! p = files w !! p.
Proof. intros H. unfold putFile. cbn [files]. now apply lookup_insert_ne. Qed.
End HostFacts.

(** ** The endpoint of the plain server *)
Section ServerEndpoint.
Import JS Model Markup Host Server.

Lemma createReactApp_run w :
  createReactApp w =
  if hasPath w PROJECT_DIR then (Ok tt, w)
  else if scaffoldWorks w then (Ok tt, scaffolded w)
  else (Throw "Command failed: npx create-react-app react-app", w).
Proof.
  unfold createReactApp, bind, pathExists.
  destruct (hasPath w PROJECT_DIR); [reflexivity|].
  unfold runScaffold, scaffolded. cbv zeta.
  destruct (scaffoldWorks w) eqn:S; [|reflexivity].
  unfold writeFile, tryCatch, bind, readFile.
  match goal with |- context [files ?W !! ?P] => destruct (files W !! P) as [html|] end;
    [|reflexivity].
  now destruct (negb (includes html "Content-Security-Policy")).
Qed.

(** After [createReactApp] the project directory is there. *)
Lemma createReactApp_project w w1 :
  createReactApp w = (Ok tt, w1) -> hasPath w1 PROJECT_DIR = true.
Proof.
  rewrite createReactApp_run. destruct (hasPath w PROJECT_DIR) eqn:E.
  - now intros [= <-].
  - destruct (scaffoldWorks w); [|discriminate]. intros [= <-].
    unfold scaffolded. cbv zeta.
    match goal with
    | |- hasPath (match files ?W !! ?P with _ => _ end) _ = _ =>
        assert (H : hasPath W PROJECT_DIR = true);
        [| destruct (files W !! P) as [html|]; [|exact H];
           destruct (negb _); [now apply hasPath_putFile | exact H] ]
    end.
    do 3 apply hasPath_putFile. unfold hasPath, scaffoldWorld. cbn [dirs].
    apply orb_true_iff. left. apply bool_decide_eq_true.
    rewrite !elem_of_union, !elem_of_singleton. auto.
Qed.

Lemma postGenerateComponent_run data w :
  postGenerateComponent (Some data) w =
  match createReactApp w with
  | (Ok _, w1) => (okResponse data, written data w1)
  | (Throw e, w1) => (mkResponse 500 (Some false) (Some e) None None, w1)
  end.
Proof.
  unfold postGenerateComponent, respond, bind.
  destruct (createReactApp w) as [[[]|e] w1]; [|reflexivity].
  rewrite ensureDirectory_run. unfold written, okResponse. cbv zeta.
  destruct (hasPath w1 COMPONENTS_DIR); unfold writeFile, pathExists;
    match goal with |- context [hasPath ?W (SRC_DIR +:+ "/App.js")] =>
      destruct (hasPath W (SRC_DIR +:+ "/App.js")) end; reflexivity.
Qed.

Lemma server_paths_distinct name :
  COMPONENTS_DIR +:+ "/" +:+ name +:+ ".css" <> componentPathOf name /\
  SRC_DIR +:+ "/App.js" <> componentPathOf name /\
  SRC_DIR +:+ "/App.jsx" <> componentPathOf name.
Proof.
  unfold componentPathOf.
  repeat split; intros H.
  - do 3 apply (inj (String.app _)) in H. discriminate.
  - vm_compute in H. congruence.
  - vm_compute in H. congruence.
Qed.

(** The component file holds the compiled text, whatever was there. *)
Lemma written_component data w1 :
  files (written data w1) !! componentPathOf (componentNameOf data) =
  Some (generateComponentCode data (componentNameOf data)).
Proof.
  destruct (server_paths_distinct (componentNameOf data)) as (Hc & Hj & Hx).
  unfold written. cbv zeta.
  match goal with |- context [hasPath ?W (SRC_DIR +:+ "/App.js")] =>
    destruct (hasPath W (SRC_DIR +:+ "/App.js")) end;
    rewrite files_putFile_ne by assumption;
    rewrite files_putFile_ne by assumption;
    apply files_putFile_eq.
Qed.

Lemma written_hasPath data w1 p :
  hasPath w1 p = true -> hasPath (written data w1) p = true.
Proof.
  intros H. unfold written. cbv zeta.
  assert (H2 : hasPath (if hasPath w1 COMPONENTS_DIR then w1
                        else addDir COMPONENTS_DIR w1) p = true).
  { destruct (hasPath w1 COMPONENTS_DIR); [exact H | now apply hasPath_addDir]. }
  match goal with |- context [hasPath ?W (SRC_DIR +:+ "/App.js")] =>
    destruct (hasPath W (SRC_DIR +:+ "/App.js")) end;
    now do 3 apply hasPath_putFile.
Qed.

Lemma server_compile_twice data w :
  status (fst (postGenerateComponent (Some data) w)) = 200%nat ->
  let w1 := snd (postGenerateComponent (Some data) w) in
  files w1 !! componentPathOf (componentNameOf data) =
    Some (generateComponentCode data (componentNameOf data)) /\
  fst (postGenerateComponent (Some data) w1) = fst (postGenerateComponent (Some data) w) /\
  files (snd (postGenerateComponent (Some data) w1))
    !! componentPathOf (componentNameOf data) =
    Some (generateComponentCode data (componentNameOf data)).
Proof.
  rewrite postGenerateComponent_run.
  destruct (createReactApp w) as [[[]|e] w1] eqn:C; [|discriminate].
  intros _. cbn [fst snd]. split; [apply written_component|].
  rewrite postGenerateComponent_run, createReactApp_run.
  rewrite written_hasPath by (eapply createReactApp_project, C).
  cbn [fst snd]. split; [reflexivity | apply written_component].
Qed.
End ServerEndpoint.

(** ** Requests without roots *)
Section EmptyPayload.
Import JS Model Markup Host.

(** A missing payload is refused before anything is done. *)
Lemma missing_payload_rejected w :
  Server.postGenerateComponent None w =
  (Server.mkResponse 400 None (Some "No data provided") None None, w).
Proof. reflexivity. Qed.

(** server/index.js answers a missing payload or an empty array with an
    error and writes no file. *)
Lemma legacy_empty_rejected body w :
  body = None \/ body = Some [] ->
  Legacy.status (fst (Legacy.postApiGenerate body w)) = 500%nat /\
  files (snd (Legacy.postApiGenerate body w)) = files w.
Proof.
  intros [-> | ->]; unfold Legacy.postApiGenerate, respond, bind;
    rewrite ensureDirectory_run; cbn [throw fst snd];
    (split; [reflexivity|]); now destruct (hasPath w Legacy.COMPONENT_DIR).
Qed.

(** C9.  A request whose payload is an empty root sequence should be
    refused with a validation error and nothing should be written.  The
    plain server does not do so: on a machine where the scaffolding works
    it answers the empty array with status 200 and success, and writes the
    component FigmaComponent with an empty body. *)
Theorem empty_root_sequence_compiled
    (dirs : gset string) (files0 scaffold : gmap string string)
    (fontLookup : string -> option string) :
  let w := mkWorld dirs files0 true scaffold fontLookup in
  let answer := Server.postGenerateComponent (Some (Server.PArray [])) w in
  Server.status (fst answer) = 200%nat /\
  Server.success (fst answer) = Some true /\
  files (snd answer) !! "react-app/src/components/FigmaComponent.jsx" =
    Some (Server.componentTemplate "FigmaComponent" "").
Proof.
  cbv zeta. rewrite postGenerateComponent_run, createReactApp_run.
  cbn [scaffoldWorks].
  destruct (hasPath _ Server.PROJECT_DIR); cbn [fst snd];
    (split; [reflexivity | split; [reflexivity|]]);
    apply (written_component (Server.PArray [])).
Qed.
End EmptyPayload.

(** ** The endpoint of server/index.js *)
Section LegacyEndpoint.
Import JS Model Markup Host Legacy.

Lemma downloadAll_run fonts w :
  downloadAll fonts w =
  (Ok (List.map (fun font => default (fontImport font) (fontLookup w font)) fonts), w).
Proof.
  induction fonts as [|font fonts IH]; [reflexivity|].
  cbn [downloadAll List.map]. unfold bind at 1. unfold downloadFontFromGoogle at 1.
  destruct (fontLookup w font); cbn [default];
    unfold bind; rewrite IH; reflexivity.
Qed.

(** The font stage never throws and writes no file. *)
Lemma fontCSSOf_run fonts w :
  exists css w', fontCSSOf fonts w = (Ok css, w') /\ files w' = files w.
Proof.
  destruct fonts as [|font fonts].
  - exists "", w. split; reflexivity.
  - unfold fontCSSOf, tryCatch, generateFontCSS, bind.
    rewrite ensureDirectory_run, downloadAll_run.
    eexists _, _. split; [reflexivity|].
    now destruct (hasPath w FONTS_DIR).
Qed.

Lemma legacy_paths_distinct name :
  COMPONENT_DIR +:+ "/" +:+ name +:+ ".css" <> componentPathOf name /\
  "react-app/src/App.js" <> componentPathOf name.
Proof.
  unfold componentPathOf. split; intros H.
  - do 3 apply (inj (String.app _)) in H. discriminate.
  - vm_compute in H. congruence.
Qed.

Lemma postApiGenerate_run first rest w :
  exists css w2,
    postApiGenerate (Some (first :: rest)) w =
    match generateComponent (first :: rest) (componentNameOf first) "" with
    | Ok code =>
        (mkResponse 200 (Some true) (Some (extractFontsFromData (first :: rest))) None,
         putFile "react-app/src/App.js" (appjs (componentNameOf first))
           (putFile (COMPONENT_DIR +:+ "/" +:+ componentNameOf first +:+ ".css") css
              (putFile (componentPathOf (componentNameOf first)) code w2)))
    | Throw e => (mkResponse 500 None None (Some e), w2)
    end.
Proof.
  unfold postApiGenerate, respond, bind at 1.
  rewrite ensureDirectory_run. unfold bind at 1.
  destruct (fontCSSOf_run (extractFontsFromData (first :: rest))
              (if hasPath w COMPONENT_DIR then w else addDir COMPONENT_DIR w))
    as (css & w2 & E & _).
  rewrite E. exists css, w2. unfold bind, lift.
  change (generateComponent (first :: rest) (componentNameOf first) css)
    with (generateComponent (first :: rest) (componentNameOf first) "").
  destruct (generateComponent _ _ ""); reflexivity.
Qed.

Lemma legacy_compile_twice first rest w :
  status (fst (postApiGenerate (Some (first :: rest)) w)) = 200%nat ->
  let w1 := snd (postApiGenerate (Some (first :: rest)) w) in
  exists code,
    generateComponent (first :: rest) (componentNameOf first) "" = Ok code /\
    files w1 !! componentPathOf (componentNameOf first) = Some code /\
    fst (postApiGenerate (Some (first :: rest)) w1) =
      fst (postApiGenerate (Some (first :: rest)) w) /\
    files (snd (postApiGenerate (Some (first :: rest)) w1))
      !! componentPathOf (componentNameOf first) = Some code.
Proof.
  destruct (legacy_paths_distinct (componentNameOf first)) as [Hc Ha].
  destruct (postApiGenerate_run first rest w) as (css & w2 & E). rewrite E.
  destruct (generateComponent (first :: rest) (componentNameOf first) "")
    as [code|e] eqn:G; [|discriminate].
  intros _. cbv zeta. cbn [fst snd]. exists code.
  split; [reflexivity|]. split.
  { rewrite !files_putFile_ne by assumption. apply files_putFile_eq. }
  match goal with
  | |- context [postApiGenerate _ ?W] =>
      destruct (postApiGenerate_run first rest W) as (css' & w2' & E')
  end.
  rewrite E', G. cbn [fst snd]. split; [reflexivity|].
  rewrite !files_putFile_ne by assumption. apply files_putFile_eq.
Qed.
End LegacyEndpoint.

(** ** Determinism *)
Section Determinism.
Import JS Model Markup Host.

(** C8.  Compiling the same payload twice gives the same text.  When a
    request succeeds, the component file holds a text that is a function of
    the payload alone; repeating the request in the world the first one
    left gives the same answer and the same text.  In the plain server the
    identifiers start afresh in every call and a subtree uses as many
    consecutive identifiers as it has nodes, in depth-first pre-order. *)
Theorem compile_twice_identical
    (data : Server.Payload) (first : Node) (rest : list Node) (w : World) :
  Server.status (fst (Server.postGenerateComponent (Some data) w)) = 200%nat ->
  Legacy.status (fst (Legacy.postApiGenerate (Some (first :: rest)) w)) = 200%nat ->
  (let path := Server.componentPathOf (Server.componentNameOf data) in
   let code := Server.generateComponentCode data (Server.componentNameOf data) in
   let w1 := snd (Server.postGenerateComponent (Some data) w) in
   files w1 !! path = Some code /\
   fst (Server.postGenerateComponent (Some data) w1) =
     fst (Server.postGenerateComponent (Some data) w) /\
   files (snd (Server.postGenerateComponent (Some data) w1)) !! path = Some code) /\
  (let path := Legacy.componentPathOf (Legacy.componentNameOf first) in
   let w1 := snd (Legacy.postApiGenerate (Some (first :: rest)) w) in
   exists code,
     Legacy.generateComponent (first :: rest) (Legacy.componentNameOf first) "" = Ok code /\
     files w1 !! path = Some code /\
     fst (Legacy.postApiGenerate (Some (first :: rest)) w1) =
       fst (Legacy.postApiGenerate (Some (first :: rest)) w) /\
     files (snd (Legacy.postApiGenerate (Some (first :: rest)) w1)) !! path = Some code) /\
  (forall node depth parentX parentY nodeCounter,
      snd (Server.generateNodeComponent node depth parentX parentY nodeCounter) =
        (nodeCounter + Server.nodeCount node)%nat /\
      includes (fst (Server.generateNodeComponent node depth parentX parentY nodeCounter))
        ("key=" +:+ dq +:+ Server.nodeId nodeCounter +:+ dq) = true).
Proof.
  intros HS HL. split; [|split].
  - exact (server_compile_twice data w HS).
  - exact (legacy_compile_twice first rest w HL).
  - intros node depth parentX parentY nodeCounter. split.
    + apply generateNodeComponent_counter.
    + rewrite generateNodeComponent_markup. apply assemble_key.
Qed.

(** C8 at the card of the specification, on a machine without the
    project. *)
Lemma compile_twice_identical_witness :
  Server.status
    (fst (Server.postGenerateComponent (Some (Server.PArray [Inputs.card]))
            Inputs.freshWorld)) = 200%nat /\
  Legacy.status
    (fst (Legacy.postApiGenerate (Some [Inputs.card]) Inputs.freshWorld)) = 200%nat /\
  files
    (snd (Server.postGenerateComponent (Some (Server.PArray [Inputs.card]))
            Inputs.freshWorld))
    !! Server.componentPathOf "Card" =
  Some (Server.generateComponentCode (Server.PArray [Inputs.card]) "Card").
Proof.
  assert (HS : Server.status
                 (fst (Server.postGenerateComponent
                         (Some (Server.PArray [Inputs.card])) Inputs.freshWorld))
               = 200%nat) by (vm_compute; reflexivity).
  assert (HL : Legacy.status
                 (fst (Legacy.postApiGenerate (Some [Inputs.card]) Inputs.freshWorld))
               = 200%nat) by (vm_compute; reflexivity).
  split; [exact HS|]. split; [exact HL|].
  exact (proj1 (proj1 (compile_twice_identical (Server.PArray [Inputs.card])
                         Inputs.card [] Inputs.freshWorld HS HL))).
Defined.
End Determinism.

(** ** The set of requested fonts *)
Section FontSet.
Import JS Model Markup Host Legacy Views Criteria.

Lemma nodesOf_eq a cs :
  nodesOf (mkNode a cs) =
  mkNode a cs :: match cs with Some cs => flat_map nodesOf cs | None => [] end.
Proof. reflexivity. Qed.

Lemma Forall_flat_map {A B} (P : B -> Prop) (f : A -> list B) (l : list A) :
  Forall P (flat_map f l) -> Forall (fun a => Forall P (f a)) l.
Proof.
  induction l as [|a l IH]; [constructor|]. cbn [flat_map].
  intros H. apply Forall_app in H as [H1 H2]. constructor; [exact H1 | now apply IH].
Qed.

Lemma setAdd_elem font f fonts : f ∈ setAdd font fonts <-> f ∈ fonts \/ f = font.
Proof.
  unfold setAdd. case_bool_decide as H.
  - split; [auto | intros [?| ->]; assumption].
  - rewrite elem_of_app, list_elem_of_singleton. tauto.
Qed.

Lemma setAdd_NoDup font fonts : NoDup fonts -> NoDup (setAdd font fonts).
Proof.
  intros H. unfold setAdd. case_bool_decide as Hin; [exact H|].
  apply NoDup_app. repeat split; [exact H | | apply NoDup_singleton].
  intros x Hx Hx'. apply list_elem_of_singleton in Hx'. now subst.
Qed.

Lemma ownFont_elem a cs f fonts :
  f ∈ ownFont a fonts <-> f ∈ fonts \/ contributes (mkNode a cs) f.
Proof.
  unfold ownFont, contributes. cbn [attrs].
  destruct (fontFamily a) as [family|].
  2: { split; [auto | intros [H | (fam & H & _)]; [exact H | discriminate]]. }
  destruct (String.eqb_spec family "") as [->|Hne].
  { split; [auto | intros [H | (fam & [= <-] & H & _)]; [exact H | congruence]]. }
  cbv zeta. destruct (String.eqb_spec (cleanFontFamily family) "") as [E|Hc];
    cbn [negb andb].
  { split; [auto | intros [H | (fam & [= <-] & _ & <- & H & _)]; [exact H | congruence]]. }
  destruct (isSystemFont (cleanFontFamily family)) eqn:S; cbn [negb].
  { split; [auto | intros [H | (fam & [= <-] & _ & <- & _ & H)]; [exact H | congruence]]. }
  rewrite setAdd_elem. split.
  - intros [H | ->]; [now left | right]. now exists family.
  - intros [H | (fam & [= <-] & _ & <- & _)]; auto.
Qed.

Lemma ownFont_NoDup a fonts : NoDup fonts -> NoDup (ownFont a fonts).
Proof.
  intros H. unfold ownFont. destruct (fontFamily a) as [family|]; [|exact H].
  destruct (String.eqb family ""); [exact H|]. cbv zeta.
  destruct (_ && _); [now apply setAdd_NoDup | exact H].
Qed.

Lemma fold_traverse_elem (cs : list Node) f :
  Forall (fun c => forall fonts,
            f ∈ traverse c fonts <->
            f ∈ fonts \/ exists n, n ∈ nodesOf c /\ contributes n f) cs ->
  forall fonts,
    f ∈ fold_left (fun acc child => traverse child acc) cs fonts <->
    f ∈ fonts \/ exists n, n ∈ flat_map nodesOf cs /\ contributes n f.
Proof.
  induction 1 as [|c cs Hc _ IH]; intros fonts; cbn [fold_left flat_map].
  - split; [auto | intros [H | (n & H & _)]; [exact H | now apply elem_of_nil in H]].
  - rewrite IH, Hc. split.
    + intros [[H | (n & Hn & Hf)] | (n & Hn & Hf)]; [now left | right..];
        exists n; (split; [apply elem_of_app; auto | exact Hf]).
    + intros [H | (n & Hn & Hf)]; [now left; left|].
      apply elem_of_app in Hn as [Hn | Hn]; [left; right | right]; now exists n.
Qed.

Lemma traverse_elem (node : Node) f :
  forall fonts,
    f ∈ traverse node fonts <->
    f ∈ fonts \/ exists n, n ∈ nodesOf node /\ contributes n f.
Proof.
  induction node as [a | a cs IH] using Node_ind'; intros fonts;
    rewrite traverse_eq, nodesOf_eq.
  - rewrite (ownFont_elem a None). split.
    + intros [H | H]; [now left | right].
      exists (mkNode a None). split; [left | exact H].
    + intros [H | (n & Hn & Hf)]; [now left | right].
      apply list_elem_of_singleton in Hn. now subst.
  - rewrite (fold_traverse_elem cs f IH), (ownFont_elem a (Some cs)). split.
    + intros [[H | H] | (n & Hn & Hf)]; [now left | right..].
      * exists (mkNode a (Some cs)). split; [left | exact H].
      * exists n. split; [now right | exact Hf].
    + intros [H | (n & Hn & Hf)]; [now left; left|].
      apply elem_of_cons in Hn as [-> | Hn]; [left; now right | right; now exists n].
Qed.

Lemma fold_traverse_NoDup (cs : list Node) :
  Forall (fun c => forall fonts, NoDup fonts -> NoDup (traverse c fonts)) cs ->
  forall fonts, NoDup fonts ->
    NoDup (fold_left (fun acc child => traverse child acc) cs fonts).
Proof.
  induction 1 as [|c cs Hc _ IH]; intros fonts Hf; [exact Hf|].
  simpl. apply IH, Hc, Hf.
Qed.

Lemma traverse_NoDup (node : Node) :
  forall fonts, NoDup fonts -> NoDup (traverse node fonts).
Proof.
  induction node as [a | a cs IH] using Node_ind'; intros fonts Hf;
    rewrite traverse_eq.
  - now apply ownFont_NoDup.
  - apply fold_traverse_NoDup; [exact IH | now apply ownFont_NoDup].
Qed.

(** The fonts of a payload are those some node contributes. *)
Lemma extractFontsFromData_elem (data : list Node) (font : string) :
  font ∈ extractFontsFromData data <->
  exists node, node ∈ flat_map nodesOf data /\ contributes node font.
Proof.
  unfold extractFontsFromData. rewrite (fold_traverse_elem data font).
  - split; [intros [H | H]; [now apply elem_of_nil in H | exact H] | now right].
  - apply Forall_forall. intros c _. apply traverse_elem.
Qed.

(** X1.  [extractFontsFromData] returns a set: no font twice, and a font is
    returned exactly when some node of the payload, at any depth and whether
    visible or not, has a non-empty [fontFamily] whose cleaned first family
    is that font, is not empty and is not a system font. *)
Theorem extracted_fonts_exact (data : list Node) (font : string) :
  NoDup (extractFontsFromData data) /\
  (font ∈ extractFontsFromData data <->
   exists node family,
     node ∈ flat_map nodesOf data /\
     fontFamily (attrs node) = Some family /\ family <> "" /\
     cleanFontFamily family = font /\ font <> "" /\ isSystemFont font = false).
Proof.
  split.
  - unfold extractFontsFromData. apply fold_traverse_NoDup; [|constructor].
    apply Forall_forall. intros c _. apply traverse_NoDup.
  - rewrite extractFontsFromData_elem. unfold contributes. split.
    + intros (n & Hn & fam & Hf). now exists n, fam.
    + intros (n & fam & Hn & Hf). exists n. split; [exact Hn | now exists fam].
Qed.
End FontSet.

(** ** The style object of server/index.js *)
Section LegacyStyles.
Import JS Model Markup Host Legacy Typography Views Criteria.

Lemma typographyStyles_statements a st :
  typographyStyles a st =
  letterSpacingOf a (lineHeightOf a (alignmentOf a (fontFamilyOf a (fontWeightOf a
    (fontSizeOf a (centringOf a (overflowOf a (whiteSpaceOf a st)))))))).
Proof. reflexivity. Qed.

Lemma getKey_setIf_ne c k k' v st : k <> k' -> getKey k (setIf c k' v st) = getKey k st.
Proof. intros H. unfold setIf. destruct c; [now apply getKey_setKey_ne | reflexivity]. Qed.

(** A key that the hypothesis puts outside a list differs from a member. *)
Ltac other_key Hk :=
  let E := fresh in
  intros E; apply Hk; rewrite E; apply list_elem_of_In; simpl; tauto.

Ltac skip_sets Hk :=
  repeat first
    [ rewrite getKey_setKey_ne by other_key Hk
    | rewrite getKey_setIf_ne by other_key Hk ].

Ltac head_cases :=
  repeat match goal with
         | |- getKey _ (if ?c then _ else _) = _ => destruct c
         | |- getKey _ (match ?d with _ => _ end) = _ => destruct d
         end.

Ltac skip_fixed :=
  repeat first
    [ rewrite getKey_setKey_ne by discriminate
    | rewrite getKey_setIf_ne by discriminate ].

Ltac walk := repeat first [progress head_cases | progress skip_fixed].

Ltac not_typography :=
  let H := fresh in
  intros H; apply list_elem_of_In in H; simpl in H;
  repeat (destruct H as [H|H]; [discriminate H|]); exact H.

Lemma getKey_typography_other k a st :
  k ∉ typographyKeys -> getKey k (typographyStyles a st) = getKey k st.
Proof.
  intros Hk. rewrite typographyStyles_statements.
  transitivity (getKey k (lineHeightOf a (alignmentOf a (fontFamilyOf a (fontWeightOf a
    (fontSizeOf a (centringOf a (overflowOf a (whiteSpaceOf a st))))))))).
  { unfold letterSpacingOf. head_cases; skip_sets Hk; reflexivity. }
  transitivity (getKey k (alignmentOf a (fontFamilyOf a (fontWeightOf a
    (fontSizeOf a (centringOf a (overflowOf a (whiteSpaceOf a st)))))))).
  { unfold lineHeightOf. head_cases; skip_sets Hk; reflexivity. }
  transitivity (getKey k (fontFamilyOf a (fontWeightOf a
    (fontSizeOf a (centringOf a (overflowOf a (whiteSpaceOf a st))))))).
  { unfold alignmentOf. cbv zeta. head_cases; skip_sets Hk; reflexivity. }
  unfold fontFamilyOf, fontWeightOf, fontSizeOf. skip_sets Hk.
  transitivity (getKey k (overflowOf a (whiteSpaceOf a st))).
  { unfold centringOf. head_cases; skip_sets Hk; reflexivity. }
  unfold overflowOf, whiteSpaceOf. head_cases; skip_sets Hk; reflexivity.
Qed.

Lemma shadowStyle_other a st0 st1 k :
  shadowStyle a st0 = Ok st1 -> k <> "boxShadow" -> getKey k st1 = getKey k st0.
Proof.
  unfold shadowStyle. intros H Hk.
  destruct (effects a) as [[|e es]|]; try (injection H as <-; reflexivity).
  destruct (List.find _ _) as [shadow|]; [|injection H as <-; reflexivity].
  destruct (offset shadow); [|discriminate].
  injection H as <-. now apply getKey_setKey_ne.
Qed.

(** Outside the typography block, the shadow and the radius, the style
    object is the one the box statements build. *)
Lemma getCommonStyles_other node st k :
  getCommonStyles node = Ok st ->
  k ∉ typographyKeys -> k <> "boxShadow" -> k <> "borderRadius" ->
  getKey k st = getKey k (boxStyles (attrs node)).
Proof.
  unfold getCommonStyles. cbv zeta. intros H Hk Hs Hr.
  destruct (shadowStyle _ _) as [st1|] eqn:S; [|discriminate].
  injection H as <-. rewrite getKey_setIf_ne by exact Hr.
  destruct (String.eqb _ "TEXT").
  - rewrite getKey_typography_other by exact Hk. eapply shadowStyle_other; eauto.
  - eapply shadowStyle_other; eauto.
Qed.

(** X4.  In server/index.js every element that is emitted is positioned
    absolutely at the node's own [x] and [y] with the node's own [width] and
    [height]: none of the later statements of [getCommonStyles] (rotation,
    fill, border, shadow, typography, radius) changes these five entries,
    and no coordinate of a parent enters them. *)
Theorem box_emitted_verbatim (node : Node) (st : Styles) :
  getCommonStyles node = Ok st ->
  getKey "position" st = Some (VStr "absolute") /\
  getKey "left" st = Some (VStr (showOptZ (x (attrs node)) +:+ "px")) /\
  getKey "top" st = Some (VStr (showOptZ (y (attrs node)) +:+ "px")) /\
  getKey "width" st = Some (px (width (attrs node))) /\
  getKey "height" st = Some (px (height (attrs node))).
Proof.
  intros H.
  repeat split;
    (rewrite (getCommonStyles_other _ _ _ H) by (first [not_typography | discriminate]));
    unfold boxStyles; cbv zeta; walk; reflexivity.
Qed.

(** X4 at the title of the poster. *)
Lemma box_emitted_verbatim_witness :
  getCommonStyles Samples.title = Ok Samples.titleStyles /\
  getKey "left" Samples.titleStyles = Some (VStr "10px") /\
  getKey "width" Samples.titleStyles = Some (VStr "40px").
Proof.
  assert (H : getCommonStyles Samples.title = Ok Samples.titleStyles)
    by (vm_compute; reflexivity).
  split; [exact H|].
  pose proof (box_emitted_verbatim Samples.title Samples.titleStyles H)
    as (_ & Hl & _ & Hw & _).
  split; [exact Hl | exact Hw].
Defined.



Lemma getKey_fontFamily_typography a st :
  getKey "fontFamily" (typographyStyles a st) =
  if truthyStr (fontFamily a)
  then Some (VStr (cleanFontFamily (default "" (fontFamily a))))
  else getKey "fontFamily" st.
Proof.
  rewrite typographyStyles_statements.
  transitivity (getKey "fontFamily" (lineHeightOf a (alignmentOf a (fontFamilyOf a
    (fontWeightOf a (fontSizeOf a (centringOf a (overflowOf a (whiteSpaceOf a st))))))))).
  { unfold letterSpacingOf. walk; reflexivity. }
  transitivity (getKey "fontFamily" (alignmentOf a (fontFamilyOf a (fontWeightOf a
    (fontSizeOf a (centringOf a (overflowOf a (whiteSpaceOf a st)))))))).
  { unfold lineHeightOf. walk; reflexivity. }
  transitivity (getKey "fontFamily" (fontFamilyOf a (fontWeightOf a
    (fontSizeOf a (centringOf a (overflowOf a (whiteSpaceOf a st))))))).
  { unfold alignmentOf. cbv zeta. walk; reflexivity. }
  unfold fontFamilyOf, setIf. destruct (truthyStr (fontFamily a)).
  { apply getKey_setKey_eq. }
  unfold fontWeightOf, fontSizeOf. skip_fixed.
  transitivity (getKey "fontFamily" (overflowOf a (whiteSpaceOf a st))).
  { unfold centringOf. walk; reflexivity. }
  unfold overflowOf, whiteSpaceOf. walk; reflexivity.
Qed.

Lemma getKey_fontFamily_box a : getKey "fontFamily" (boxStyles a) = None.
Proof. unfold boxStyles. cbv zeta. walk; reflexivity. Qed.

Lemma getCommonStyles_fontFamily node st :
  getCommonStyles node = Ok st ->
  getKey "fontFamily" st =
  if String.eqb (type (attrs node)) "TEXT" && truthyStr (fontFamily (attrs node))
  then Some (VStr (cleanFontFamily (default "" (fontFamily (attrs node)))))
  else None.
Proof.
  unfold getCommonStyles. cbv zeta. intros H.
  destruct (shadowStyle _ _) as [st1|] eqn:S; [|discriminate].
  injection H as <-. rewrite getKey_setIf_ne by discriminate.
  pose proof (shadowStyle_other _ _ _ "fontFamily" S ltac:(discriminate)) as E.
  rewrite getKey_fontFamily_box in E.
  destruct (String.eqb _ "TEXT"); cbn [andb]; [|exact E].
  rewrite getKey_fontFamily_typography, E. reflexivity.
Qed.

(** X2.  The font stage and the style stage of server/index.js agree: a
    font family that the style object of any node of the payload names is
    empty, or a system font, or among the fonts [extractFontsFromData]
    returns for the payload. *)
Theorem styled_families_are_requested
    (data : list Node) (node : Node) (st : Styles) (family : string) :
  node ∈ flat_map nodesOf data ->
  getCommonStyles node = Ok st ->
  getKey "fontFamily" st = Some (VStr family) ->
  family = "" \/ isSystemFont family = true \/ family ∈ extractFontsFromData data.
Proof.
  intros Hn Hs Hk. rewrite (getCommonStyles_fontFamily _ _ Hs) in Hk.
  destruct (String.eqb _ "TEXT"); [|discriminate]. cbn [andb] in Hk.
  unfold truthyStr in Hk.
  destruct (fontFamily (attrs node)) as [f0|] eqn:F; [|discriminate].
  destruct (String.eqb_spec f0 ""); [discriminate|]. cbn [negb default] in Hk.
  injection Hk as <-.
  destruct (String.eqb_spec (cleanFontFamily f0) "") as [E|E]; [now left|].
  destruct (isSystemFont (cleanFontFamily f0)) eqn:S; [right; now left|].
  right; right. apply extractFontsFromData_elem. exists node.
  split; [exact Hn|]. now exists f0.
Qed.

(** X2 at the poster: the family of its title is requested. *)
Lemma styled_families_are_requested_witness :
  Samples.title ∈ flat_map nodesOf [Samples.poster] /\
  getCommonStyles Samples.title = Ok Samples.titleStyles /\
  getKey "fontFamily" Samples.titleStyles = Some (VStr "Playfair Display") /\
  ("Playfair Display" = "" \/ isSystemFont "Playfair Display" = true \/
   "Playfair Display" ∈ extractFontsFromData [Samples.poster]).
Proof.
  assert (H1 : Samples.title ∈ flat_map nodesOf [Samples.poster])
    by (apply list_elem_of_In; simpl; tauto).
  assert (H2 : getCommonStyles Samples.title = Ok Samples.titleStyles)
    by (vm_compute; reflexivity).
  assert (H3 : getKey "fontFamily" Samples.titleStyles = Some (VStr "Playfair Display"))
    by (vm_compute; reflexivity).
  exact (conj H1 (conj H2 (conj H3
           (styled_families_are_requested [Samples.poster] Samples.title
              Samples.titleStyles "Playfair Display" H1 H2 H3)))).
Defined.
End LegacyStyles.

(** ** Requests that succeed and requests that fail *)
Section LegacyRequests.
Import JS Model Markup Host Legacy Views Criteria.

Lemma shadowStyle_complete a st :
  shadowsComplete a = true -> exists st', shadowStyle a st = Ok st'.
Proof.
  unfold shadowsComplete, shadowStyle. intros H.
  destruct (effects a) as [[|e es]|]; try (now eexists).
  cbn [default] in H.
  destruct (List.find isVisibleDropShadow (e :: es)) as [shadow|] eqn:F; [|now eexists].
  apply find_some in F as [Hin Hv].
  rewrite forallb_forall in H. specialize (H _ Hin). rewrite Hv in H. cbn in H.
  apply bool_decide_eq_true in H as [o ->]. now eexists.
Qed.




(** What a request with a first root does: the font stage writes no file,
    and the rest depends on [generateComponent] alone. *)
Lemma postApiGenerate_outcome first rest w :
  exists css w',
    files w' = files w /\
    postApiGenerate (Some (first :: rest)) w =
    match generateComponent (first :: rest) (componentNameOf first) "" with
    | Ok code =>
        (mkResponse 200 (Some true) (Some (extractFontsFromData (first :: rest))) None,
         putFile "react-app/src/App.js" (appjs (componentNameOf first))
           (putFile (COMPONENT_DIR +:+ "/" +:+ componentNameOf first +:+ ".css") css
              (putFile (componentPathOf (componentNameOf first)) code w')))
    | Throw e => (mkResponse 500 None None (Some e), w')
    end.
Proof.
  unfold postApiGenerate, respond, bind at 1.
  rewrite ensureDirectory_run. unfold bind at 1.
  destruct (fontCSSOf_run (extractFontsFromData (first :: rest))
              (if hasPath w COMPONENT_DIR then w else addDir COMPONENT_DIR w))
    as (css & w2 & E & Hf).
  rewrite E. exists css, w2. split.
  { rewrite Hf. now destruct (hasPath w COMPONENT_DIR). }
  unfold bind, lift.
  change (generateComponent (first :: rest) (componentNameOf first) css)
    with (generateComponent (first :: rest) (componentNameOf first) "").
  destruct (generateComponent _ _ ""); reflexivity.
Qed.



(** X7.  A first root without a [children] array (a lone text layer, or a
    frame the plugin exported as one vector) cannot be compiled by
    server/index.js: [generateComponent] reads [root.children.map] and
    raises the TypeError, whatever the other roots are.  The request is
    then answered 500 and changes no file (an operation that the file
    system refuses is answered 500 as well). *)
Theorem childless_root_rejected
    (first : Node) (rest : list Node) (name fontCSS : string) (w : World) :
  children first = None ->
  generateComponent (first :: rest) name fontCSS =
    Throw "Cannot read properties of undefined (reading 'map')" /\
  status (fst (postApiGenerate (Some (first :: rest)) w)) = 500%nat /\
  files (snd (postApiGenerate (Some (first :: rest)) w)) = files w.
Proof.
  intros Hc.
  assert (G : forall n css,
             generateComponent (first :: rest) n css =
             Throw "Cannot read properties of undefined (reading 'map')")
    by (intros n css; unfold generateComponent; now rewrite Hc).
  split; [apply G|].
  destruct (postApiGenerate_outcome first rest w) as (css & w' & Hf & E).
  rewrite E, G. cbn [fst snd status]. split; [reflexivity | exact Hf].
Qed.

(** X7 at a lone label. *)
Lemma childless_root_rejected_witness :
  children Inputs.label = None /\
  status (fst (postApiGenerate (Some [Inputs.label]) Inputs.freshWorld)) = 500%nat /\
  files (snd (postApiGenerate (Some [Inputs.label]) Inputs.freshWorld)) = ∅.
Proof.
  assert (H : children Inputs.label = None) by reflexivity.
  exact (conj H (proj2 (childless_root_rejected Inputs.label [] "Label" ""
                          Inputs.freshWorld H))).
Defined.

Lemma files_addDir d w : files (addDir d w) = files w.
Proof. reflexivity. Qed.

(** X8.  A request changes no file but its own: /api/generate writes at
    most the component file, its stylesheet and src/App.js; once the
    project is in place, /generate-component writes at most the component
    file, its stylesheet and one of src/App.js and src/App.jsx.  Every other
    path keeps its content. *)
Theorem requests_write_only_their_files
    (first : Node) (rest : list Node) (data : Server.Payload) (w : World)
    (path : string) :
  (path <> componentPathOf (componentNameOf first) ->
   path <> COMPONENT_DIR +:+ "/" +:+ componentNameOf first +:+ ".css" ->
   path <> "react-app/src/App.js" ->
   files (snd (postApiGenerate (Some (first :: rest)) w)) !! path = files w !! path) /\
  (hasPath w Server.PROJECT_DIR = true ->
   path <> Server.componentPathOf (Server.componentNameOf data) ->
   path <> Server.COMPONENTS_DIR +:+ "/" +:+ Server.componentNameOf data +:+ ".css" ->
   path <> Server.SRC_DIR +:+ "/App.js" ->
   path <> Server.SRC_DIR +:+ "/App.jsx" ->
   files (snd (Server.postGenerateComponent (Some data) w)) !! path = files w !! path).
Proof.
  split.
  - intros H1 H2 H3.
    destruct (postApiGenerate_outcome first rest w) as (css & w' & Hf & E).
    rewrite E. destruct (generateComponent _ _ _); cbn [snd].
    + rewrite !files_putFile_ne by congruence. now rewrite Hf.
    + now rewrite Hf.
  - intros Hex H1 H2 H3 H4.
    rewrite postGenerateComponent_run, createReactApp_run, Hex. cbn [snd].
    unfold Server.written. cbv zeta.
    match goal with |- context [hasPath ?W (Server.SRC_DIR +:+ "/App.js")] =>
      destruct (hasPath W (Server.SRC_DIR +:+ "/App.js")) end;
      rewrite !files_putFile_ne by congruence;
      now destruct (hasPath w Server.COMPONENTS_DIR).
Qed.
End LegacyRequests.

(** ** Component names *)
Section Names.
Import JS Model Markup Host.


End Names.

(** ** Escaped values *)
Section EscapedValues.
Import JS Model Markup Host Criteria Literals.

Lemma escapeSvg_cons a s :
  Legacy.escapeSvg (String a s) = svgEscapeChar a +:+ Legacy.escapeSvg s.
Proof.
  unfold Legacy.escapeSvg.
  rewrite (replaceChar_cons "092"), !replaceChar_app. f_equal.
  destruct a as [[] [] [] [] [] [] [] []]; reflexivity.
Qed.

Lemma readLiteral_svgEscapeChar a rest :
  readLiteral (svgEscapeChar a +:+ rest) =
  match readLiteral rest with Some r => Some (String a r) | None => None end.
Proof. destruct a as [[] [] [] [] [] [] [] []]; reflexivity. Qed.

(** X10.  The escaping of [node.svg] in server/index.js loses nothing:
    read by the rules of a single-quoted string literal, the escaped markup
    denotes the markup itself, whatever backslashes, quotes of either kind
    and line breaks it holds; hence the escaping is injective. *)
Theorem escapeSvg_roundtrip :
  (forall markup : string, readLiteral (Legacy.escapeSvg markup) = Some markup) /\
  (forall s1 s2 : string, Legacy.escapeSvg s1 = Legacy.escapeSvg s2 -> s1 = s2).
Proof.
  assert (R : forall markup, readLiteral (Legacy.escapeSvg markup) = Some markup).
  { intros markup. induction markup as [|a s IH]; [reflexivity|].
    now rewrite escapeSvg_cons, readLiteral_svgEscapeChar, IH. }
  split; [exact R|].
  intros s1 s2 E. pose proof (R s1) as H1. rewrite E, R in H1. congruence.
Qed.

Lemma escapeQuote_quote s :
  Server.escapeQuote (String "'" s) = String "092" (String "'" (Server.escapeQuote s)).
Proof. reflexivity. Qed.

Lemma escapeQuote_other a s :
  a <> "'"%char -> Server.escapeQuote (String a s) = String a (Server.escapeQuote s).
Proof.
  intros H. unfold Server.escapeQuote. cbn [replaceChar].
  destruct (Ascii.eqb_spec a "'"); [congruence | reflexivity].
Qed.

Lemma readLiteral_plain c t :
  c <> "'"%char -> plainChar c ->
  readLiteral (String c t) =
  match readLiteral t with Some rest => Some (String c rest) | None => None end.
Proof.
  intros Hq (Hb & Hn & Hr). cbn [readLiteral].
  destruct (Ascii.eqb_spec c "092"); [congruence|].
  destruct (Ascii.eqb_spec c "'"); [congruence|].
  destruct (Ascii.eqb_spec c "010"); [congruence|].
  destruct (Ascii.eqb_spec c "013"); [congruence|]. reflexivity.
Qed.

Lemma readLiteral_break c t :
  c = "010"%char \/ c = "013"%char -> readLiteral (String c t) = None.
Proof. intros [-> | ->]; reflexivity. Qed.

Lemma escapeQuote_read_plain v :
  Forall plainChar (list_ascii_of_string v) ->
  readLiteral (Server.escapeQuote v) = Some v.
Proof.
  induction v as [|c v IH]; [reflexivity|]. cbn [list_ascii_of_string].
  intros H. apply Forall_cons in H as [Hc H]. specialize (IH H).
  destruct (Ascii.eqb_spec c "'") as [->|Hq].
  - rewrite escapeQuote_quote. cbn. now rewrite IH.
  - rewrite escapeQuote_other, readLiteral_plain, IH by assumption. reflexivity.
Qed.

(** Reading a quote-escaped value gives the value, or something shorter. *)
Lemma escapeQuote_read_shorter n :
  forall v r, (String.length v <= n)%nat ->
    readLiteral (Server.escapeQuote v) = Some r ->
    (Forall plainChar (list_ascii_of_string v) /\ r = v) \/
    (String.length r < String.length v)%nat.
Proof.
  induction n as [n IH] using lt_wf_ind. intros v r Hn Hr.
  destruct v as [|c v]; [left; split; [constructor | now injection Hr]|].
  cbn [String.length] in Hn.
  destruct (Ascii.eqb_spec c "'") as [->|Hq].
  { rewrite escapeQuote_quote in Hr. cbn in Hr.
    destruct (readLiteral (Server.escapeQuote v)) as [r'|] eqn:E; [|discriminate].
    injection Hr as <-.
    destruct (IH (String.length v) ltac:(lia) v r' ltac:(lia) E) as [[Hp ->] | Hl].
    - left. split; [|reflexivity]. cbn [list_ascii_of_string]. constructor; [|exact Hp].
      repeat split; discriminate.
    - right. cbn [String.length]. lia. }
  rewrite escapeQuote_other in Hr by exact Hq.
  destruct (Ascii.eqb_spec c "010") as [->|Hn'];
    [rewrite readLiteral_break in Hr by auto; discriminate|].
  destruct (Ascii.eqb_spec c "013") as [->|Hr'];
    [rewrite readLiteral_break in Hr by auto; discriminate|].
  destruct (Ascii.eqb_spec c "092") as [->|Hb].
  - right. destruct v as [|d v]; [discriminate Hr|].
    destruct (Ascii.eqb_spec d "'") as [->|Hd].
    + rewrite escapeQuote_quote in Hr. cbn in Hr. discriminate.
    + rewrite escapeQuote_other in Hr by exact Hd.
      cbn [readLiteral] in Hr. change (Ascii.eqb "092" "092") with true in Hr.
      cbv iota in Hr.
      destruct (escapeValue d) as [x|]; [|discriminate].
      destruct (readLiteral (Server.escapeQuote v)) as [r'|] eqn:E; [|discriminate].
      injection Hr as <-. cbn [String.length] in *.
      destruct (IH (String.length v) ltac:(lia) v r' ltac:(lia) E) as [[_ ->] | Hl]; lia.
  - rewrite readLiteral_plain in Hr by (repeat split; assumption).
    destruct (readLiteral (Server.escapeQuote v)) as [r'|] eqn:E; [|discriminate].
    injection Hr as <-.
    destruct (IH (String.length v) ltac:(lia) v r' ltac:(lia) E) as [[Hp ->] | Hl].
    + left. split; [|reflexivity]. cbn [list_ascii_of_string]. constructor; [|exact Hp].
      repeat split; assumption.
    + right. cbn [String.length]. lia.
Qed.

(** X11.  Style values are written between single quotes with only the
    quotes escaped, by the same replacement in both servers.  Read by the
    rules of a single-quoted string literal, the written text denotes the
    value exactly when the value holds no backslash, no line feed and no
    carriage return: such a value is not protected. *)
Theorem style_value_roundtrip (v : string) :
  Legacy.escapeQuote v = Server.escapeQuote v /\
  (readLiteral (Server.escapeQuote v) = Some v <->
   Forall (fun c => c <> "092"%char /\ c <> "010"%char /\ c <> "013"%char)
     (list_ascii_of_string v)).
Proof.
  split; [reflexivity|]. split.
  - intros H.
    destruct (escapeQuote_read_shorter _ v v (Nat.le_refl _) H) as [[Hp _] | Hl];
      [exact Hp | lia].
  - apply escapeQuote_read_plain.
Qed.
End EscapedValues.

(** ** Style keys of the plain server *)
Section StyleKeys.
Import JS Model Markup Server Criteria.

Lemma toCamelCase_cons2 a c t :
  toCamelCase (String a (String c t)) =
  if Ascii.eqb a "-" && isLowerAlpha c
  then String (upperChar c) (toCamelCase t)
  else String a (toCamelCase (String c t)).
Proof. reflexivity. Qed.

Lemma kebabFree_cons2 a c t :
  kebabFree (String a (String c t)) =
  negb (Ascii.eqb a "-" && isLowerAlpha c) && kebabFree (String c t).
Proof. reflexivity. Qed.

Lemma upperChar_not_lower c : isLowerAlpha c = true -> isLowerAlpha (upperChar c) = false.
Proof. destruct c as [[] [] [] [] [] [] [] []]; intros H; try discriminate H; reflexivity. Qed.

Lemma upperChar_not_hyphen c : isLowerAlpha c = true -> Ascii.eqb (upperChar c) "-" = false.
Proof. destruct c as [[] [] [] [] [] [] [] []]; intros H; try discriminate H; reflexivity. Qed.

Lemma toCamelCase_fixed s : kebabFree s = true -> toCamelCase s = s.
Proof.
  induction s as [|a t IH]; [reflexivity|]. destruct t as [|c t]; [reflexivity|].
  rewrite kebabFree_cons2, toCamelCase_cons2. intros H.
  apply andb_true_iff in H as [H1 H2]. apply negb_true_iff in H1. rewrite H1.
  now rewrite IH.
Qed.

(** The first character of the result is the first character of the string
    or an upper-case letter. *)
Lemma toCamelCase_head a t :
  exists h rest, toCamelCase (String a t) = String h rest /\
                 (h = a \/ isLowerAlpha h = false).
Proof.
  destruct t as [|c t]; [now exists a, ""; auto|].
  rewrite toCamelCase_cons2. destruct (Ascii.eqb a "-" && isLowerAlpha c) eqn:E.
  - apply andb_true_iff in E as [_ E]. eexists _, _. split; [reflexivity|].
    right. now apply upperChar_not_lower.
  - eexists _, _. split; [reflexivity | now left].
Qed.

Lemma toCamelCase_kebabFree_aux n :
  forall s, (String.length s <= n)%nat -> kebabFree (toCamelCase s) = true.
Proof.
  induction n as [n IH] using lt_wf_ind. intros s Hn.
  destruct s as [|a t]; [reflexivity|]. destruct t as [|c t]; [reflexivity|].
  cbn [String.length] in Hn. rewrite toCamelCase_cons2.
  destruct (Ascii.eqb a "-" && isLowerAlpha c) eqn:E.
  - apply andb_true_iff in E as [_ E].
    pose proof (IH (String.length t) ltac:(lia) t ltac:(lia)) as K.
    destruct (toCamelCase t) as [|h rest] eqn:T; [reflexivity|].
    rewrite kebabFree_cons2, K, (upperChar_not_hyphen _ E). reflexivity.
  - pose proof (IH (S (String.length t)) ltac:(lia) (String c t)
                  ltac:(cbn [String.length]; lia)) as K.
    destruct (toCamelCase_head c t) as (h & rest & T & Hh). rewrite T in *.
    rewrite kebabFree_cons2, K, andb_true_r. apply negb_true_iff.
    destruct Hh as [-> | Hh]; [exact E|]. rewrite Hh. apply andb_false_r.
Qed.

Lemma toCamelCase_length_aux n :
  forall s, (String.length s <= n)%nat ->
    (String.length (toCamelCase s) <= String.length s)%nat.
Proof.
  induction n as [n IH] using lt_wf_ind. intros s Hn.
  destruct s as [|a t]; [reflexivity|]. destruct t as [|c t]; [reflexivity|].
  cbn [String.length] in Hn. rewrite toCamelCase_cons2.
  destruct (Ascii.eqb a "-" && isLowerAlpha c).
  - pose proof (IH (String.length t) ltac:(lia) t ltac:(lia)).
    cbn [String.length]. lia.
  - pose proof (IH (S (String.length t)) ltac:(lia) (String c t)
                  ltac:(cbn [String.length]; lia)) as K.
    cbn [String.length] in *. lia.
Qed.

Lemma hyphenFree_kebabFree s :
  Forall (fun c => c <> "-"%char) (list_ascii_of_string s) -> kebabFree s = true.
Proof.
  induction s as [|a t IH]; [reflexivity|]. cbn [list_ascii_of_string].
  intros H. apply Forall_cons in H as [Ha H]. destruct t as [|c t]; [reflexivity|].
  rewrite kebabFree_cons2, IH by exact H.
  destruct (Ascii.eqb_spec a "-"); [congruence | reflexivity].
Qed.

(** X12.  [toCamelCase] is idempotent and never lengthens a string; a
    string without a hyphen (every key the compilers set) is left as it
    is. *)
Theorem toCamelCase_idempotent (str : string) :
  toCamelCase (toCamelCase str) = toCamelCase str /\
  (String.length (toCamelCase str) <= String.length str)%nat /\
  (Forall (fun c => c <> "-"%char) (list_ascii_of_string str) -> toCamelCase str = str).
Proof.
  split; [|split].
  - apply toCamelCase_fixed, (toCamelCase_kebabFree_aux _ str (Nat.le_refl _)).
  - apply (toCamelCase_length_aux _ str (Nat.le_refl _)).
  - intros H. now apply toCamelCase_fixed, hyphenFree_kebabFree.
Qed.

Lemma setKey_fresh k v st : k ∉ keys st -> setKey k v st = st ++ [(k, v)].
Proof.
  induction st as [|[k0 v0] st IH]; [reflexivity|]. cbn [keys List.map fst].
  fold (keys st). intros H. apply not_elem_of_cons in H as [Hne H].
  cbn [setKey]. destruct (String.eqb_spec k0 k); [congruence|].
  now rewrite IH.
Qed.

Lemma normalize_fold st :
  forall acc,
    NoDup (keys acc ++ keys st) ->
    Forall (fun kv => settled kv = true) st ->
    fold_left
      (fun acc kv =>
         if keepValue (snd kv) then setKey (toCamelCase (fst kv)) (snd kv) acc else acc)
      st acc = acc ++ st.
Proof.
  induction st as [|[k v] st IH]; intros acc Hd Hs; [now rewrite app_nil_r|].
  apply Forall_cons in Hs as [Hkv Hs]. unfold settled in Hkv. cbn [fst snd] in Hkv.
  apply andb_true_iff in Hkv as [Hv Hk].
  cbn [fold_left fst snd]. rewrite Hv, (toCamelCase_fixed _ Hk).
  cbn [keys List.map fst] in Hd. fold (keys st) in Hd.
  rewrite setKey_fresh.
  - rewrite IH; [now rewrite <- app_assoc | | exact Hs].
    unfold keys at 1. rewrite List.map_app. cbn [List.map fst]. fold (keys acc).
    now rewrite <- app_assoc.
  - apply NoDup_app in Hd as (_ & Hd & _). intros Hin. apply (Hd _ Hin). left.
Qed.

Lemma normalizeStyles_settled st :
  NoDup (keys st) -> Forall (fun kv => settled kv = true) st -> normalizeStyles st = st.
Proof. intros Hd Hs. unfold normalizeStyles. now rewrite normalize_fold. Qed.

Lemma settled_setKey k v st :
  settled (k, v) = true -> Forall (fun kv => settled kv = true) st ->
  Forall (fun kv => settled kv = true) (setKey k v st).
Proof.
  intros Hkv. induction 1 as [|[k0 v0] st H0 Hs IH]; cbn [setKey].
  - now repeat constructor.
  - destruct (String.eqb_spec k0 k) as [->|]; constructor; assumption.
Qed.

Lemma settled_delKey k st :
  Forall (fun kv => settled kv = true) st ->
  Forall (fun kv => settled kv = true) (delKey k st).
Proof.
  induction 1 as [|[k0 v0] st H0 Hs IH]; cbn [delKey]; [constructor|].
  destruct (String.eqb k0 k); [exact Hs | now constructor].
Qed.

Lemma settled_spread st extra :
  Forall (fun kv => settled kv = true) extra ->
  Forall (fun kv => settled kv = true) st ->
  Forall (fun kv => settled kv = true) (spread st extra).
Proof.
  unfold spread. intros He. revert st.
  induction He as [|[k v] extra Hkv _ IH]; intros st Hs; [exact Hs|].
  cbn [fold_left fst snd]. apply IH. now apply settled_setKey.
Qed.

Lemma append_nonempty a b : b <> "" -> String.eqb (a +:+ b) "" = false.
Proof.
  intros Hb. destruct (String.eqb_spec (a +:+ b) "") as [E|]; [|reflexivity].
  destruct a; [now rewrite append_nil_l in E | discriminate].
Qed.

Lemma keep_px z : keepValue (px z) = true.
Proof. unfold px, keepValue. now rewrite append_nonempty. Qed.

Lemma rgbToColor_nonempty rgb o : String.eqb (rgbToColor rgb o) "" = false.
Proof.
  unfold rgbToColor. destruct rgb as [c|]; [|reflexivity]. cbv zeta.
  destruct (Dltb _ _); reflexivity.
Qed.

Lemma settled_setPx o k st :
  kebabFree k = true -> Forall (fun kv => settled kv = true) st ->
  Forall (fun kv => settled kv = true) (setPx o k st).
Proof.
  intros Hk Hs. unfold setPx. destruct o as [n|]; [|exact Hs].
  destruct (n =? 0); [exact Hs|]. apply settled_setKey; [|exact Hs].
  unfold settled. cbn [fst snd]. now rewrite keep_px, Hk.
Qed.

Lemma join_nonempty sep s l : s <> "" -> join sep (s :: l) <> "".
Proof.
  intros Hs. destruct l as [|t l]; [exact Hs|].
  change (join sep (s :: t :: l)) with (s +:+ sep +:+ join sep (t :: l)).
  destruct s; [congruence | discriminate].
Qed.

Lemma shadowText_nonempty e : shadowText e <> "".
Proof.
  unfold shadowText. cbv zeta. intros E.
  pose proof (append_nonempty (showZ (orZ (vx <$> offset e) 0))
    ("px " +:+ showZ (orZ (vy <$> offset e) 0) +:+ "px " +:+ showZ (orZ (radius e) 0)
     +:+ "px " +:+ match effectColor e with
                   | Some c => rgbToColor (Some c) (Some (ofZ 1))
                   | None => "rgba(0, 0, 0, 0.25)"
                   end) ltac:(discriminate)) as H.
  rewrite E in H. discriminate.
Qed.

Lemma settled_initialStyles node depth :
  Forall (fun kv => settled kv = true) (initialStyles node depth).
Proof.
  unfold initialStyles. cbv zeta. repeat apply settled_spread.
  - unfold getEffectStyles. destruct (effects (attrs node)) as [[|e es]|]; try constructor.
    destruct (List.map shadowText (List.filter isVisibleDropShadow (e :: es)))
      as [|s l] eqn:M; [constructor|].
    repeat constructor. unfold settled. cbn [fst snd keepValue].
    rewrite andb_true_r. apply negb_true_iff.
    destruct (String.eqb_spec (join ", " (s :: l)) "") as [E|]; [|reflexivity].
    exfalso. revert E. apply join_nonempty.
    assert (Hin : In s (List.map shadowText (List.filter isVisibleDropShadow (e :: es))))
      by (rewrite M; now left).
    apply in_map_iff in Hin as (e' & <- & _). apply shadowText_nonempty.
  - unfold getBorderStyle. destruct (strokes (attrs node)) as [[|s ?]|]; try constructor.
    destruct (_ && _); [|constructor].
    repeat constructor; unfold settled; cbn [fst snd].
    + now rewrite keep_px.
    + cbn [keepValue]. now rewrite rgbToColor_nonempty.
  - destruct (_ || _); [constructor|].
    unfold getBackgroundStyle. destruct (fills (attrs node)) as [[|f ?]|]; try constructor.
    destruct (_ && _); [|constructor].
    repeat constructor. unfold settled. cbn [fst snd keepValue].
    now rewrite rgbToColor_nonempty.
  - repeat constructor; unfold settled; cbn [fst snd]; try (now rewrite keep_px).
    + now destruct (isRoot depth).
    + now destruct (notHidden node).
Qed.

Lemma nodeStyles_NoDup node depth parentX parentY :
  NoDup (keys (nodeStyles node depth parentX parentY)).
Proof.
  unfold nodeStyles. cbv zeta. destruct (isAutoLayout node).
  - unfold autoLayoutStyles. cbv zeta. do 2 apply NoDup_delKey.
    do 5 apply NoDup_setPx. do 3 apply NoDup_setKey. apply positioned_NoDup.
  - apply positioned_NoDup.
Qed.

Lemma settled_nodeStyles node depth parentX parentY :
  Forall (fun kv => settled kv = true) (nodeStyles node depth parentX parentY).
Proof.
  unfold nodeStyles. cbv zeta.
  assert (P : Forall (fun kv => settled kv = true)
                (setPx (cornerRadius (attrs node)) "borderRadius"
                   (if isRoot depth then initialStyles node depth
                    else setKey "top" (px (relativeY node depth parentY))
                           (setKey "left" (px (relativeX node depth parentX))
                              (initialStyles node depth))))).
  { apply settled_setPx; [reflexivity|]. destruct (isRoot depth).
    - apply settled_initialStyles.
    - repeat apply settled_setKey; try apply settled_initialStyles;
        unfold settled; cbn [fst snd]; now rewrite keep_px. }
  destruct (isAutoLayout node); [|exact P].
  unfold autoLayoutStyles. cbv zeta. do 2 apply settled_delKey.
  repeat (apply settled_setPx; [reflexivity|]).
  repeat apply settled_setKey; try exact P; try reflexivity.
  unfold settled. cbn [fst snd keepValue]. now destruct (String.eqb _ "HORIZONTAL").
Qed.

(** X13.  The normalisation loop of the plain server changes nothing in
    the style object of a node: every key the compiler sets is already in
    camel case and no value it sets is empty, so the entries are copied with
    their keys, their values and their order. *)
Theorem normalisation_keeps_node_styles
    (node : Node) (depth : nat) (parentX parentY : Z) :
  normalizeStyles (nodeStyles node depth parentX parentY) =
  nodeStyles node depth parentX parentY.
Proof.
  apply normalizeStyles_settled; [apply nodeStyles_NoDup | apply settled_nodeStyles].
Qed.
End StyleKeys.

(** ** The MUI server against the plain server *)
Section Widgets.
Import JS Model Markup Mui Views Criteria.

Lemma mui_generateNodeComponent_eq node depth parentX parentY nodeCounter :
  MuiServer.generateNodeComponent node depth parentX parentY nodeCounter =
  match detectComponentType node with
  | Some Button =>
      (MuiServer.buttonMarkup node depth parentX parentY nodeCounter, S nodeCounter)
  | Some TextField =>
      (MuiServer.textFieldMarkup node depth parentX parentY nodeCounter, S nodeCounter)
  | Some Checkbox =>
      (MuiServer.checkboxMarkup node depth parentX parentY nodeCounter, S nodeCounter)
  | _ =>
      let '(parts, final) :=
        match children node with
        | Some cs =>
            Server.mapCounter
              (fun child c =>
                 MuiServer.generateNodeComponent child (S depth)
                   (Server.childrenX node depth parentX)
                   (Server.childrenY node depth parentY) c)
              cs (S nodeCounter)
        | None => ([], S nodeCounter)
        end in
      (MuiServer.assemble node depth parentX parentY nodeCounter (join nl parts), final)
  end.
Proof. destruct node; reflexivity. Qed.

Lemma isWidget_isButton node : isWidget node = false -> MuiServer.isButton node = false.
Proof.
  unfold isWidget, MuiServer.isButton.
  now destruct (detectComponentType node) as [[]|].
Qed.

Lemma mui_assemble_plain node depth parentX parentY counter content :
  isWidget node = false ->
  MuiServer.assemble node depth parentX parentY counter content =
  Server.assemble node depth parentX parentY counter content.
Proof.
  intros H. apply isWidget_isButton in H.
  unfold MuiServer.assemble, Server.assemble, MuiServer.styleString, Server.styleString,
    MuiServer.nodeStyles, Server.nodeStyles, MuiServer.initialStyles, Server.initialStyles.
  now rewrite H, orb_false_r.
Qed.

Lemma mapCounter_ext {A} (f g : A -> nat -> string * nat) (l : list A) :
  Forall (fun a => forall c, f a c = g a c) l ->
  forall c, Server.mapCounter f l c = Server.mapCounter g l c.
Proof.
  induction 1 as [|a l Ha _ IH]; intros c; [reflexivity|].
  cbn [Server.mapCounter]. rewrite Ha. destruct (g a c) as [s c1]. now rewrite IH.
Qed.

Lemma mui_plain_node (node : Node) :
  Forall (fun n => isWidget n = false) (nodesOf node) ->
  forall depth parentX parentY nodeCounter,
    MuiServer.generateNodeComponent node depth parentX parentY nodeCounter =
    Server.generateNodeComponent node depth parentX parentY nodeCounter.
Proof.
  induction node as [a | a cs IH] using Node_ind'; rewrite nodesOf_eq; intros H;
    apply Forall_cons in H as [Ha H]; intros depth parentX parentY c;
    rewrite mui_generateNodeComponent_eq, generateNodeComponent_eq;
    pose proof Ha as Hw; unfold isWidget in Hw.
  - destruct (detectComponentType (mkNode a None)) as [[]|]; try discriminate Hw;
      cbn [children]; now rewrite mui_assemble_plain.
  - assert (E : forall c0,
               Server.mapCounter
                 (fun child c1 =>
                    MuiServer.generateNodeComponent child (S depth)
                      (Server.childrenX (mkNode a (Some cs)) depth parentX)
                      (Server.childrenY (mkNode a (Some cs)) depth parentY) c1) cs c0 =
               Server.mapCounter
                 (fun child c1 =>
                    Server.generateNodeComponent child (S depth)
                      (Server.childrenX (mkNode a (Some cs)) depth parentX)
                      (Server.childrenY (mkNode a (Some cs)) depth parentY) c1) cs c0).
    { apply mapCounter_ext. apply Forall_flat_map in H.
      clear Ha Hw. induction IH as [|ch cs Hc _ IHcs]; [constructor|].
      apply Forall_cons in H as [H1 H2]. constructor; [|now apply IHcs].
      intros c1. now apply Hc. }
    destruct (detectComponentType (mkNode a (Some cs))) as [[]|]; try discriminate Hw;
      cbn [children]; rewrite E;
      destruct (Server.mapCounter _ cs (S c)) as [parts final];
      now rewrite mui_assemble_plain.
Qed.

(** X14.  On a payload in which no node is classified as a Button, a
    TextField or a Checkbox, the MUI server and the plain server compile the
    roots to the same markup, with the same identifiers: the two component
    texts differ by the import of the widget library alone. *)
Theorem mui_agrees_without_widgets (data : Server.Payload) (componentName : string) :
  Forall (fun n => isWidget n = false) (flat_map nodesOf (Server.components data)) ->
  exists mainComponent,
    Server.generateComponentCode data componentName =
      Server.componentTemplate componentName mainComponent /\
    MuiServer.generateComponentCode data componentName =
      MuiServer.componentTemplate componentName mainComponent.
Proof.
  intros H. unfold Server.generateComponentCode, MuiServer.generateComponentCode.
  cbv zeta.
  rewrite (mapCounter_ext MuiServer.generateRoot Server.generateRoot).
  - destruct (Server.mapCounter Server.generateRoot _ 0%nat) as [parts final].
    now exists (join nl parts).
  - apply Forall_flat_map in H. eapply Forall_impl; [exact H|].
    intros root Hr c. unfold MuiServer.generateRoot, Server.generateRoot.
    now apply mui_plain_node.
Qed.

(** X14 at the card of the specification. *)
Lemma mui_agrees_without_widgets_witness :
  Forall (fun n => isWidget n = false)
    (flat_map nodesOf (Server.components (Server.PArray [Inputs.card]))) /\
  exists mainComponent,
    Server.generateComponentCode (Server.PArray [Inputs.card]) "Card" =
      Server.componentTemplate "Card" mainComponent /\
    MuiServer.generateComponentCode (Server.PArray [Inputs.card]) "Card" =
      MuiServer.componentTemplate "Card" mainComponent.
Proof.
  assert (H : Forall (fun n => isWidget n = false)
                (flat_map nodesOf (Server.components (Server.PArray [Inputs.card]))))
    by (repeat constructor).
  exact (conj H (mui_agrees_without_widgets (Server.PArray [Inputs.card]) "Card" H)).
Defined.

(** X15.  In the MUI server a node classified as a Button, a TextField or
    a Checkbox is a leaf: it takes one identifier whatever lies below it,
    none of its children is compiled, and its markup depends on its children
    only through the first child of type TEXT. *)
Theorem widget_is_a_leaf
    (a : NodeAttrs) (cs cs' : option (list Node)) (depth : nat) (parentX parentY : Z)
    (nodeCounter : nat) :
  isWidget (mkNode a cs) = true ->
  snd (MuiServer.generateNodeComponent (mkNode a cs) depth parentX parentY nodeCounter)
    = S nodeCounter /\
  (MuiServer.textChild (mkNode a cs) = MuiServer.textChild (mkNode a cs') ->
   MuiServer.generateNodeComponent (mkNode a cs) depth parentX parentY nodeCounter =
   MuiServer.generateNodeComponent (mkNode a cs') depth parentX parentY nodeCounter).
Proof.
  intros Hw. rewrite !mui_generateNodeComponent_eq.
  change (detectComponentType (mkNode a cs')) with (detectComponentType (mkNode a cs)).
  unfold isWidget in Hw.
  destruct (detectComponentType (mkNode a cs)) as [[]|]; try discriminate Hw;
    (split; [reflexivity|]); intros Ht; f_equal.
  - unfold MuiServer.buttonMarkup. now rewrite Ht.
  - unfold MuiServer.textFieldMarkup. now rewrite Ht.
Qed.

(** X15 at a search button with an icon and a caption: it takes one
    identifier, where the plain server takes three. *)
Lemma widget_is_a_leaf_witness :
  isWidget (mkNode (attrs Inputs.searchButton) (Some Samples.buttonParts)) = true /\
  snd (MuiServer.generateNodeComponent
         (mkNode (attrs Inputs.searchButton) (Some Samples.buttonParts)) 1 0 0 7) = 8%nat /\
  snd (Server.generateNodeComponent
         (mkNode (attrs Inputs.searchButton) (Some Samples.buttonParts)) 1 0 0 7) = 10%nat.
Proof.
  assert (H : isWidget (mkNode (attrs Inputs.searchButton) (Some Samples.buttonParts))
              = true) by reflexivity.
  split; [exact H|]. split.
  - exact (proj1 (widget_is_a_leaf (attrs Inputs.searchButton)
                    (Some Samples.buttonParts) None 1 0 0 7 H)).
  - vm_compute. reflexivity.
Defined.
End Widgets.

(** ** Exported bytes *)
Section ExportedBytes.
Import JS Model PluginBytes Utf8.
Local Open Scope N_scope.

Ltac euclid := zify; Z.to_euclidean_division_equations; lia.

Lemma land_shift_low x c k : c < 2 ^ k -> N.land (x * 2 ^ k) c = 0.
Proof.
  intros Hc. apply N.bits_inj_0. intros n. rewrite N.land_spec.
  destruct (N.lt_ge_cases n k) as [Hn | Hn].
  - now rewrite N.mul_pow2_bits_low.
  - rewrite <- (N.mod_small c (2 ^ k)) by exact Hc.
    rewrite N.mod_pow2_bits_high by exact Hn. apply andb_false_r.
Qed.

Lemma lor_shift_low x c k :
  c < 2 ^ k -> N.lor (N.shiftl x k) c = x * 2 ^ k + c.
Proof.
  intros Hc. rewrite N.shiftl_mul_pow2.
  pose proof (land_shift_low x c k Hc) as H.
  now rewrite (N.add_nocarry_lxor _ _ H), (N.lxor_lor _ _ H).
Qed.

Lemma block_value a b c :
  b < 256 -> c < 256 ->
  N.lor (N.lor (N.shiftl a 16) (N.shiftl b 8)) c = a * 65536 + b * 256 + c.
Proof.
  intros Hb Hc.
  replace (N.shiftl a 16) with (N.shiftl (N.shiftl a 8) 8)
    by (now rewrite N.shiftl_shiftl).
  rewrite <- N.shiftl_lor, (lor_shift_low a b 8) by exact Hb.
  rewrite (lor_shift_low _ c 8) by exact Hc.
  change (2 ^ 8) with 256. lia.
Qed.
Lemma charAt_chars n :
  n < 64 ->
  exists c, charAt chars n = String c "" /\ Ascii.eqb c "=" = false /\
            Server.sextet c = Some n.
Proof.
  intros Hn.
  assert (A : forallb
                (fun i =>
                   match String.get i chars with
                   | Some c =>
                       negb (Ascii.eqb c "=") &&
                       match Server.sextet c with
                       | Some v => N.eqb v (N.of_nat i)
                       | None => false
                       end
                   | None => false
                   end) (seq 0 64) = true) by (vm_compute; reflexivity).
  rewrite forallb_forall in A. specialize (A (N.to_nat n)).
  rewrite N2Nat.id in A. unfold charAt.
  destruct (String.get (N.to_nat n) chars) as [c|].
  - exists c. split; [reflexivity|].
    assert (Hin : In (N.to_nat n) (seq 0 64)) by (apply in_seq; lia).
    specialize (A Hin). apply andb_true_iff in A as [A1 A2].
    apply negb_true_iff in A1. split; [exact A1|].
    destruct (Server.sextet c) as [v|]; [|discriminate].
    apply N.eqb_eq in A2. now subst.
  - assert (Hin : In (N.to_nat n) (seq 0 64)) by (apply in_seq; lia).
    specialize (A Hin). discriminate.
Qed.

Lemma sextets_cons c v s :
  Ascii.eqb c "=" = false -> Server.sextet c = Some v ->
  Server.sextets (String c s) = v :: Server.sextets s.
Proof. intros H1 H2. cbn [Server.sextets]. now rewrite H1, H2. Qed.

Lemma low6 x : N.land x 63 = x mod 64.
Proof. change 63 with (N.ones 6). now rewrite N.land_ones. Qed.

Lemma low6_lt x : N.land x 63 < 64.
Proof. rewrite low6. now apply N.mod_lt. Qed.

Lemma byte_lt (c : ascii) : N_of_ascii c < 256.
Proof. apply N_ascii_bounded. Qed.

Lemma decode_three (b0 b1 b2 : ascii) rest :
  Server.base64Decode (encodeBlock b0 (Some b1) (Some b2) +:+ rest) =
  String b0 (String b1 (String b2 (Server.base64Decode rest))).
Proof.
  unfold encodeBlock, codeOr0. cbv zeta.
  pose proof (byte_lt b0) as H0. pose proof (byte_lt b1) as H1.
  pose proof (byte_lt b2) as H2.
  rewrite block_value by assumption.
  set (B := N_of_ascii b0 * 65536 + N_of_ascii b1 * 256 + N_of_ascii b2).
  destruct (charAt_chars _ (low6_lt (N.shiftr B 18))) as (c1 & -> & E1 & S1).
  destruct (charAt_chars _ (low6_lt (N.shiftr B 12))) as (c2 & -> & E2 & S2).
  destruct (charAt_chars _ (low6_lt (N.shiftr B 6))) as (c3 & -> & E3 & S3).
  destruct (charAt_chars _ (low6_lt B)) as (c4 & -> & E4 & S4).
  unfold Server.base64Decode.
  repeat first [rewrite append_cons | rewrite append_nil_l].
  rewrite (sextets_cons _ _ _ E1 S1), (sextets_cons _ _ _ E2 S2),
    (sextets_cons _ _ _ E3 S3), (sextets_cons _ _ _ E4 S4).
  cbn [Server.bytesOfSextets]. cbv zeta.
  rewrite !low6, !N.shiftr_div_pow2.
  change (2 ^ 18) with 262144. change (2 ^ 12) with 4096. change (2 ^ 6) with 64.
  assert (W : (B / 262144) mod 64 * 262144 + (B / 4096) mod 64 * 4096
              + (B / 64) mod 64 * 64 + B mod 64 = B) by (subst B; euclid).
  rewrite W.
  replace (B / 65536) with (N_of_ascii b0) by (subst B; euclid).
  replace ((B / 256) mod 256) with (N_of_ascii b1) by (subst B; euclid).
  replace (B mod 256) with (N_of_ascii b2) by (subst B; euclid).
  now rewrite !ascii_N_embedding.
Qed.
Lemma decode_two (b0 b1 : ascii) :
  Server.base64Decode (encodeBlock b0 (Some b1) None) = String b0 (String b1 "").
Proof.
  unfold encodeBlock, codeOr0. cbv zeta.
  pose proof (byte_lt b0) as H0. pose proof (byte_lt b1) as H1.
  rewrite block_value by (assumption || reflexivity).
  set (B := N_of_ascii b0 * 65536 + N_of_ascii b1 * 256 + 0).
  destruct (charAt_chars _ (low6_lt (N.shiftr B 18))) as (c1 & -> & E1 & S1).
  destruct (charAt_chars _ (low6_lt (N.shiftr B 12))) as (c2 & -> & E2 & S2).
  destruct (charAt_chars _ (low6_lt (N.shiftr B 6))) as (c3 & -> & E3 & S3).
  unfold Server.base64Decode.
  repeat first [rewrite append_cons | rewrite append_nil_l].
  rewrite (sextets_cons _ _ _ E1 S1), (sextets_cons _ _ _ E2 S2),
    (sextets_cons _ _ _ E3 S3).
  cbn [Server.sextets Ascii.eqb Bool.eqb Server.bytesOfSextets]. cbv zeta.
  rewrite !low6, !N.shiftr_div_pow2.
  change (2 ^ 18) with 262144. change (2 ^ 12) with 4096. change (2 ^ 6) with 64.
  set (W := (B / 262144) mod 64 * 4096 + (B / 4096) mod 64 * 64 + (B / 64) mod 64).
  replace (W / 1024) with (N_of_ascii b0) by (subst W B; euclid).
  replace ((W / 4) mod 256) with (N_of_ascii b1) by (subst W B; euclid).
  now rewrite !ascii_N_embedding.
Qed.

Lemma decode_one (b0 : ascii) :
  Server.base64Decode (encodeBlock b0 None None) = String b0 "".
Proof.
  unfold encodeBlock, codeOr0. cbv zeta.
  pose proof (byte_lt b0) as H0.
  rewrite block_value by reflexivity.
  set (B := N_of_ascii b0 * 65536 + 0 * 256 + 0).
  destruct (charAt_chars _ (low6_lt (N.shiftr B 18))) as (c1 & -> & E1 & S1).
  destruct (charAt_chars _ (low6_lt (N.shiftr B 12))) as (c2 & -> & E2 & S2).
  unfold Server.base64Decode.
  repeat first [rewrite append_cons | rewrite append_nil_l].
  rewrite (sextets_cons _ _ _ E1 S1), (sextets_cons _ _ _ E2 S2).
  cbn [Server.sextets Ascii.eqb Bool.eqb Server.bytesOfSextets].
  rewrite !low6, !N.shiftr_div_pow2.
  change (2 ^ 18) with 262144. change (2 ^ 12) with 4096.
  replace (((B / 262144) mod 64 * 64 + (B / 4096) mod 64) / 16) with (N_of_ascii b0)
    by (subst B; euclid).
  now rewrite ascii_N_embedding.
Qed.

Lemma base64Fallback_decoded n :
  forall bytes, (String.length bytes <= n)%nat ->
    Server.base64Decode (base64Fallback bytes) = bytes.
Proof.
  induction n as [n IH] using lt_wf_ind. intros bytes Hn.
  destruct bytes as [|b0 [|b1 [|b2 rest]]]; cbn [base64Fallback].
  - reflexivity.
  - apply decode_one.
  - apply decode_two.
  - rewrite decode_three. do 3 f_equal.
    cbn [String.length] in Hn.
    apply (IH (String.length rest)); lia.
Qed.

Lemma bytesOf_cons b l : bytesOf (b :: l) = String (ascii_of_N b) (bytesOf l).
Proof. reflexivity. Qed.

Lemma bytesOf_app l1 l2 : bytesOf (l1 ++ l2) = bytesOf l1 +:+ bytesOf l2.
Proof.
  induction l1 as [|b l1 IH]; [reflexivity|].
  change ((b :: l1) ++ l2) with (b :: (l1 ++ l2)).
  now rewrite !bytesOf_cons, IH, append_cons.
Qed.

Lemma code_byte b : b < 256 -> N_of_ascii (ascii_of_N b) = b.
Proof. apply N_ascii_embedding. Qed.

Lemma low_bits x k : N.land x (N.ones k) = x mod 2 ^ k.
Proof. apply N.land_ones. Qed.

(** The decoder, one leading byte at a time. *)
Lemma decode_ascii b rest :
  b < 128 -> bytesToString (String (ascii_of_N b) rest) = b :: bytesToString rest.
Proof.
  intros H. cbn [bytesToString]. cbv zeta. rewrite code_byte by lia.
  rewrite N.shiftr_div_pow2. change (2 ^ 4) with 16.
  destruct (N.leb_spec (b / 16) 7) as [_|C]; [reflexivity | exfalso; euclid].
Qed.

Lemma decode_skipped b rest :
  (128 <= b < 192 \/ 240 <= b < 256) ->
  bytesToString (String (ascii_of_N b) rest) = bytesToString rest.
Proof.
  intros H. cbn [bytesToString]. cbv zeta. rewrite code_byte by lia.
  rewrite N.shiftr_div_pow2. change (2 ^ 4) with 16.
  destruct (N.leb_spec (b / 16) 7) as [C|_]; [exfalso; euclid|].
  destruct (N.eqb_spec (b / 16) 12) as [C|_]; [exfalso; euclid|].
  destruct (N.eqb_spec (b / 16) 13) as [C|_]; [exfalso; euclid|].
  destruct (N.eqb_spec (b / 16) 14) as [C|_]; [exfalso; euclid|].
  reflexivity.
Qed.

Lemma decode_two_bytes q r rest :
  q < 32 -> r < 64 ->
  bytesToString (String (ascii_of_N (192 + q)) (String (ascii_of_N (128 + r)) rest)) =
  (q * 64 + r) :: bytesToString rest.
Proof.
  intros Hq Hr. cbn [bytesToString]. cbv zeta. rewrite !code_byte by lia.
  rewrite N.shiftr_div_pow2. change (2 ^ 4) with 16.
  destruct (N.leb_spec ((192 + q) / 16) 7) as [C|_]; [exfalso; euclid|].
  assert (K : ((192 + q) / 16 =? 12) || ((192 + q) / 16 =? 13) = true).
  { apply orb_true_iff. rewrite !N.eqb_eq. euclid. }
  rewrite K. f_equal.
  change 31 with (N.ones 5). change 63 with (N.ones 6). rewrite !low_bits.
  rewrite lor_shift_low by (apply N.mod_lt; discriminate).
  change (2 ^ 5) with 32. change (2 ^ 6) with 64. euclid.
Qed.

Lemma decode_three_bytes q r s rest :
  q < 16 -> r < 64 -> s < 64 ->
  bytesToString
    (String (ascii_of_N (224 + q))
       (String (ascii_of_N (128 + r)) (String (ascii_of_N (128 + s)) rest))) =
  (q * 4096 + r * 64 + s) :: bytesToString rest.
Proof.
  intros Hq Hr Hs. cbn [bytesToString]. cbv zeta. rewrite !code_byte by lia.
  rewrite N.shiftr_div_pow2. change (2 ^ 4) with 16.
  destruct (N.leb_spec ((224 + q) / 16) 7) as [C|_]; [exfalso; euclid|].
  destruct (N.eqb_spec ((224 + q) / 16) 12) as [C|_]; [exfalso; euclid|].
  destruct (N.eqb_spec ((224 + q) / 16) 13) as [C|_]; [exfalso; euclid|].
  destruct (N.eqb_spec ((224 + q) / 16) 14) as [_|C]; [|exfalso; euclid].
  cbn [orb]. f_equal. rewrite N.shiftl_0_r.
  change 15 with (N.ones 4). change 63 with (N.ones 6). rewrite !low_bits.
  replace (N.shiftl ((224 + q) mod 2 ^ 4) 12)
    with (N.shiftl (N.shiftl ((224 + q) mod 2 ^ 4) 6) 6)
    by (now rewrite N.shiftl_shiftl).
  rewrite <- N.shiftl_lor.
  rewrite (lor_shift_low _ ((128 + r) mod 2 ^ 6)) by (apply N.mod_lt; discriminate).
  rewrite lor_shift_low by (apply N.mod_lt; discriminate).
  change (2 ^ 4) with 16. change (2 ^ 6) with 64. euclid.
Qed.

Lemma decode_utf8 cp rest :
  cp < 1114112 ->
  bytesToString (bytesOf (utf8 cp) +:+ rest) =
  (if cp <? 65536 then [cp] else []) ++ bytesToString rest.
Proof.
  intros Hcp. unfold utf8.
  destruct (N.ltb_spec cp 128) as [H1|H1].
  { rewrite bytesOf_cons. cbn [bytesOf List.map string_of_list_ascii].
    rewrite append_cons, append_nil_l, decode_ascii by exact H1.
    destruct (N.ltb_spec cp 65536); [reflexivity | lia]. }
  destruct (N.ltb_spec cp 2048) as [H2|H2].
  { rewrite !bytesOf_cons. cbn [bytesOf List.map string_of_list_ascii].
    rewrite !append_cons, append_nil_l.
    rewrite decode_two_bytes by euclid.
    destruct (N.ltb_spec cp 65536); [|lia]. cbn [app]. f_equal. euclid. }
  destruct (N.ltb_spec cp 65536) as [H3|H3].
  { rewrite !bytesOf_cons. cbn [bytesOf List.map string_of_list_ascii].
    rewrite !append_cons, append_nil_l.
    rewrite decode_three_bytes by euclid. cbn [app]. f_equal. euclid. }
  rewrite !bytesOf_cons. cbn [bytesOf List.map string_of_list_ascii].
  rewrite !append_cons, append_nil_l.
  rewrite !decode_skipped by euclid. reflexivity.
Qed.

(** X17.  [bytesToString] reads UTF-8 up to the basic plane: on the
    encoding of a sequence of code points it returns the code points below
    65536, in order, each as one code unit, and drops the others (their
    four-byte sequences fall through the switch); a text of ASCII characters
    comes back as it is. *)
Theorem bytesToString_reads_utf8 (cps : list N) :
  Forall (fun cp => cp < 1114112) cps ->
  bytesToString (utf8Encode cps) = List.filter (fun cp => cp <? 65536) cps.
Proof.
  unfold utf8Encode. induction 1 as [|cp cps Hcp _ IH]; [reflexivity|].
  cbn [flat_map List.filter]. rewrite bytesOf_app, decode_utf8, IH by exact Hcp.
  now destruct (cp <? 65536).
Qed.

(** X17 at a greeting of four characters, the last one an emoji. *)
Lemma bytesToString_reads_utf8_witness :
  Forall (fun cp => cp < 1114112) Samples.greeting /\
  bytesToString (utf8Encode Samples.greeting) = [72; 233; 8364].
Proof.
  assert (H : Forall (fun cp => cp < 1114112) Samples.greeting)
    by (repeat constructor).
  exact (conj H (bytesToString_reads_utf8 Samples.greeting H)).
Defined.

(** The UTF-8 decoder of the servers on a well-formed sequence. *)
Lemma inRange_true lo hi b :
  b < 256 -> lo <= b -> b <= hi -> Server.inRange lo hi (ascii_of_N b) = true.
Proof.
  intros Hb Hlo Hhi. unfold Server.inRange. cbv zeta. rewrite code_byte by exact Hb.
  apply andb_true_iff. split; now apply N.leb_le.
Qed.

Lemma inRange_above lo hi b :
  b < 256 -> hi < b -> Server.inRange lo hi (ascii_of_N b) = false.
Proof.
  intros Hb Hhi. unfold Server.inRange. cbv zeta. rewrite code_byte by exact Hb.
  apply andb_false_iff. right. now apply N.leb_gt.
Qed.

Lemma scalar_spec cp :
  scalar cp = true <-> cp < 55296 \/ (57343 < cp /\ cp < 1114112).
Proof.
  unfold scalar. rewrite orb_true_iff, andb_true_iff, !N.ltb_lt. tauto.
Qed.

Lemma utf8ToString_two q r rest :
  2 <= q < 32 -> r < 64 ->
  Server.utf8ToString
    (String (ascii_of_N (192 + q)) (String (ascii_of_N (128 + r)) rest)) =
  String (ascii_of_N (192 + q)) (String (ascii_of_N (128 + r))
    (Server.utf8ToString rest)).
Proof.
  intros Hq Hr. cbn [Server.utf8ToString]. cbv zeta. rewrite code_byte by lia.
  destruct (N.ltb_spec (192 + q) 128) as [C|_]; [lia|].
  rewrite (inRange_true 194 223) by lia.
  now rewrite (inRange_true 128 191) by lia.
Qed.

Lemma utf8ToString_three q r s rest :
  q < 16 -> r < 64 -> s < 64 ->
  (q = 0 -> 32 <= r) -> (q = 13 -> r < 32) ->
  Server.utf8ToString
    (String (ascii_of_N (224 + q))
       (String (ascii_of_N (128 + r)) (String (ascii_of_N (128 + s)) rest))) =
  String (ascii_of_N (224 + q))
    (String (ascii_of_N (128 + r)) (String (ascii_of_N (128 + s))
       (Server.utf8ToString rest))).
Proof.
  intros Hq Hr Hs H0 H13. cbn [Server.utf8ToString]. cbv zeta.
  rewrite code_byte by lia.
  destruct (N.ltb_spec (224 + q) 128) as [C|_]; [lia|].
  rewrite (inRange_above 194 223) by lia.
  rewrite (inRange_true 224 239) by lia.
  assert (K : Server.inRange (if 224 + q =? 224 then 160 else 128)
                (if 224 + q =? 237 then 159 else 191) (ascii_of_N (128 + r)) = true).
  { destruct (N.eqb_spec (224 + q) 224), (N.eqb_spec (224 + q) 237);
      apply inRange_true; lia. }
  rewrite K. now rewrite (inRange_true 128 191) by lia.
Qed.

Lemma utf8ToString_four q r s t rest :
  q < 5 -> r < 64 -> s < 64 -> t < 64 ->
  (q = 0 -> 16 <= r) -> (q = 4 -> r < 16) ->
  Server.utf8ToString
    (String (ascii_of_N (240 + q))
       (String (ascii_of_N (128 + r))
          (String (ascii_of_N (128 + s)) (String (ascii_of_N (128 + t)) rest)))) =
  String (ascii_of_N (240 + q))
    (String (ascii_of_N (128 + r))
       (String (ascii_of_N (128 + s)) (String (ascii_of_N (128 + t))
          (Server.utf8ToString rest)))).
Proof.
  intros Hq Hr Hs Ht H0 H4. cbn [Server.utf8ToString]. cbv zeta.
  rewrite code_byte by lia.
  destruct (N.ltb_spec (240 + q) 128) as [C|_]; [lia|].
  rewrite (inRange_above 194 223) by lia.
  rewrite (inRange_above 224 239) by lia.
  rewrite (inRange_true 240 244) by lia.
  assert (K : Server.inRange (if 240 + q =? 240 then 144 else 128)
                (if 240 + q =? 244 then 143 else 191) (ascii_of_N (128 + r)) = true).
  { destruct (N.eqb_spec (240 + q) 240), (N.eqb_spec (240 + q) 244);
      apply inRange_true; lia. }
  rewrite K. now rewrite !(inRange_true 128 191) by lia.
Qed.

Lemma utf8ToString_scalar cp rest :
  scalar cp = true ->
  Server.utf8ToString (bytesOf (utf8 cp) +:+ rest) =
  bytesOf (utf8 cp) +:+ Server.utf8ToString rest.
Proof.
  intros Hcp. apply scalar_spec in Hcp. unfold utf8.
  destruct (N.ltb_spec cp 128) as [H1|H1].
  { rewrite bytesOf_cons. cbn [bytesOf List.map string_of_list_ascii].
    rewrite !append_cons, !append_nil_l. cbn [Server.utf8ToString]. cbv zeta.
    rewrite code_byte by lia.
    destruct (N.ltb_spec cp 128) as [_|C]; [reflexivity | lia]. }
  destruct (N.ltb_spec cp 2048) as [H2|H2].
  { rewrite !bytesOf_cons. cbn [bytesOf List.map string_of_list_ascii].
    rewrite !append_cons, !append_nil_l.
    apply utf8ToString_two; euclid. }
  destruct (N.ltb_spec cp 65536) as [H3|H3].
  { rewrite !bytesOf_cons. cbn [bytesOf List.map string_of_list_ascii].
    rewrite !append_cons, !append_nil_l.
    apply utf8ToString_three; euclid. }
  rewrite !bytesOf_cons. cbn [bytesOf List.map string_of_list_ascii].
  rewrite !append_cons, !append_nil_l.
  apply utf8ToString_four; euclid.
Qed.

Lemma utf8ToString_text cps :
  Forall (fun cp => scalar cp = true) cps ->
  Server.utf8ToString (utf8Encode cps) = utf8Encode cps.
Proof.
  unfold utf8Encode. induction 1 as [|cp cps Hcp _ IH]; [reflexivity|].
  cbn [flat_map]. now rewrite bytesOf_app, utf8ToString_scalar, IH.
Qed.

(** X16.  The base64 fallback of the plugin and the decoding of the
    servers are inverse to each other.  The buffer the servers decode holds
    the bytes the plugin encoded, whatever they are and whatever their
    number (one, two or three in the last block); and when these bytes are
    the UTF-8 encoding of a text, the string the servers read from the
    buffer is that text, no character of it replaced. *)
Theorem base64_text_roundtrip (bytes : string) (cps : list N) :
  Forall (fun cp => scalar cp = true) cps ->
  Server.base64Decode (arrayBufferToBase64 None bytes) = bytes /\
  Server.utf8ToString
    (Server.base64Decode (arrayBufferToBase64 None (utf8Encode cps))) =
  utf8Encode cps.
Proof.
  intros H.
  assert (R : forall s, Server.base64Decode (arrayBufferToBase64 None s) = s)
    by (intros s; apply (base64Fallback_decoded _ s (Nat.le_refl _))).
  split; [apply R|]. rewrite R. now apply utf8ToString_text.
Qed.

(** X16 at a greeting of four characters, the last one an emoji, in ten
    bytes. *)
Lemma base64_text_roundtrip_witness :
  Forall (fun cp => scalar cp = true) Samples.greeting /\
  Server.utf8ToString
    (Server.base64Decode
       (arrayBufferToBase64 None (utf8Encode Samples.greeting))) =
  utf8Encode Samples.greeting.
Proof.
  assert (H : Forall (fun cp => scalar cp = true) Samples.greeting)
    by (repeat constructor).
  exact (conj H (proj2 (base64_text_roundtrip "" Samples.greeting H))).
Defined.
End ExportedBytes.

(** ** The extraction of the plugin *)
Section SceneExtraction.
Import JS Model PluginBytes Extraction Views Criteria.

Lemma sceneNodes_eq a cs :
  sceneNodes (mkSceneNode a cs) =
  mkSceneNode a cs :: match cs with Some cs => flat_map sceneNodes cs | None => [] end.
Proof. reflexivity. Qed.

Lemma hasTextDescendant_eq a cs :
  hasTextDescendant (mkSceneNode a cs) =
  if String.eqb (sType a) "TEXT" then true
  else match cs with Some cs => existsb hasTextDescendant cs | None => false end.
Proof. reflexivity. Qed.

Lemma keptTexts_eq a cs :
  keptTexts (mkSceneNode a cs) =
  (if String.eqb (sType a) "TEXT" then [sCharacters a] else [])
  ++ (if isVectorType (sType a) then []
      else match cs with Some cs => flat_map keptTexts cs | None => [] end).
Proof. reflexivity. Qed.

Lemma extractNodeData_eq btoa a cs parentX parentY :
  extractNodeData btoa (mkSceneNode a cs) parentX parentY =
  let node := mkSceneNode a cs in
  let nodeX := default 0 (sX a) in
  let nodeY := default 0 (sY a) in
  let layout := extractLayoutProperties a in
  let text :=
    if String.eqb (sType a) "TEXT" then Some (extractTextProperties a) else None in
  let '(svg, svgBase64, image) := exportsOf btoa node in
  mkExtracted
    (mkExtractedAttrs
       (sName a) (sType a) (default 0 (sWidth a)) (default 0 (sHeight a)) nodeX nodeY
       (sAbsoluteBoundingBox a)
       (extractFills a) (extractStrokes a) (extractEffects a)
       (default (ofZ 1) (sOpacity a)) (sVisible a)
       svg svgBase64 image
       (tTextContent <$> text)
       (text ≫= tFontSize) (text ≫= tFontFamily) (text ≫= tFontName)
       (text ≫= tFontWeight) (text ≫= tLetterSpacing) (text ≫= tLineHeight)
       (text ≫= tTextAlign)
       (lCornerRadius layout) (lLayoutMode layout)
       (lPrimaryAxisAlignItems layout) (lCounterAxisAlignItems layout)
       (lPaddingLeft layout) (lPaddingRight layout) (lPaddingTop layout)
       (lPaddingBottom layout) (lGap layout) (lRotation layout))
    (if shouldExportSVG node then None
     else match cs with
          | Some cs => Some (List.map (fun child => extractNodeData btoa child nodeX nodeY) cs)
          | None => None
          end).
Proof. reflexivity. Qed.

(** X18.  [hasTextDescendant] holds exactly of the scenes that contain a
    node of type TEXT, the node itself included, at any depth. *)
Theorem hasTextDescendant_exact (node : SceneNode) :
  hasTextDescendant node = true <->
  exists n, n ∈ sceneNodes node /\ sType (sattrs n) = "TEXT".
Proof.
  induction node as [a | a cs IH] using SceneNode_ind';
    rewrite hasTextDescendant_eq, sceneNodes_eq.
  - destruct (String.eqb_spec (sType a) "TEXT") as [E|E].
    + split; [|reflexivity]. intros _. exists (mkSceneNode a None). split; [left | exact E].
    + split; [discriminate|]. intros (n & Hn & Ht).
      apply list_elem_of_singleton in Hn. subst n. contradiction.
  - destruct (String.eqb_spec (sType a) "TEXT") as [E|E].
    + split; [|reflexivity]. intros _. exists (mkSceneNode a (Some cs)).
      split; [left | exact E].
    + rewrite existsb_exists. split.
      * intros (c & Hc & Ht). rewrite Forall_forall in IH.
        apply list_elem_of_In in Hc. apply (IH c Hc) in Ht as (n & Hn & Hty).
        exists n. split; [|exact Hty]. right.
        apply list_elem_of_In, in_flat_map. exists c.
        split; apply list_elem_of_In; assumption.
      * intros (n & Hn & Hty). apply elem_of_cons in Hn as [-> | Hn]; [contradiction|].
        apply list_elem_of_In, in_flat_map in Hn as (c & Hc & Hn).
        exists c. split; [exact Hc|]. rewrite Forall_forall in IH.
        apply (IH c); [now apply list_elem_of_In|]. exists n.
        split; [now apply list_elem_of_In | exact Hty].
Qed.
Lemma payloadNodes_unfold e :
  payloadNodes e =
  e :: match echildren e with Some cs => flat_map payloadNodes cs | None => [] end.
Proof. destruct e; reflexivity. Qed.

Lemma payloadTexts_unfold e :
  payloadTexts e =
  match eTextContent (eattrs e) with Some t => [t] | None => [] end
  ++ match echildren e with Some cs => flat_map payloadTexts cs | None => [] end.
Proof. destruct e; reflexivity. Qed.

Lemma extract_children btoa node parentX parentY :
  echildren (extractNodeData btoa node parentX parentY) =
  if shouldExportSVG node then None
  else List.map
         (fun child =>
            extractNodeData btoa child (default 0 (sX (sattrs node)))
              (default 0 (sY (sattrs node))))
       <$> schildren node.
Proof.
  destruct node as [a cs]. rewrite extractNodeData_eq. cbv zeta.
  destruct (exportsOf btoa _) as [[svg b64] image]. cbn [echildren sattrs schildren].
  destruct (shouldExportSVG _); [reflexivity | now destruct cs].
Qed.

Lemma extract_exports btoa node parentX parentY :
  let e := eattrs (extractNodeData btoa node parentX parentY) in
  (eSvg e, eSvgBase64 e, eImage e) = exportsOf btoa node.
Proof.
  destruct node as [a cs]. cbv zeta. rewrite extractNodeData_eq. cbv zeta.
  now destruct (exportsOf btoa _) as [[svg b64] image].
Qed.

Lemma extract_type btoa node parentX parentY :
  eType (eattrs (extractNodeData btoa node parentX parentY)) = sType (sattrs node).
Proof.
  destruct node as [a cs]. rewrite extractNodeData_eq. cbv zeta.
  now destruct (exportsOf btoa _) as [[svg b64] image].
Qed.

Lemma extract_text btoa node parentX parentY :
  eTextContent (eattrs (extractNodeData btoa node parentX parentY)) =
  if String.eqb (sType (sattrs node)) "TEXT" then Some (sCharacters (sattrs node))
  else None.
Proof.
  destruct node as [a cs]. rewrite extractNodeData_eq. cbv zeta.
  destruct (exportsOf btoa _) as [[svg b64] image]. cbn [eattrs eTextContent sattrs].
  now destruct (String.eqb (sType a) "TEXT").
Qed.

Lemma exportsOf_idle btoa node :
  shouldExportSVG node = false ->
  exists image, exportsOf btoa node = (None, None, image).
Proof.
  intros H. unfold exportsOf. cbv zeta. rewrite H.
  destruct (_ && _); [|now eexists].
  destruct (_ <$> sExportPNG (sattrs node)); now eexists.
Qed.

Lemma text_not_exported node :
  sType (sattrs node) = "TEXT" -> shouldExportSVG node = false.
Proof. intros H. unfold shouldExportSVG. cbv zeta. now rewrite H. Qed.

(** The invariant of a payload node. *)
Lemma extracted_root btoa node parentX parentY :
  let e := extractNodeData btoa node parentX parentY in
  (is_Some (echildren e) ->
   eSvg (eattrs e) = None /\ eSvgBase64 (eattrs e) = None) /\
  (eType (eattrs e) = "TEXT" ->
   eSvg (eattrs e) = None /\ eSvgBase64 (eattrs e) = None).
Proof.
  cbv zeta. pose proof (extract_exports btoa node parentX parentY) as E. cbv zeta in E.
  rewrite extract_children, extract_type.
  assert (K : shouldExportSVG node = false ->
              eSvg (eattrs (extractNodeData btoa node parentX parentY)) = None /\
              eSvgBase64 (eattrs (extractNodeData btoa node parentX parentY)) = None).
  { intros S. destruct (exportsOf_idle btoa node S) as [image I].
    rewrite I in E. now injection E as -> -> _. }
  split.
  - destruct (shouldExportSVG node); [intros [? H]; discriminate H | auto].
  - intros Ht. apply K. now apply text_not_exported.
Qed.

(** X19.  In the payload the plugin builds, a node that was exported as
    vector markup is a leaf: every node that has a [children] array carries
    neither [svg] nor [svgBase64], and no node of type TEXT carries them. *)
Theorem exported_vectors_are_leaves
    (btoa : option (string -> string)) (node : SceneNode) (parentX parentY : Z) :
  Forall
    (fun e =>
       (is_Some (echildren e) ->
        eSvg (eattrs e) = None /\ eSvgBase64 (eattrs e) = None) /\
       (eType (eattrs e) = "TEXT" ->
        eSvg (eattrs e) = None /\ eSvgBase64 (eattrs e) = None))
    (payloadNodes (extractNodeData btoa node parentX parentY)).
Proof.
  revert parentX parentY.
  induction node as [a | a cs IH] using SceneNode_ind'; intros parentX parentY;
    rewrite payloadNodes_unfold;
    (constructor; [apply extracted_root|]); rewrite extract_children;
    destruct (shouldExportSVG _); cbn [schildren fmap option_fmap option_map];
    try constructor.
  induction IH as [|c cs Hc _ IHcs]; [constructor|].
  cbn [List.map flat_map]. apply Forall_app. split; [apply Hc | exact IHcs].
Qed.

Lemma keptTexts_none (node : SceneNode) :
  hasTextDescendant node = false -> keptTexts node = [].
Proof.
  induction node as [a | a cs IH] using SceneNode_ind';
    rewrite hasTextDescendant_eq, keptTexts_eq;
    destruct (String.eqb (sType a) "TEXT"); try discriminate; intros H;
    destruct (isVectorType (sType a)); try reflexivity.
  cbn [app]. induction IH as [|c cs Hc _ IHcs]; [reflexivity|].
  cbn [existsb] in H. apply orb_false_iff in H as [H1 H2].
  cbn [flat_map]. now rewrite (Hc H1), (IHcs H2).
Qed.

Lemma vector_not_text type : isVectorType type = true -> String.eqb type "TEXT" = false.
Proof.
  unfold isVectorType, vectorTypes. cbn [existsb]. rewrite orb_false_r.
  destruct (String.eqb_spec type "TEXT") as [->|]; [discriminate | reflexivity].
Qed.

Lemma container_not_text type :
  isContainerType type = true -> String.eqb type "TEXT" = false.
Proof.
  unfold isContainerType.
  destruct (String.eqb_spec type "TEXT") as [->|]; [discriminate | reflexivity].
Qed.

(** X20.  The extraction loses no text but the text inside vector shapes:
    the texts of the payload, in document order, are the texts of the scene
    in document order, those below a node of a vector type (a boolean
    operation, for instance) left out.  A frame, component, instance or
    group is flattened to vector markup only when it holds no text. *)
Theorem extraction_keeps_texts
    (btoa : option (string -> string)) (node : SceneNode) (parentX parentY : Z) :
  payloadTexts (extractNodeData btoa node parentX parentY) = keptTexts node.
Proof.
  revert parentX parentY.
  induction node as [a | a cs IH] using SceneNode_ind'; intros parentX parentY;
    rewrite payloadTexts_unfold, extract_text, extract_children, keptTexts_eq;
    cbn [sattrs schildren fmap option_fmap option_map].
  - destruct (String.eqb (sType a) "TEXT"), (shouldExportSVG _),
      (isVectorType (sType a)); reflexivity.
  - f_equal; [now destruct (String.eqb (sType a) "TEXT")|].
    unfold shouldExportSVG. cbv zeta. cbn [sattrs].
    destruct (isVectorType (sType a)) eqn:V; [reflexivity|].
    assert (K : flat_map payloadTexts
                  (List.map
                     (fun child =>
                        extractNodeData btoa child (default 0 (sX a)) (default 0 (sY a)))
                     cs) = flat_map keptTexts cs).
    { clear -IH. induction IH as [|c cs Hc _ IHcs]; [reflexivity|].
      cbn [List.map flat_map]. now rewrite Hc, IHcs. }
    destruct (isContainerType (sType a)); [|exact K].
    destruct (hasTextDescendant (mkSceneNode a (Some cs))) eqn:T; cbn [negb]; [exact K|].
    pose proof (keptTexts_none _ T) as N. rewrite keptTexts_eq in N.
    apply app_eq_nil in N as [_ N]. rewrite V in N. now rewrite N.
Qed.

Lemma extractEffects_complete (sa : SceneAttrs) (a : NodeAttrs) :
  Forall (fun e => Legacy.isVisibleDropShadow e = true ->
                   is_Some (effectColor e) /\ is_Some (offset e))
    (default [] (sEffects sa)) ->
  effects a = Some (extractEffects sa) ->
  shadowsComplete a = true.
Proof.
  intros H E. unfold shadowsComplete. rewrite E. cbn [default].
  unfold extractEffects. destruct (sEffects sa) as [es|]; [|reflexivity].
  cbn [default] in H. apply forallb_forall. intros e' Hin.
  apply in_map_iff in Hin as (e & <- & Hin).
  rewrite Forall_forall in H. specialize (H e (proj2 (list_elem_of_In _ _) Hin)).
  destruct (Legacy.isVisibleDropShadow e) eqn:V.
  - destruct (H eq_refl) as [[c Hc] [o Ho]].
    unfold Legacy.isVisibleDropShadow in V. apply andb_true_iff in V as [V1 V2].
    rewrite V1, Hc. cbn [andb].
    rewrite bool_decide_eq_true_2 by eauto. cbn [offset]. rewrite Ho.
    rewrite bool_decide_eq_true_2 by eauto. apply orb_true_r.
  - assert (V' : forall c o r,
               Legacy.isVisibleDropShadow
                 (mkEffect (effectType e) (effectVisible e) c o r) = false)
      by (intros; exact V).
    destruct (_ && _); now rewrite V'.
Qed.

(** X22.  The plugin and server/index.js fit together on shadows: when
    every visible drop shadow of a scene node has its colour and its offset
    (as the document model gives them), the effects the plugin sends make
    the shadow statement of [getCommonStyles] succeed; it never reads the
    offset of a shadow that has none. *)
Theorem plugin_shadows_never_throw
    (sa : SceneAttrs) (a : NodeAttrs) (st : Markup.Styles) :
  Forall (fun e => Legacy.isVisibleDropShadow e = true ->
                   is_Some (effectColor e) /\ is_Some (offset e))
    (default [] (sEffects sa)) ->
  effects a = Some (extractEffects sa) ->
  exists st', Legacy.shadowStyle a st = Host.Ok st'.
Proof.
  intros H E. apply shadowStyle_complete. now apply (extractEffects_complete sa).
Qed.

(** X22 at a plate with a layer blur and a drop shadow. *)
Lemma plugin_shadows_never_throw_witness :
  Forall (fun e => Legacy.isVisibleDropShadow e = true ->
                   is_Some (effectColor e) /\ is_Some (offset e))
    (default [] (sEffects Samples.plate)) /\
  effects Samples.platePayload = Some (extractEffects Samples.plate) /\
  exists st', Legacy.shadowStyle Samples.platePayload [] = Host.Ok st'.
Proof.
  assert (H1 : Forall (fun e => Legacy.isVisibleDropShadow e = true ->
                                is_Some (effectColor e) /\ is_Some (offset e))
                 (default [] (sEffects Samples.plate))).
  { repeat constructor; try discriminate; eauto. }
  assert (H2 : effects Samples.platePayload = Some (extractEffects Samples.plate))
    by reflexivity.
  exact (conj H1 (conj H2
           (plugin_shadows_never_throw Samples.plate Samples.platePayload [] H1 H2))).
Defined.
End SceneExtraction.

(** ** White space, inline markup and font families *)
Section Trimming.
Import JS Model Markup Server Literals.

Lemma escapes_charwise s :
  replaceChar "$" (bslash +:+ "$")
    (replaceChar "096" (bslash +:+ backtick)
       (replaceChar "092" (bslash +:+ bslash) s)) = templateEscape s.
Proof.
  induction s as [|a s IH]; [reflexivity|].
  rewrite (replaceChar_cons "092"), !replaceChar_app, IH.
  cbn [templateEscape]. f_equal.
  destruct a as [[] [] [] [] [] [] [] []]; reflexivity.
Qed.

(** What the escaping does to a character: a white-space character stays,
    any other becomes a non-empty string without white space. *)
Lemma templateEscapeChar_space a :
  isSpace a = true -> templateEscapeChar a = String a "".
Proof. destruct a as [[] [] [] [] [] [] [] []]; intros H; try discriminate H; reflexivity. Qed.

Lemma templateEscapeChar_solid a :
  isSpace a = false ->
  exists d ds, templateEscapeChar a = String d ds /\ isSpace d = false /\
               Forall (fun c => isSpace c = false) (list_ascii_of_string ds).
Proof.
  intros H. unfold templateEscapeChar.
  destruct (Ascii.eqb a "092"); [eexists _, _; repeat split; repeat constructor|].
  destruct (Ascii.eqb a "096"); [eexists _, _; repeat split; repeat constructor|].
  destruct (Ascii.eqb a "$"); [eexists _, _; repeat split; repeat constructor|].
  exists a, "". repeat split; [exact H | constructor].
Qed.

Lemma replaceLF_escape s :
  replaceChar "010" " " (templateEscape s) = templateEscape (replaceChar "010" " " s).
Proof.
  induction s as [|a s IH]; [reflexivity|].
  cbn [templateEscape]. rewrite replaceChar_app, IH. cbn [replaceChar].
  destruct (Ascii.eqb_spec a "010") as [->|Hne]; [reflexivity|].
  cbn [templateEscape]. f_equal.
  revert Hne. destruct a as [[] [] [] [] [] [] [] []]; intros Hne; try reflexivity.
  congruence.
Qed.

Lemma runs_solid r b ds rest :
  Forall (fun c => isSpace c = false) (list_ascii_of_string ds) ->
  replaceRunsFrom r b (ds +:+ rest) =
  ds +:+ replaceRunsFrom r (match ds with EmptyString => b | _ => false end) rest.
Proof.
  revert b. induction ds as [|d ds IH]; intros b H; [reflexivity|].
  cbn [list_ascii_of_string] in H. apply Forall_cons in H as [Hd H].
  rewrite !append_cons. cbn [replaceRunsFrom]. rewrite Hd, IH by exact H.
  now destruct ds.
Qed.

Lemma templateEscape_app a b :
  templateEscape (a +:+ b) = templateEscape a +:+ templateEscape b.
Proof.
  induction a as [|c a IH]; [reflexivity|].
  rewrite append_cons. cbn [templateEscape]. now rewrite IH, append_assoc.
Qed.

Lemma runs_escape b s :
  replaceRunsFrom " " b (templateEscape s) = templateEscape (replaceRunsFrom " " b s).
Proof.
  revert b. induction s as [|a s IH]; intros b; [reflexivity|].
  cbn [templateEscape replaceRunsFrom]. destruct (isSpace a) eqn:Sp.
  - rewrite (templateEscapeChar_space _ Sp), append_cons, append_nil_l.
    cbn [replaceRunsFrom]. rewrite Sp, IH.
    destruct b; [reflexivity|]. now rewrite templateEscape_app.
  - destruct (templateEscapeChar_solid _ Sp) as (d & ds & E & Hd & Hds).
    cbn [templateEscape]. rewrite E, append_cons. cbn [replaceRunsFrom].
    rewrite Hd, runs_solid by exact Hds. rewrite append_cons.
    f_equal. f_equal. rewrite <- IH. now destruct ds.
Qed.

Lemma runs_replaceLF b s :
  replaceRunsFrom " " b (replaceChar "010" " " s) = replaceRunsFrom " " b s.
Proof.
  revert b. induction s as [|a s IH]; intros b; [reflexivity|].
  cbn [replaceChar]. destruct (Ascii.eqb_spec a "010") as [->|Hne].
  - rewrite append_cons, append_nil_l. cbn [replaceRunsFrom].
    change (isSpace " ") with true. change (isSpace "010") with true. cbv iota.
    now rewrite IH.
  - cbn [replaceRunsFrom]. now rewrite !IH.
Qed.

Lemma dropWhile_escape s :
  dropWhile isSpace (templateEscape s) = templateEscape (dropWhile isSpace s).
Proof.
  induction s as [|a s IH]; [reflexivity|].
  cbn [templateEscape dropWhile]. destruct (isSpace a) eqn:Sp.
  - rewrite (templateEscapeChar_space _ Sp), append_cons, append_nil_l.
    cbn [dropWhile]. now rewrite Sp.
  - destruct (templateEscapeChar_solid _ Sp) as (d & ds & E & Hd & Hds).
    cbn [templateEscape]. rewrite E, append_cons. cbn [dropWhile]. now rewrite Hd.
Qed.

(** [rev_string] and [dropWhileEnd] *)
Lemma rev_string_app s t acc :
  rev_string (s +:+ t) acc = rev_string t (rev_string s acc).
Proof.
  revert acc. induction s as [|c s IH]; intros acc; [reflexivity|].
  rewrite append_cons. cbn [rev_string]. apply IH.
Qed.

Lemma rev_string_rev s acc acc' :
  rev_string (rev_string s acc) acc' = rev_string acc (s +:+ acc').
Proof.
  revert acc acc'. induction s as [|c s IH]; intros acc acc'; [reflexivity|].
  cbn [rev_string]. rewrite IH. now rewrite append_cons.
Qed.

Lemma rev_string_acc s acc : rev_string s acc = rev_string s "" +:+ acc.
Proof.
  revert acc. induction s as [|c s IH]; intros acc; [reflexivity|].
  cbn [rev_string]. rewrite IH, (IH (String c "")), append_assoc. reflexivity.
Qed.

Lemma string_rev_ind (P : string -> Prop) :
  P "" -> (forall s a, P s -> P (s +:+ String a "")) -> forall s, P s.
Proof.
  intros H0 Hs s.
  assert (R : forall t, P (rev_string t "")).
  { induction t as [|c t IH]; [exact H0|].
    cbn [rev_string]. rewrite rev_string_acc. now apply Hs. }
  specialize (R (rev_string s "")).
  now rewrite rev_string_rev, append_nil_r in R.
Qed.

Lemma stripEnd_snoc p s a :
  stripEnd p (s +:+ String a "") = if p a then stripEnd p s else s +:+ String a "".
Proof.
  induction s as [|c s IH].
  - rewrite !append_nil_l. cbn [stripEnd]. now destruct (p a).
  - rewrite append_cons. cbn [stripEnd]. rewrite IH. destruct (p a).
    + reflexivity.
    + destruct (s +:+ String a "") eqn:E; [|reflexivity].
      destruct s; discriminate E.
Qed.

Lemma dropWhileEnd_snoc p s a :
  dropWhileEnd p (s +:+ String a "") =
  if p a then dropWhileEnd p s else s +:+ String a "".
Proof.
  unfold dropWhileEnd. rewrite rev_string_app. cbn [rev_string dropWhile].
  destruct (p a); [reflexivity|].
  cbn [rev_string]. now rewrite rev_string_rev.
Qed.

Lemma dropWhileEnd_stripEnd p s : dropWhileEnd p s = stripEnd p s.
Proof.
  induction s as [|s a IH] using string_rev_ind; [reflexivity|].
  now rewrite dropWhileEnd_snoc, stripEnd_snoc, IH.
Qed.

Lemma templateEscape_empty s : templateEscape s = "" -> s = "".
Proof.
  destruct s as [|a s]; [reflexivity|]. cbn [templateEscape].
  destruct (isSpace a) eqn:Sp.
  - now rewrite (templateEscapeChar_space _ Sp).
  - destruct (templateEscapeChar_solid _ Sp) as (d & ds & -> & _). discriminate.
Qed.

Lemma stripEnd_solid p ds rest :
  ds <> "" -> Forall (fun c => p c = false) (list_ascii_of_string ds) ->
  stripEnd p (ds +:+ rest) = ds +:+ stripEnd p rest.
Proof.
  induction ds as [|d ds IH]; [congruence|]. intros _ H.
  cbn [list_ascii_of_string] in H. apply Forall_cons in H as [Hd H].
  rewrite !append_cons. cbn [stripEnd]. destruct ds as [|d' ds].
  - rewrite !append_nil_l. rewrite Hd. now destruct (stripEnd p rest).
  - rewrite IH by (discriminate || exact H). now rewrite append_cons.
Qed.

Lemma stripEnd_escape s :
  stripEnd isSpace (templateEscape s) = templateEscape (stripEnd isSpace s).
Proof.
  induction s as [|a s IH]; [reflexivity|].
  cbn [templateEscape stripEnd]. destruct (isSpace a) eqn:Sp.
  - rewrite (templateEscapeChar_space _ Sp), append_cons, append_nil_l.
    cbn [stripEnd]. rewrite IH, Sp.
    destruct (stripEnd isSpace s) as [|c r] eqn:E; [reflexivity|].
    destruct (templateEscape (String c r)) eqn:E'.
    + apply templateEscape_empty in E'. discriminate.
    + cbn [templateEscape]. rewrite (templateEscapeChar_space _ Sp).
      now rewrite append_cons, append_nil_l, <- E'.
  - destruct (templateEscapeChar_solid _ Sp) as (d & ds & E & Hd & Hds).
    rewrite stripEnd_solid, IH.
    + destruct (stripEnd isSpace s) as [|c r]; [|reflexivity].
      cbn [templateEscape]. now rewrite append_nil_r.
    + rewrite E. discriminate.
    + rewrite E. cbn [list_ascii_of_string]. now constructor.
Qed.

Lemma escapeSvg_normal svgContent :
  escapeSvg svgContent = templateEscape (trim (collapseSpaces svgContent)).
Proof.
  unfold escapeSvg. rewrite escapes_charwise, replaceLF_escape.
  unfold collapseSpaces, replaceSpaceRuns, trim.
  rewrite runs_escape, runs_replaceLF, dropWhile_escape.
  now rewrite !dropWhileEnd_stripEnd, stripEnd_escape.
Qed.

Lemma readTemplate_escapeChar a rest :
  a <> "013"%char ->
  readTemplate (templateEscapeChar a +:+ rest) =
  match readTemplate rest with Some r => Some (String a r) | None => None end.
Proof.
  destruct a as [[] [] [] [] [] [] [] []]; intros H; try reflexivity. congruence.
Qed.

Lemma readTemplate_escape t :
  Forall (fun c => c <> "013"%char) (list_ascii_of_string t) ->
  readTemplate (templateEscape t) = Some t.
Proof.
  induction t as [|a t IH]; [reflexivity|]. cbn [list_ascii_of_string templateEscape].
  intros H. apply Forall_cons in H as [Ha H].
  now rewrite readTemplate_escapeChar, IH.
Qed.

Lemma runs_no_cr b s :
  Forall (fun c => c <> "013"%char) (list_ascii_of_string (replaceRunsFrom " " b s)).
Proof.
  revert b. induction s as [|a s IH]; intros b; [constructor|].
  cbn [replaceRunsFrom]. destruct (isSpace a) eqn:Sp.
  - destruct b; [apply IH|]. rewrite append_cons, append_nil_l.
    cbn [list_ascii_of_string]. constructor; [discriminate | apply IH].
  - cbn [list_ascii_of_string]. constructor; [|apply IH].
    intros ->. discriminate Sp.
Qed.

Lemma dropWhile_chars (P : ascii -> Prop) p s :
  Forall P (list_ascii_of_string s) -> Forall P (list_ascii_of_string (dropWhile p s)).
Proof.
  induction s as [|a s IH]; [trivial|]. cbn [list_ascii_of_string dropWhile].
  intros H. destruct (p a); [|exact H]. apply Forall_cons in H as [_ H]. now apply IH.
Qed.

Lemma stripEnd_chars (P : ascii -> Prop) p s :
  Forall P (list_ascii_of_string s) -> Forall P (list_ascii_of_string (stripEnd p s)).
Proof.
  induction s as [|a s IH]; [trivial|]. cbn [list_ascii_of_string stripEnd].
  intros H. apply Forall_cons in H as [Ha H]. specialize (IH H).
  destruct (stripEnd p s) as [|c r].
  - destruct (p a); [constructor | now repeat constructor].
  - cbn [list_ascii_of_string]. now constructor.
Qed.

(** X21.  The inline vector markup of the plain server survives its
    embedding in a template literal up to white space: read by the rules of
    a template literal, the escaped text denotes the markup with every run
    of white space replaced by one space and the ends trimmed; no backtick,
    dollar sign or backslash of the markup ends the literal or starts a
    substitution. *)
Theorem inline_svg_read_back (svgContent : string) :
  readTemplate (escapeSvg svgContent) = Some (trim (collapseSpaces svgContent)).
Proof.
  rewrite escapeSvg_normal. apply readTemplate_escape.
  unfold trim. rewrite dropWhileEnd_stripEnd.
  apply stripEnd_chars, dropWhile_chars, runs_no_cr.
Qed.

Lemma replaceChar_gone c s :
  Forall (fun a => a <> c) (list_ascii_of_string (replaceChar c "" s)).
Proof.
  induction s as [|a s IH]; [constructor|]. cbn [replaceChar].
  destruct (Ascii.eqb_spec a c); [now rewrite append_nil_l|].
  cbn [list_ascii_of_string]. now constructor.
Qed.

Lemma replaceChar_chars (P : ascii -> Prop) c s :
  Forall P (list_ascii_of_string s) ->
  Forall P (list_ascii_of_string (replaceChar c "" s)).
Proof.
  induction s as [|a s IH]; [trivial|]. cbn [list_ascii_of_string replaceChar].
  intros H. apply Forall_cons in H as [Ha H].
  destruct (Ascii.eqb a c); [rewrite append_nil_l; now apply IH|].
  cbn [list_ascii_of_string]. constructor; [exact Ha | now apply IH].
Qed.

Lemma beforeChar_gone c s :
  Forall (fun a => a <> c) (list_ascii_of_string (beforeChar c s)).
Proof.
  induction s as [|a s IH]; [constructor|]. cbn [beforeChar].
  destruct (Ascii.eqb_spec a c); [constructor|].
  cbn [list_ascii_of_string]. now constructor.
Qed.

Lemma beforeChar_chars (P : ascii -> Prop) c s :
  Forall P (list_ascii_of_string s) ->
  Forall P (list_ascii_of_string (beforeChar c s)).
Proof.
  induction s as [|a s IH]; [trivial|]. cbn [list_ascii_of_string beforeChar].
  intros H. apply Forall_cons in H as [Ha H].
  destruct (Ascii.eqb a c); [constructor|].
  cbn [list_ascii_of_string]. constructor; [exact Ha | now apply IH].
Qed.

Lemma trim_chars (P : ascii -> Prop) s :
  Forall P (list_ascii_of_string s) -> Forall P (list_ascii_of_string (trim s)).
Proof.
  intros H. unfold trim. rewrite dropWhileEnd_stripEnd.
  now apply stripEnd_chars, dropWhile_chars.
Qed.

Lemma replaceChar_absent c r s :
  Forall (fun a => a <> c) (list_ascii_of_string s) -> replaceChar c r s = s.
Proof.
  induction s as [|a s IH]; [reflexivity|]. cbn [list_ascii_of_string replaceChar].
  intros H. apply Forall_cons in H as [Ha H].
  destruct (Ascii.eqb_spec a c); [congruence | now rewrite IH].
Qed.

Lemma splitChar_absent c s :
  Forall (fun a => a <> c) (list_ascii_of_string s) -> splitChar c s = [s].
Proof.
  induction s as [|a s IH]; [reflexivity|]. cbn [list_ascii_of_string splitChar].
  intros H. apply Forall_cons in H as [Ha H].
  destruct (Ascii.eqb_spec a c); [congruence | now rewrite IH].
Qed.

Lemma dropWhile_none p s :
  Forall (fun a => p a = false) (list_ascii_of_string s) -> dropWhile p s = s.
Proof.
  destruct s as [|a s]; [reflexivity|]. cbn [list_ascii_of_string dropWhile].
  intros H. apply Forall_cons in H as [Ha _]. now rewrite Ha.
Qed.

Lemma stripEnd_none p s :
  Forall (fun a => p a = false) (list_ascii_of_string s) -> stripEnd p s = s.
Proof.
  induction s as [|a s IH]; [reflexivity|]. cbn [list_ascii_of_string stripEnd].
  intros H. apply Forall_cons in H as [Ha H]. rewrite IH by exact H.
  rewrite Ha. now destruct s.
Qed.

Lemma stripEnd_idem p s : stripEnd p (stripEnd p s) = stripEnd p s.
Proof.
  induction s as [|a s IH]; [reflexivity|]. cbn [stripEnd].
  destruct (stripEnd p s) as [|c r] eqn:E.
  - destruct (p a) eqn:Pa; [reflexivity|]. cbn [stripEnd]. now rewrite Pa.
  - cbn [stripEnd] in *. now rewrite IH.
Qed.

Lemma stripEnd_head p a s :
  stripEnd p (String a s) = "" \/ exists r, stripEnd p (String a s) = String a r.
Proof.
  cbn [stripEnd]. destruct (stripEnd p s); [|right; now eexists].
  destruct (p a); [now left | right; now eexists].
Qed.

Lemma dropWhile_stops p s :
  dropWhile p s = "" \/ exists a r, dropWhile p s = String a r /\ p a = false.
Proof.
  induction s as [|a s IH]; [now left|]. cbn [dropWhile].
  destruct (p a) eqn:Pa; [exact IH | right; now exists a, s].
Qed.

Lemma trim_idem s : trim (trim s) = trim s.
Proof.
  unfold trim. rewrite !dropWhileEnd_stripEnd.
  assert (D : dropWhile isSpace (stripEnd isSpace (dropWhile isSpace s)) =
              stripEnd isSpace (dropWhile isSpace s)).
  { destruct (dropWhile_stops isSpace s) as [-> | (a & r & -> & Pa)]; [reflexivity|].
    destruct (stripEnd_head isSpace a r) as [-> | [r' ->]]; [reflexivity|].
    cbn [dropWhile]. now rewrite Pa. }
  rewrite D. apply stripEnd_idem.
Qed.

Lemma isQuote_false a : a <> "'"%char -> a <> "034"%char -> Legacy.isQuote a = false.
Proof.
  intros H1 H2. unfold Legacy.isQuote.
  destruct (Ascii.eqb_spec a "'"); [congruence|].
  destruct (Ascii.eqb_spec a "034"); [congruence | reflexivity].
Qed.

Lemma cleanFontFamily_chars family :
  Forall (fun a => a <> "'"%char /\ a <> "034"%char /\ a <> ","%char)
    (list_ascii_of_string (Legacy.cleanFontFamily family)).
Proof.
  unfold Legacy.cleanFontFamily.
  set (s0 := dropWhileEnd Legacy.isQuote (dropWhile Legacy.isQuote family)).
  assert (H1 : Forall (fun a => a <> "'"%char /\ a <> "034"%char)
                 (list_ascii_of_string (replaceChar "034" "" (replaceChar "'" "" s0)))).
  { apply Forall_and. split.
    - apply replaceChar_chars, replaceChar_gone.
    - apply replaceChar_gone. }
  apply trim_chars.
  assert (H2 := beforeChar_gone ","
                  (trim (replaceChar "034" "" (replaceChar "'" "" s0)))).
  assert (H3 := beforeChar_chars _ ","
                  (trim (replaceChar "034" "" (replaceChar "'" "" s0)))
                  (trim_chars _ _ H1)).
  pose proof (proj2 (Forall_and _ _) (conj H3 H2)) as H.
  eapply Forall_impl; [exact H|]. cbv beta. tauto.
Qed.

(** X3.  The cleaned font family of server/index.js holds no quote of
    either kind and no comma, and has no white space at its ends; the second
    cleaning in [styleObjectToString] therefore changes nothing, and the
    family is written in the style exactly as it is requested from the font
    service. *)
Theorem family_written_as_requested (family : string) :
  let font := Legacy.cleanFontFamily family in
  Forall (fun a => a <> "'"%char /\ a <> "034"%char /\ a <> ","%char)
    (list_ascii_of_string font) /\
  trim font = font /\
  Legacy.styleEntry ("fontFamily", VStr font) = "fontFamily: '" +:+ font +:+ "'".
Proof.
  cbv zeta. pose proof (cleanFontFamily_chars family) as C.
  assert (T : trim (Legacy.cleanFontFamily family) = Legacy.cleanFontFamily family)
    by (unfold Legacy.cleanFontFamily; apply trim_idem).
  split; [exact C|]. split; [exact T|].
  unfold Legacy.styleEntry. cbn [fst snd]. change (String.eqb "fontFamily" "fontFamily") with true.
  cbv iota zeta.
  rewrite splitChar_absent by (eapply Forall_impl; [exact C | cbv beta; tauto]).
  cbn [List.map join]. rewrite T.
  assert (Q : Forall (fun a => Legacy.isQuote a = false)
                (list_ascii_of_string (Legacy.cleanFontFamily family))).
  { eapply Forall_impl; [exact C|]. cbv beta. intros a (H1 & H2 & _).
    now apply isQuote_false. }
  rewrite dropWhile_none by exact Q.
  rewrite dropWhileEnd_stripEnd, stripEnd_none by exact Q.
  unfold Legacy.escapeQuote.
  rewrite replaceChar_absent by (eapply Forall_impl; [exact C | cbv beta; tauto]).
  reflexivity.
Qed.
End Trimming.

(** ** The offset of the root in the plain server *)
Section RootOffset.
Import JS Model Markup Server.

Lemma digits_no_quote d :
  Forall (fun c => c <> "'"%char) (list_ascii_of_string (NilEmpty.string_of_uint d)).
Proof. induction d; cbn; repeat constructor; try discriminate; assumption. Qed.

Lemma showZ_no_quote z : Forall (fun c => c <> "'"%char) (list_ascii_of_string (showZ z)).
Proof.
  unfold showZ, NilZero.string_of_int, NilZero.string_of_uint.
  destruct (Z.to_int z) as [d|d]; destruct d;
    try (repeat constructor; discriminate);
    repeat (constructor; [discriminate|]); apply digits_no_quote.
Qed.

Lemma escapeQuote_px z : escapeQuote (valToString (px z)) = showZ z +:+ "px".
Proof.
  unfold escapeQuote, px. cbn [valToString]. rewrite replaceChar_app.
  now rewrite (replaceChar_absent _ _ (showZ z)) by apply showZ_no_quote.
Qed.

Lemma getKey_elem k v (st : Styles) : getKey k st = Some v -> (k, v) ∈ st.
Proof.
  induction st as [|[k' v'] st IH]; [discriminate|]. cbn [getKey].
  destruct (String.eqb_spec k' k) as [->|_].
  - intros [= ->]. left.
  - intros H. right. now apply IH.
Qed.

(** An entry of the style object is a line of the style text. *)
Lemma styleLines_entry pad st k v :
  getKey k st = Some v ->
  includes (styleLines pad st) (k +:+ ": '" +:+ escapeQuote (valToString v) +:+ "'")
  = true.
Proof.
  intros H. apply getKey_elem in H. unfold styleLines.
  eapply includes_trans.
  - apply includes_join.
    apply (list_elem_of_fmap_2
             (fun kv => pad +:+ fst kv +:+ ": '" +:+ escapeQuote (valToString (snd kv))
                        +:+ "'") _ _ H).
  - cbn [fst snd]. apply includes_app_r, includes_refl.
Qed.

(** The style text of a node is part of its markup. *)
Lemma assemble_style node depth parentX parentY nodeCounter childrenContent c part :
  includes (styleString node depth parentX parentY) (String c part) = true ->
  includes (assemble node depth parentX parentY nodeCounter childrenContent)
    (String c part) = true.
Proof.
  intros H. unfold assemble. cbv zeta.
  destruct (String.eqb_spec (styleString node depth parentX parentY) "") as [E|_].
  { rewrite E in H. discriminate H. }
  cbn [negb].
  assert (K : forall a b t d e f g h i j k l m tail1 tail,
             includes
               ((a +:+ b +:+ t +:+ d +:+ e +:+ f +:+ g +:+ h +:+ i
                 +:+ (j +:+ k +:+ l +:+ m +:+ styleString node depth parentX parentY
                      +:+ tail1)) +:+ tail) (String c part) = true).
  { intros. apply includes_app_l. do 13 apply includes_app_r.
    now apply includes_app_l. }
  destruct (negb (nodeHasChildren node) && _); apply K.
Qed.

Lemma emitted_position node depth parentX parentY nodeCounter k z :
  getKey k (nodeStyles node depth parentX parentY) = Some (px z) ->
  includes (fst (generateNodeComponent node depth parentX parentY nodeCounter))
    (k +:+ ": '" +:+ showZ z +:+ "px'") = true.
Proof.
  intros H. rewrite generateNodeComponent_markup.
  assert (S : includes (styleString node depth parentX parentY)
                (k +:+ ": '" +:+ showZ z +:+ "px'") = true).
  { unfold styleString.
    rewrite normalizeStyles_settled
      by (apply nodeStyles_NoDup || apply settled_nodeStyles).
    pose proof (styleLines_entry (indentOf depth +:+ "        ") _ _ _ H) as L.
    rewrite escapeQuote_px in L.
    now rewrite !append_assoc in L. }
  destruct (k +:+ ": '" +:+ showZ z +:+ "px'") as [|c part] eqn:E.
  - destruct k; discriminate E.
  - now apply assemble_style.
Qed.

(** C1.  Negative coordinates of the root are not compensated.  The root
    hands its children, on each axis, the absolute value of its own
    coordinate when that is negative and 0 otherwise (0 under a layout
    mode): no coordinate of a child enters the reference.  A node below the
    root is emitted at its coordinate minus the reference handed to it, so
    the offset of the root is subtracted where it was to be added.  At the
    card of the specification, a root at (-50, -10) with a label at
    (10, 10), the label is emitted at (-40, 0) and not at (60, 20); and a
    root at the origin with a child at x = -5 emits the child at -5. *)
Theorem root_offset_subtracted :
  (forall (a : NodeAttrs) (cs : list Node) (nodeCounter : nat),
      let root := mkNode a (Some cs) in
      let rootX := default 0 (x a) in
      let rootY := default 0 (y a) in
      let offsetX := if truthyStr (layoutMode a) then 0 else Z.max 0 (- rootX) in
      let offsetY := if truthyStr (layoutMode a) then 0 else Z.max 0 (- rootY) in
      generateRoot root nodeCounter =
      let '(parts, final) :=
        mapCounter
          (fun child c => generateNodeComponent child 1 offsetX offsetY c)
          cs (S nodeCounter) in
      (assemble root 0 (if rootX <? 0 then Z.abs rootX else 0)
         (if rootY <? 0 then Z.abs rootY else 0) nodeCounter (join nl parts),
       final)) /\
  (forall (child : Node) (depth : nat) (referenceX referenceY : Z)
          (nodeCounter : nat) (childX childY : Z),
      x (attrs child) = Some childX ->
      y (attrs child) = Some childY ->
      isAutoLayout child = false ->
      includes
        (fst (generateNodeComponent child (S depth) referenceX referenceY nodeCounter))
        ("left: '" +:+ showZ (childX - referenceX) +:+ "px'") = true /\
      includes
        (fst (generateNodeComponent child (S depth) referenceX referenceY nodeCounter))
        ("top: '" +:+ showZ (childY - referenceY) +:+ "px'") = true) /\
  (x (attrs Inputs.card) = Some (-50) /\ y (attrs Inputs.card) = Some (-10) /\
   List.map (fun child => (x (attrs child), y (attrs child)))
     (default [] (children Inputs.card)) = [(Some 10, Some 10)] /\
   includes (generateComponentCode (PArray [Inputs.card]) "Card") "left: '-40px'" = true /\
   includes (generateComponentCode (PArray [Inputs.card]) "Card") "top: '0px'" = true /\
   includes (generateComponentCode (PArray [Inputs.card]) "Card") "left: '60px'" = false /\
   includes (generateComponentCode (PArray [Inputs.card]) "Card") "top: '20px'" = false) /\
  (x (attrs Inputs.cardWithOutlier) = Some 0 /\
   y (attrs Inputs.cardWithOutlier) = Some 0 /\
   List.map (fun child => x (attrs child))
     (default [] (children Inputs.cardWithOutlier)) = [Some (-5)] /\
   includes (generateComponentCode (PArray [Inputs.cardWithOutlier]) "Card")
     "left: '-5px'" = true).
Proof.
  split; [|split; [|split]].
  - intros a cs nodeCounter. cbv zeta. unfold generateRoot. cbv zeta.
    rewrite generateNodeComponent_eq. cbn [children attrs].
    now rewrite childrenX_root, childrenY_root.
  - intros child depth referenceX referenceY nodeCounter childX childY Hx Hy Ha.
    split.
    + apply (emitted_position _ _ _ _ _ "left").
      rewrite nodeStyles_left, Ha. cbn [isRoot Nat.eqb orb].
      unfold relativeX. cbn [isRoot Nat.eqb]. now rewrite Hx.
    + apply (emitted_position _ _ _ _ _ "top").
      rewrite nodeStyles_top, Ha. cbn [isRoot Nat.eqb orb].
      unfold relativeY. cbn [isRoot Nat.eqb]. now rewrite Hy.
  - repeat split; vm_compute; reflexivity.
  - repeat split; vm_compute; reflexivity.
Qed.
End RootOffset.
